(** * Nuvex TWAP / Avellaneda-Stoikov trading bot: specification against code

    A shallow embedding of the JavaScript quoting, risk and execution code of
    the bot, and the properties its specification states about it.

    Numbers.  Every JavaScript number of the source is a double; here it is
    idealised as a real number ([R]), so that [Math.log], [Math.sqrt],
    [Math.tanh], [Math.exp], [Math.max], [Math.min] and [Math.abs] are
    [ln], [sqrt], [tanh], [exp], [Rmax], [Rmin] and [Rabs].  Rounding, NaN
    and the infinities are outside the model, with one exception: where
    the source compares a quotient whose denominator is an input that
    can be zero (the slippage tests), the quotient is a [Quotient], which
    has the infinities and NaN.  Comparisons that steer control flow are
    decided with [Rlt_dec] and friends, so every definition below is a
    function of its inputs.

    Time.  [Date.now()] and [new Date()] are inputs: every function that
    reads the clock takes the readings as arguments.

    Layout.  Part I embeds the source, one module per source class:
    - [AvellanedaStoikovModel]  (src/unnamed/part_005)
    - [Calculator]              (src/twap-trading-bot/calculator.js)
    - [RiskManager]             (src/unnamed/part_004)
    - [TWAPExecutor]            (src/twap-trading-bot/src/execution/TWAPExecutor.js)
    - [TWAPTradingBot]          (src/unnamed/part_003)
    and ends with the predicates and sample inputs of the properties.
    Part II states and proves the properties, claim by claim (C1 .. C10).
    Part III proves further properties of the embedded code (X1 .. X30):
    bounds and monotonicity of the quotes, the history and the statistics
    of the model, the calculator's recommendations, the risk manager's
    bookkeeping and position sizing, invariants of the executor and the
    bot's order decisions. *)

From stdpp Require Import base option list strings gmap.
From Stdlib Require Import Reals Lra Lia.

Local Open Scope R_scope.

(* ===================================================================== *)
(** * Part I: the embedding                                              *)
(* ===================================================================== *)

(** ** JavaScript idioms on numbers *)

(** [a < b], [a > b] and [a <= b] as conditions. *)
Definition Rltb (a b : R) : bool := if Rlt_dec a b then true else false.
Definition Rgtb (a b : R) : bool := Rltb b a.
Definition Rleb (a b : R) : bool := if Rle_dec a b then true else false.

(** [x || d] where [x] is a number or [undefined]: the default [d] is taken
    when [x] is missing and also when it is the falsy number [0]. *)
Definition or_default (x : option R) (d : R) : R :=
  match x with
  | Some v => if Req_dec_T v 0 then d else v
  | None => d
  end.

(** Truthiness of a number or [undefined], as in [if (x) ...]. *)
Definition truthy (x : option R) : bool :=
  match x with
  | Some v => if Req_dec_T v 0 then false else true
  | None => false
  end.

(** [num / den] where the denominator may be zero: JavaScript does not
    fail but yields an infinity, or NaN for [0 / 0].  The zero of the
    model is JavaScript's [+0]. *)
Inductive Quotient : Type :=
| Finite (x : R)
| PlusInfinity
| MinusInfinity
| NotANumber.

Definition js_div (num den : R) : Quotient :=
  if Req_dec_T den 0
  then (if Rltb 0 num then PlusInfinity
        else if Rltb num 0 then MinusInfinity else NotANumber)
  else Finite (num / den).

(** [x > bound] and [x <= bound] for a quotient [x] and a number
    [bound]; both are false for NaN. *)
Definition Qgtb (x : Quotient) (bound : R) : bool :=
  match x with
  | Finite v => Rgtb v bound
  | PlusInfinity => true
  | MinusInfinity | NotANumber => false
  end.
Definition Qleb (x : Quotient) (bound : R) : bool :=
  match x with
  | Finite v => Rleb v bound
  | MinusInfinity => true
  | PlusInfinity | NotANumber => false
  end.

(** [arr.slice(-n)]: the last [n] elements. *)
Definition slice_last {X : Type} (n : nat) (l : list X) : list X :=
  skipn (length l - n) l.

(* --------------------------------------------------------------------- *)
(** ** The Avellaneda-Stoikov model (src/unnamed/part_005)               *)
(* --------------------------------------------------------------------- *)

Module AvellanedaStoikovModel.

Record PricePoint : Type := mkPricePoint { price : R; timestamp : R }.
Record InventoryPoint : Type := mkInventoryPoint { inventory : R; inv_timestamp : R }.

(** The fields of [this] that the pricing code reads or writes. *)
Record Model : Type := mkModel {
  γ : R;                (* risk aversion *)
  σ : R;                (* volatility *)
  T : R;                (* time horizon *)
  k : R;                (* liquidity parameter *)
  A : R;                (* order arrival intensity *)
  q : R;                (* current inventory *)
  q_target : R;         (* target inventory *)
  S : R;                (* current mid price *)
  t : R;                (* current time *)
  priceHistory : list PricePoint;
  inventoryHistory : list InventoryPoint
}.

(** The [params] object of the constructor; every field may be absent. *)
Record Params : Type := mkParams {
  p_gamma : option R; p_sigma : option R; p_T : option R;
  p_k : option R; p_A : option R
}.

Definition no_params : Params := mkParams None None None None None.

(** [constructor(params = {})] *)
Definition constructor (params : Params) : Model :=
  {| γ := or_default (p_gamma params) 0.1;
     σ := or_default (p_sigma params) 0.2;
     T := or_default (p_T params) 1.0;
     k := or_default (p_k params) 1.5;
     A := or_default (p_A params) 100;
     q := 0; q_target := 0; S := 0; t := 0;
     priceHistory := []; inventoryHistory := [] |}.

Record Quote : Type := mkQuote {
  bidPrice : R;
  askPrice : R;
  reservationPrice : R;
  spread : R;
  bidIntensity : R;
  askIntensity : R;
  inventoryAdjustment : R
}.

Section Methods.
Variable this : Model.

(** [calculateReservationPrice(S, q, t)] *)
Definition calculateReservationPrice (S q t : R) : R :=
  let timeToMaturity := T this - t in
  let inventoryPenalty := (γ this * σ this ^ 2 * timeToMaturity * q) / 2 in
  S - inventoryPenalty.

(** [calculateOptimalSpread(t)]: builds what the source calls the half
    spread and returns twice that. *)
Definition calculateOptimalSpread (t : R) : R :=
  let timeToMaturity := T this - t in
  let riskComponent := (γ this * σ this ^ 2 * timeToMaturity) / 2 in
  let liquidityComponent := (2 / γ this) * ln (1 + γ this / k this) in
  let halfSpread := riskComponent + liquidityComponent in
  halfSpread * 2.

(** [calculateArrivalIntensities(bidSpread, askSpread)] *)
Definition calculateArrivalIntensities (bidSpread askSpread : R) : R * R :=
  (A this * exp (- k this * bidSpread), A this * exp (- k this * askSpread)).

(** [calculateInventoryAdjustment(q)] *)
Definition calculateInventoryAdjustment (q : R) : R :=
  let inventoryImbalance := q - q_target this in
  let maxAdjustment := σ this * 0.1 in
  tanh (inventoryImbalance * 2) * maxAdjustment.

(** [calculateOptimalQuotes(S, q, t)].  The source has no check on [t]
    and no [throw]: the function returns a quote on every input. *)
Definition calculateOptimalQuotes (S q t : R) : Quote :=
  let r := calculateReservationPrice S q t in
  let optimalSpread := calculateOptimalSpread t in
  let halfSpread := optimalSpread / 2 in
  let inventoryAdjustment := calculateInventoryAdjustment q in
  let bidPrice := r - halfSpread - inventoryAdjustment in
  let askPrice := r + halfSpread + inventoryAdjustment in
  let bidSpread := S - bidPrice in
  let askSpread := askPrice - S in
  let intensities := calculateArrivalIntensities bidSpread askSpread in
  {| bidPrice := Rmax bidPrice (S * 0.95);
     askPrice := Rmin askPrice (S * 1.05);
     reservationPrice := r;
     spread := optimalSpread;
     bidIntensity := fst intensities;
     askIntensity := snd intensities;
     inventoryAdjustment := inventoryAdjustment |}.

(** The first loop of [estimateVolatility]: the log-returns
    [ln (P_i / P_(i-1))] for [i = 1 .. length-1]. *)
Fixpoint returns_from (prev : R) (rest : list PricePoint) : list R :=
  match rest with
  | [] => []
  | p :: rest' => ln (price p / prev) :: returns_from (price p) rest'
  end.

Definition log_returns (history : list PricePoint) : list R :=
  match history with
  | [] => []
  | p0 :: rest => returns_from (price p0) rest
  end.

(** The second loop: [ewmaVar = lambda * ewmaVar + (1 - lambda) * r^2],
    run over [returns[1 ..]] from the seed [returns[0]^2]. *)
Definition lambda : R := 0.94.

Definition ewma_step (ewmaVar r : R) : R :=
  lambda * ewmaVar + (1 - lambda) * r ^ 2.

Definition ewma_loop (returns : list R) : R :=
  fold_left ewma_step (tail returns) (nth 0 returns 0 ^ 2).

(** [estimateVolatility()] *)
Definition estimateVolatility : R :=
  if (length (priceHistory this) <? 2)%nat then σ this
  else
    let returns := log_returns (priceHistory this) in
    let ewmaVar := ewma_loop returns in
    let volatility := sqrt (ewmaVar * (365 * 24 * 60 * 60 / 5)) in
    let smoothingFactor := 0.1 in
    σ this * (1 - smoothingFactor) + volatility * smoothingFactor.
End Methods.

(** The [marketData] argument of [updateParameters]. *)
Record MarketData : Type := mkMarketData {
  md_midPrice : R; md_timestamp : R; md_inventory : R
}.

(** [updateParameters(marketData)]: the new state of [this] and the quote
    that is emitted and returned. *)
Definition updateParameters (this : Model) (marketData : MarketData)
  : Model * Quote :=
  let S' := md_midPrice marketData in
  let t' := md_timestamp marketData in
  let q' := md_inventory marketData in
  let ph := priceHistory this ++ [mkPricePoint S' t'] in
  let ih := inventoryHistory this ++ [mkInventoryPoint q' t'] in
  let trim := (1000 <? length ph)%nat in
  let ph' := if trim then slice_last 1000 ph else ph in
  let ih' := if trim then slice_last 1000 ih else ih in
  let m1 := {| γ := γ this; σ := σ this; T := T this; k := k this;
               A := A this; q := q'; q_target := q_target this;
               S := S'; t := t';
               priceHistory := ph'; inventoryHistory := ih' |} in
  let σ' := if (50 <? length ph')%nat then estimateVolatility m1 else σ m1 in
  let m2 := {| γ := γ m1; σ := σ'; T := T m1; k := k m1;
               A := A m1; q := q'; q_target := q_target m1;
               S := S'; t := t';
               priceHistory := ph'; inventoryHistory := ih' |} in
  (m2, calculateOptimalQuotes m2 S' q' t').

(** The estimator in the specification's words: the log-return of
    sample [i >= 1] is [ln (P_i / P_(i-1))], the variance follows
    [var_n = 0.94 * var_(n-1) + 0.06 * r_n ^ 2] from the first squared
    return, and the annualised volatility is
    [sqrt (var * (365*24*60*60/5))]. *)
Definition log_return_spec (history : list PricePoint) (i : nat) : R :=
  ln (price (nth i history (mkPricePoint 0 0))
      / price (nth (i - 1) history (mkPricePoint 0 0))).

Fixpoint ewma_variance_spec (r : nat -> R) (n : nat) : R :=
  match n with
  | O => r 1%nat ^ 2
  | Datatypes.S n' =>
      0.94 * ewma_variance_spec r n' + 0.06 * r (Datatypes.S (Datatypes.S n')) ^ 2
  end.

Definition annualized_volatility_spec (history : list PricePoint) : R :=
  sqrt (ewma_variance_spec (log_return_spec history) (length history - 2)
        * (365 * 24 * 60 * 60 / 5)).

(** How a call ends.  The error names are the specification's; the
    pricing code itself contains no [throw]. *)
Inductive PricingError : Type := InvalidTimeRange | InvalidParameter.
Inductive Outcome : Type :=
| Returns (quote : Quote)
| Throws (error : PricingError).

(** A call of [calculateOptimalQuotes] as the caller sees it. *)
Definition call_calculateOptimalQuotes (this : Model) (S q t : R) : Outcome :=
  Returns (calculateOptimalQuotes this S q t).

(** The specification's [computeQuote], in its words (section 4.2): the
    call requires [0 <= t <= T] and fails with [InvalidTimeRange]
    otherwise; the quote follows the specification's formulas, none of
    which is taken from the code.  The specification lists the
    intensities after the safety clamp; they are read here from the
    clamped prices. *)
Definition computeQuote_spec (this : Model) (S q t : R) : Outcome :=
  if Rltb t 0 || Rgtb t (T this) then Throws InvalidTimeRange
  else
    let timeToMaturity := T this - t in
    let r := S - (γ this * σ this ^ 2 * timeToMaturity * q) / 2 in
    let δ := γ this * σ this ^ 2 * timeToMaturity
             + (2 / γ this) * ln (1 + γ this / k this) in
    let adjustment := tanh (2 * (q - q_target this)) * (σ this * 0.1) in
    let bid := Rmax (r - δ / 2 - adjustment) (0.95 * S) in
    let ask := Rmin (r + δ / 2 + adjustment) (1.05 * S) in
    Returns {| bidPrice := bid;
               askPrice := ask;
               reservationPrice := r;
               spread := δ;
               bidIntensity := A this * exp (- k this * (S - bid));
               askIntensity := A this * exp (- k this * (ask - S));
               inventoryAdjustment := adjustment |}.

(** [calculateExpectedPnL(quotes, timeHorizon = 0.01)] *)
Definition calculateExpectedPnL (this : Model) (quotes : Quote)
    (timeHorizon : option R) : R :=
  let timeHorizon := match timeHorizon with Some h => h | None => 0.01 end in
  let bidProfit := (S this - bidPrice quotes) * bidIntensity quotes * timeHorizon in
  let askProfit := (askPrice quotes - S this) * askIntensity quotes * timeHorizon in
  let inventoryRisk := -0.5 * γ this * (σ this * q this) ^ 2 * timeHorizon in
  bidProfit + askProfit + inventoryRisk.

(** The [stats] object of the model and the [trade] argument of
    [updateStats]. *)
Record Stats : Type := mkStats {
  totalTrades : nat;
  totalVolume : R;
  totalPnL : R;
  sharpeRatio : R;
  maxDrawdown : R;
  inventoryTurnover : R
}.

Record Trade : Type := mkTrade { trade_size : R; trade_pnl : R }.

(** The statistics set by the constructor. *)
Definition initial_stats : Stats := mkStats 0 0 0 0 0 0.

(** [updateStats(trade)]: the new value of [this.stats]. *)
Definition updateStats (this : Model) (stats : Stats) (trade : Trade) : Stats :=
  let totalVolume' := totalVolume stats + trade_size trade in
  {| totalTrades := Datatypes.S (totalTrades stats);
     totalVolume := totalVolume';
     totalPnL := totalPnL stats + trade_pnl trade;
     sharpeRatio := sharpeRatio stats;
     maxDrawdown := if Rltb (trade_pnl trade) 0
                    then Rmin (maxDrawdown stats) (trade_pnl trade)
                    else maxDrawdown stats;
     inventoryTurnover := if Rgtb totalVolume' 0
                          then totalVolume' / Rabs (or_default (Some (q this)) 1)
                          else inventoryTurnover stats |}.

End AvellanedaStoikovModel.

(* --------------------------------------------------------------------- *)
(** ** The standalone calculator (src/twap-trading-bot/calculator.js)    *)
(* --------------------------------------------------------------------- *)

Module Calculator.

Record Config : Type := mkConfig {
  RISK_AVERSION : R; VOLATILITY : R; TIME_HORIZON : R; TICK_SIZE : R
}.

(** The [config] constant at the top of the file. *)
Definition config : Config :=
  {| RISK_AVERSION := 0.1; VOLATILITY := 0.2; TIME_HORIZON := 1.0;
     TICK_SIZE := 0.01 |}.

Record Calc : Type := mkCalc { gamma : R; sigma : R; T : R; tickSize : R }.

Definition constructor (config : Config) : Calc :=
  {| gamma := RISK_AVERSION config; sigma := VOLATILITY config;
     T := TIME_HORIZON config; tickSize := TICK_SIZE config |}.

Record Inventory : Type := mkInventory {
  ethBalance : R; usdtBalance : R; targetBalance : R
}.

Record Quotes : Type := mkQuotes {
  reservationPrice : R; optimalSpread : R; bidPrice : R; askPrice : R;
  midPrice : R
}.

Section Methods.
Variable this : Calc.

(** [calculateReservationPrice(currentPrice, inventory, timeRemaining)];
    [timeRemaining || this.T] replaces a zero time by the horizon. *)
Definition calculateReservationPrice
    (currentPrice : R) (inventory : Inventory) (timeRemaining : option R) : R :=
  let S := currentPrice in
  let q := ethBalance inventory - targetBalance inventory in
  let t_remaining := or_default timeRemaining (T this) in
  S - (gamma this * sigma this ^ 2 * t_remaining * q) / 2.

(** [calculateOptimalSpread(timeRemaining, arrivalIntensity = 1.5)] *)
Definition calculateOptimalSpread
    (timeRemaining : option R) (arrivalIntensity : option R) : R :=
  let t_remaining := or_default timeRemaining (T this) in
  let kappa := match arrivalIntensity with Some a => a | None => 1.5 end in
  gamma this * sigma this ^ 2 * t_remaining
  + (2 / gamma this) * ln (1 + gamma this / kappa).

(** [calculateOptimalQuotes(currentPrice, inventory, timeRemaining)] *)
Definition calculateOptimalQuotes
    (currentPrice : R) (inventory : Inventory) (timeRemaining : option R)
  : Quotes :=
  let reservationPrice :=
    calculateReservationPrice currentPrice inventory timeRemaining in
  let optimalSpread := calculateOptimalSpread timeRemaining None in
  let bidPrice := reservationPrice - optimalSpread / 2 in
  let askPrice := reservationPrice + optimalSpread / 2 in
  {| reservationPrice := reservationPrice;
     optimalSpread := optimalSpread;
     bidPrice := bidPrice;
     askPrice := askPrice;
     midPrice := (bidPrice + askPrice) / 2 |}.
End Methods.

Inductive Recommendation : Type := SELL | BUY | HOLD.

Record PortfolioMetrics : Type := mkPortfolioMetrics {
  ethValue : R; totalValue : R; ethRatio : R; imbalance : R;
  recommendation : Recommendation
}.

(** [calculatePortfolioMetrics(inventory, currentPrice)] *)
Definition calculatePortfolioMetrics (inventory : Inventory) (currentPrice : R)
  : PortfolioMetrics :=
  let ethValue := ethBalance inventory * currentPrice in
  let totalValue := ethValue + usdtBalance inventory in
  let ethRatio := ethValue / totalValue in
  let targetRatio := 0.5 in
  let imbalance := ethRatio - targetRatio in
  {| ethValue := ethValue;
     totalValue := totalValue;
     ethRatio := ethRatio;
     imbalance := imbalance;
     recommendation := if Rgtb (Rabs imbalance) 0.1
                       then (if Rgtb imbalance 0 then SELL else BUY)
                       else HOLD |}.

(** [simulatePriceMovement(currentPrice, volatility, timeStep = 1/60)];
    [random] is the value of [Math.random()]. *)
Definition simulatePriceMovement (random : R) (currentPrice volatility : R)
    (timeStep : option R) : R :=
  let timeStep := match timeStep with Some d => d | None => 1 / 60 end in
  let drift := 0 in
  let randomShock := (random - 0.5) * 2 in
  let priceChange :=
    currentPrice * (drift * timeStep + volatility * sqrt timeStep * randomShock) in
  Rmax 100 (currentPrice + priceChange).

End Calculator.

(* --------------------------------------------------------------------- *)
(** ** The risk manager (src/unnamed/part_004)                           *)
(* --------------------------------------------------------------------- *)

Module RiskManager.

Inductive Direction : Type := buy | sell.

(** The [config] object of the constructor; every limit may be absent. *)
Record Config : Type := mkConfig {
  c_maxDailyLoss : option R;
  c_maxPositionSize : option R;
  c_maxOrderSize : option R;
  c_maxSlippage : option R;
  c_maxDrawdown : option R
}.

(** The mutable fields of [this] together with the limits. *)
Record State : Type := mkState {
  maxDailyLoss : R;
  maxPositionSize : R;
  maxOrderSize : R;
  maxSlippage : R;
  maxDrawdown : R;
  dailyPnL : R;
  currentPosition : R;
  peakValue : R;
  lastResetDate : string;
  emergencyStop : bool;
  tradingPaused : bool
}.

(** [constructor(config)]; [today] is [new Date().toDateString()]. *)
Definition constructor (config : Config) (today : string) : State :=
  {| maxDailyLoss := or_default (c_maxDailyLoss config) 1000;
     maxPositionSize := or_default (c_maxPositionSize config) 10;
     maxOrderSize := or_default (c_maxOrderSize config) 1;
     maxSlippage := or_default (c_maxSlippage config) 0.005;
     maxDrawdown := or_default (c_maxDrawdown config) 0.1;
     dailyPnL := 0;
     currentPosition := 0;
     peakValue := 0;
     lastResetDate := today;
     emergencyStop := false;
     tradingPaused := false |}.

(** Assignments to single fields of [this]. *)
Definition set_dailyPnL (v : R) (s : State) : State :=
  mkState (maxDailyLoss s) (maxPositionSize s) (maxOrderSize s) (maxSlippage s)
          (maxDrawdown s) v (currentPosition s) (peakValue s)
          (lastResetDate s) (emergencyStop s) (tradingPaused s).
Definition set_currentPosition (v : R) (s : State) : State :=
  mkState (maxDailyLoss s) (maxPositionSize s) (maxOrderSize s) (maxSlippage s)
          (maxDrawdown s) (dailyPnL s) v (peakValue s)
          (lastResetDate s) (emergencyStop s) (tradingPaused s).
Definition set_peakValue (v : R) (s : State) : State :=
  mkState (maxDailyLoss s) (maxPositionSize s) (maxOrderSize s) (maxSlippage s)
          (maxDrawdown s) (dailyPnL s) (currentPosition s) v
          (lastResetDate s) (emergencyStop s) (tradingPaused s).
Definition set_lastResetDate (v : string) (s : State) : State :=
  mkState (maxDailyLoss s) (maxPositionSize s) (maxOrderSize s) (maxSlippage s)
          (maxDrawdown s) (dailyPnL s) (currentPosition s) (peakValue s)
          v (emergencyStop s) (tradingPaused s).
Definition set_emergencyStop (v : bool) (s : State) : State :=
  mkState (maxDailyLoss s) (maxPositionSize s) (maxOrderSize s) (maxSlippage s)
          (maxDrawdown s) (dailyPnL s) (currentPosition s) (peakValue s)
          (lastResetDate s) v (tradingPaused s).
Definition set_tradingPaused (v : bool) (s : State) : State :=
  mkState (maxDailyLoss s) (maxPositionSize s) (maxOrderSize s) (maxSlippage s)
          (maxDrawdown s) (dailyPnL s) (currentPosition s) (peakValue s)
          (lastResetDate s) (emergencyStop s) v.

Record Order : Type := mkOrder {
  id : string; direction : Direction; totalSize : R; targetPrice : R
}.

Record Inventory : Type := mkInventory { ETH : R; USDT : R }.

Record MarketData : Type := mkMarketData {
  currentPrice : R;
  volatility : R;
  bidAskSpread : R;
  timestamp : R;          (* milliseconds *)
  priceChange24h : R
}.

(** One constructor per [throw new Error(...)] of the validation code,
    carrying the numbers its message prints. *)
Inductive Error : Type :=
| TradingNotAllowed                          (* 'Trading not allowed - risk controls active' *)
| OrderSizeExceedsMaximum (size max : R)     (* 'Order size .. exceeds maximum ..' *)
| NewPositionExceedsMaximum (pos max : R)    (* 'New position .. would exceed maximum ..' *)
| DailyLossLimit (current estimated : R)     (* 'Order would exceed daily loss limit. ..' *)
| SpreadTooWide (bidAsk : R)                 (* 'Bid-ask spread too wide: ..' *)
| MarketDataTooStale (priceAge : R)          (* 'Market data too stale: ..ms old' *)
| ExtremeMarketConditions                    (* 'Extreme market conditions - trading suspended' *)
| SlippageExceedsMaximum (slippage : Quotient) (max : R).
                                             (* 'Expected slippage .. exceeds maximum ..' *)

(** A method body that may throw: [inl e] is [throw e]. *)
Definition Result (X : Type) : Type := Error + X.
Definition ok : Result unit := inr tt.
Definition throw_if (cond : bool) (e : Error) : Result unit :=
  if cond then inl e else ok.
Definition seq_ {X : Type} (first : Result unit) (next : Result X) : Result X :=
  match first with inl e => inl e | inr _ => next end.
Notation "a 'and_then' b" := (seq_ a b) (at level 62, right associativity).

(** [isTradingAllowed()] *)
Definition isTradingAllowed (this : State) : bool :=
  if emergencyStop this then false
  else if tradingPaused this then false
  else true.

(** [resetDailyPnLIfNeeded()]; [today] is [new Date().toDateString()]. *)
Definition resetDailyPnLIfNeeded (today : string) (this : State) : State :=
  if bool_decide (today ≠ lastResetDate this)
  then set_lastResetDate today (set_dailyPnL 0 this)
  else this.

(** [calculateNewPosition(order, currentInventory)] *)
Definition calculateNewPosition (order : Order) (currentInventory : Inventory) : R :=
  let currentEthPosition := or_default (Some (ETH currentInventory)) 0 in
  match direction order with
  | buy => currentEthPosition + totalSize order
  | sell => currentEthPosition - totalSize order
  end.

(** [estimateOrderPnL(order, marketData)] *)
Definition estimateOrderPnL (order : Order) (marketData : MarketData) : R :=
  let currentPrice := currentPrice marketData in
  let slippageAdjustment :=
    match direction order with buy => 1.002 | sell => 0.998 end in
  let executionPrice := currentPrice * slippageAdjustment in
  match direction order with
  | buy => totalSize order * (currentPrice - executionPrice)
  | sell => totalSize order * (executionPrice - currentPrice)
  end.

(** [validateMarketConditions(marketData)]; [now] is [Date.now()].  The
    volatility test only warns. *)
Definition validateMarketConditions (now : R) (marketData : MarketData)
  : Result unit :=
  throw_if (Rgtb (bidAskSpread marketData) 0.01)
           (SpreadTooWide (bidAskSpread marketData)) and_then
  let priceAge := now - timestamp marketData in
  throw_if (Rgtb priceAge 30000) (MarketDataTooStale priceAge) and_then
  throw_if (Rltb (priceChange24h marketData) (-0.2)) ExtremeMarketConditions.

(** [validateSlippage(order, marketData)].  The current price is an
    input and can be 0: the slippage is then infinite and the order is
    rejected, unless the target price is 0 too, where the slippage is NaN
    and the comparison is false. *)
Definition validateSlippage (this : State) (order : Order) (marketData : MarketData)
  : Result unit :=
  let currentPrice := currentPrice marketData in
  let targetPrice := targetPrice order in
  let slippage := js_div (Rabs (targetPrice - currentPrice)) currentPrice in
  throw_if (Qgtb slippage (maxSlippage this))
           (SlippageExceedsMaximum slippage (maxSlippage this)).

(** The body of the [try] block of [validateOrder], after the daily
    reset. *)
Definition validateOrder_checks (this : State) (now : R)
    (order : Order) (currentInventory : Inventory) (marketData : MarketData)
  : Result bool :=
  throw_if (negb (isTradingAllowed this)) TradingNotAllowed and_then
  throw_if (Rgtb (totalSize order) (maxOrderSize this))
           (OrderSizeExceedsMaximum (totalSize order) (maxOrderSize this)) and_then
  let newPosition := calculateNewPosition order currentInventory in
  throw_if (Rgtb (Rabs newPosition) (maxPositionSize this))
           (NewPositionExceedsMaximum newPosition (maxPositionSize this)) and_then
  let estimatedPnL := estimateOrderPnL order marketData in
  throw_if (Rltb (dailyPnL this + estimatedPnL) (- maxDailyLoss this))
           (DailyLossLimit (dailyPnL this) estimatedPnL) and_then
  validateMarketConditions now marketData and_then
  validateSlippage this order marketData and_then
  inr true.

(** [validateOrder(order, currentInventory, marketData)]: the state of
    [this] afterwards and either the thrown error or [true].  [today] and
    [now] are the two readings of the clock; the [catch] re-throws. *)
Definition validateOrder (this : State) (today : string) (now : R)
    (order : Order) (currentInventory : Inventory) (marketData : MarketData)
  : State * Result bool :=
  let this1 := resetDailyPnLIfNeeded today this in
  (this1, validateOrder_checks this1 now order currentInventory marketData).

(** The constraints of [validateOrder] in the specification's words, in
    the order in which it lists them. *)
Inductive Constraint : Type :=
| TradingAllowedState
| OrderSizeLimit
| ResultingPositionLimit
| ProjectedDailyPnLLimit
| BidAskSpreadLimit
| MarketDataStaleness
| FlashCrashCondition
| ExpectedSlippageLimit.

Definition constraint_order : list Constraint :=
  [ TradingAllowedState; OrderSizeLimit; ResultingPositionLimit;
    ProjectedDailyPnLLimit; BidAskSpreadLimit; MarketDataStaleness;
    FlashCrashCondition; ExpectedSlippageLimit ].

(** Whether a constraint is violated.  The staleness test is a
    parameter: the specification asks for an age below 30 s
    ([stale_spec]), the code rejects an age above 30 s ([stale_code]).
    The position limit bounds the size of the position, long or short,
    the spread limit is the fixed 1%, and the expected slippage is the
    quotient |targetPrice - currentPrice| / currentPrice, which meets
    its limit when it is a number (or an infinity) at most the limit. *)
Definition stale_spec (priceAge : R) : bool := negb (Rltb priceAge 30000).
Definition stale_code (priceAge : R) : bool := Rgtb priceAge 30000.

Definition violated (stale : R -> bool) (this : State) (now : R)
    (order : Order) (currentInventory : Inventory) (marketData : MarketData)
    (c : Constraint) : bool :=
  match c with
  | TradingAllowedState => negb (isTradingAllowed this)
  | OrderSizeLimit => negb (Rleb (totalSize order) (maxOrderSize this))
  | ResultingPositionLimit =>
      negb (Rleb (Rabs (calculateNewPosition order currentInventory))
                  (maxPositionSize this))
  | ProjectedDailyPnLLimit =>
      negb (Rleb (- maxDailyLoss this)
                  (dailyPnL this + estimateOrderPnL order marketData))
  | BidAskSpreadLimit => negb (Rleb (bidAskSpread marketData) 0.01)
  | MarketDataStaleness => stale (now - timestamp marketData)
  | FlashCrashCondition => Rltb (priceChange24h marketData) (-0.2)
  | ExpectedSlippageLimit =>
      negb (Qleb (js_div (Rabs (targetPrice order - currentPrice marketData))
                         (currentPrice marketData))
                 (maxSlippage this))
  end.

(** The expected slippage of the order is a number or an infinity: the
    current price and the target price are not both 0. *)
Definition slippage_is_number (order : Order) (marketData : MarketData) : Prop :=
  currentPrice marketData = 0 -> targetPrice order <> 0.

Definition first_violation (stale : R -> bool) (this : State) (now : R)
    (order : Order) (currentInventory : Inventory) (marketData : MarketData)
  : option Constraint :=
  List.find (violated stale this now order currentInventory marketData)
            constraint_order.

(** The constraint that an error names. *)
Definition constraint_of (e : Error) : Constraint :=
  match e with
  | TradingNotAllowed => TradingAllowedState
  | OrderSizeExceedsMaximum _ _ => OrderSizeLimit
  | NewPositionExceedsMaximum _ _ => ResultingPositionLimit
  | DailyLossLimit _ _ => ProjectedDailyPnLLimit
  | SpreadTooWide _ => BidAskSpreadLimit
  | MarketDataTooStale _ => MarketDataStaleness
  | ExtremeMarketConditions => FlashCrashCondition
  | SlippageExceedsMaximum _ _ => ExpectedSlippageLimit
  end.

(** What the specification asks of a validation: on a violation, an
    error naming the first violated constraint and an untouched state;
    otherwise success. *)
Definition validateOrder_meets (stale : R -> bool) (before after : State)
    (result : Result bool) (now : R) (order : Order)
    (currentInventory : Inventory) (marketData : MarketData) : Prop :=
  match first_violation stale before now order currentInventory marketData with
  | Some c => (exists e, result = inl e /\ constraint_of e = c) /\ after = before
  | None => result = inr true
  end.

(** [calculatePortfolioValue(inventory, currentPrice)] *)
Definition calculatePortfolioValue (inventory : Inventory) (currentPrice : R) : R :=
  let ethValue := ETH inventory * currentPrice in
  let usdtValue := USDT inventory in
  ethValue + usdtValue.

(** [calculateDrawdown(currentValue)] *)
Definition calculateDrawdown (this : State) (currentValue : R) : R :=
  if Req_dec_T (peakValue this) 0 then 0
  else (peakValue this - currentValue) / peakValue this.

(** [activateEmergencyStop(reason)], [pauseTrading(reason)],
    [resumeTrading()], [resetEmergencyStop()]; the alert they send only
    logs. *)
Definition activateEmergencyStop (this : State) : State :=
  set_tradingPaused true (set_emergencyStop true this).
Definition pauseTrading (this : State) : State :=
  set_tradingPaused true this.
Definition resumeTrading (this : State) : State :=
  set_tradingPaused false this.
Definition resetEmergencyStop (this : State) : State :=
  set_tradingPaused false (set_emergencyStop false this).

(** [checkRiskLimits(portfolioValue)]; the 80% warnings only log. *)
Definition checkRiskLimits (this : State) (portfolioValue : R) : State :=
  if Rltb (dailyPnL this) (- maxDailyLoss this) then activateEmergencyStop this
  else
    let drawdown := calculateDrawdown this portfolioValue in
    if Rgtb drawdown (maxDrawdown this) then activateEmergencyStop this
    else if Rgtb (Rabs (currentPosition this)) (maxPositionSize this)
         then pauseTrading this
         else this.

Record ExecutionResult : Type := mkExecutionResult {
  pnl : option R;
  res_direction : Direction;
  size : R;
  currentInventory : Inventory;
  res_currentPrice : R
}.

(** [updateRiskMetrics(executionResult)] *)
Definition updateRiskMetrics (this : State) (executionResult : ExecutionResult)
  : State :=
  let this1 :=
    set_dailyPnL (dailyPnL this + or_default (pnl executionResult) 0) this in
  let this2 :=
    match res_direction executionResult with
    | buy => set_currentPosition (currentPosition this1 + size executionResult) this1
    | sell => set_currentPosition (currentPosition this1 - size executionResult) this1
    end in
  let portfolioValue :=
    calculatePortfolioValue (currentInventory executionResult)
                            (res_currentPrice executionResult) in
  let this3 :=
    if Rgtb portfolioValue (peakValue this2)
    then set_peakValue portfolioValue this2 else this2 in
  checkRiskLimits this3 portfolioValue.

(** The calls a client can make on a risk manager that change or consult
    its circuit breakers. *)
Inductive Call : Type :=
| CallValidateOrder (today : string) (now : R)
    (order : Order) (currentInventory : Inventory) (marketData : MarketData)
| CallUpdateRiskMetrics (executionResult : ExecutionResult)
| CallResumeTrading
| CallResetEmergencyStop.

Definition is_reset (c : Call) : bool :=
  match c with CallResetEmergencyStop => true | _ => false end.

Definition run_call (this : State) (c : Call) : State :=
  match c with
  | CallValidateOrder today now order inv md =>
      fst (validateOrder this today now order inv md)
  | CallUpdateRiskMetrics res => updateRiskMetrics this res
  | CallResumeTrading => resumeTrading this
  | CallResetEmergencyStop => resetEmergencyStop this
  end.

Definition run_calls (this : State) (cs : list Call) : State :=
  fold_left run_call cs this.

(** The numbers of [getRiskStatus()]; the limits it repeats are left
    out. *)
Record RiskStatus : Type := mkRiskStatus {
  rs_emergencyStop : bool;
  rs_tradingPaused : bool;
  rs_dailyPnL : R;
  dailyPnLPercent : R;
  rs_currentPosition : R;
  positionPercent : R;
  drawdown : R;
  drawdownPercent : R;
  portfolioValue : R
}.

(** [getRiskStatus()] *)
Definition getRiskStatus (this : State) : RiskStatus :=
  let portfolioValue := or_default (Some (peakValue this)) 10000 in
  let drawdown := calculateDrawdown this portfolioValue in
  {| rs_emergencyStop := emergencyStop this;
     rs_tradingPaused := tradingPaused this;
     rs_dailyPnL := dailyPnL this;
     dailyPnLPercent := (dailyPnL this / maxDailyLoss this) * 100;
     rs_currentPosition := currentPosition this;
     positionPercent := (Rabs (currentPosition this) / maxPositionSize this) * 100;
     drawdown := drawdown;
     drawdownPercent := (drawdown / maxDrawdown this) * 100;
     portfolioValue := portfolioValue |}.

(** [recommendPositionSize(baseSize, volatility, inventory)]; the
    [inventory] argument is not used. *)
Definition recommendPositionSize (this : State) (baseSize volatility : R) : R :=
  let recommendedSize := baseSize in
  let riskStatus := getRiskStatus this in
  let recommendedSize :=
    if Rgtb (dailyPnLPercent riskStatus) 60 then recommendedSize * 0.5
    else recommendedSize in
  let recommendedSize :=
    if Rgtb (positionPercent riskStatus) 60 then recommendedSize * 0.7
    else recommendedSize in
  let recommendedSize :=
    if Rgtb volatility 0.05 then recommendedSize * (1 - volatility)
    else recommendedSize in
  let recommendedSize := Rmin recommendedSize (maxOrderSize this) in
  Rmax recommendedSize 0.01.

End RiskManager.

(* --------------------------------------------------------------------- *)
(** ** The TWAP executor
       (src/twap-trading-bot/src/execution/TWAPExecutor.js)              *)
(* --------------------------------------------------------------------- *)

Module TWAPExecutor.

Inductive Direction : Type := buy | sell.
Inductive PartStatus : Type := pending | executed | failed.
Inductive OrderStatus : Type := active | completed | order_failed.

(** What a thrown error of the execution path says. *)
Inductive ExecError : Type :=
| BackendError (message : string)     (* 1inch quote, swap or transaction failed *)
| SlippageTooHigh (slippage : Quotient) (* 'Slippage too high: ..%' *)
| NoSuchOrder.                        (* TypeError: the order is not in the map *)

(** The fields of the [quotes] object that the executor reads. *)
Record Quotes : Type := mkQuotes {
  inventoryAdjustment : option R;
  reservationPrice : R
}.

(** One element of an execution plan; the last five fields are set when
    the part is executed or fails. *)
Record Part : Type := mkPart {
  partIndex : nat;
  size : R;
  executionTime : R;
  status : PartStatus;
  targetPrice : R;
  executedPrice : option R;
  executedSize : option R;
  gasUsed : option R;
  timestamp : option R;
  error : option ExecError
}.

(** The limits kept by the constructor. *)
Record Executor : Type := mkExecutor {
  minOrderSize : R; maxOrderSize : R; maxSlippage : R
}.

Record Config : Type := mkConfig {
  c_minOrderSize : option R; c_maxOrderSize : option R; c_maxSlippage : option R
}.

Definition constructor (config : Config) : Executor :=
  {| minOrderSize := or_default (c_minOrderSize config) 0.01;
     maxOrderSize := or_default (c_maxOrderSize config) 1.0;
     maxSlippage := or_default (c_maxSlippage config) 0.005 |}.

Section Plan.
Variable this : Executor.

(** The size of one part: [baseSize], scaled when the quote carries a
    truthy [inventoryAdjustment], then bounded. *)
Definition part_size (baseSize : R) (quotes : option Quotes) : R :=
  let partSize := baseSize in
  let partSize :=
    match quotes with
    | Some qs =>
        match inventoryAdjustment qs with
        | Some adj => if Req_dec_T adj 0 then partSize
                      else partSize * (1 + adj * 0.1)
        | None => partSize
        end
    | None => partSize
    end in
  Rmax (minOrderSize this) (Rmin (maxOrderSize this) partSize).

(** The body of the [for] loop at index [i]; [now_i] is the value that
    [Date.now()] returns in that iteration. *)
Definition plan_part (now_i : R) (timePerPart baseSize : R)
    (quotes : option Quotes) (i : nat) : Part :=
  {| partIndex := i;
     size := part_size baseSize quotes;
     executionTime := now_i + INR i * timePerPart;
     status := pending;
     targetPrice := match quotes with
                    | Some qs => reservationPrice qs
                    | None => 0
                    end;
     executedPrice := None; executedSize := None; gasUsed := None;
     timestamp := None; error := None |}.

(** [calculateExecutionPlan(totalSize, duration, maxParts, quotes)].
    The loop reads the clock anew in every iteration: [clock i] is the
    reading of iteration [i]. *)
Definition calculateExecutionPlan (clock : nat -> R)
    (totalSize duration : R) (maxParts : nat) (quotes : option Quotes)
  : list Part :=
  let timePerPart := duration / INR maxParts in
  let baseSize := totalSize / INR maxParts in
  map (fun i => plan_part (clock i) timePerPart baseSize quotes i)
      (seq 0 maxParts).

(** A quote without inventory skew: no quote, or an
    [inventoryAdjustment] that is absent or zero. *)
Definition no_inventory_skew (quotes : option Quotes) : Prop :=
  match quotes with
  | None => True
  | Some qs => inventoryAdjustment qs = None \/ inventoryAdjustment qs = Some 0
  end.

(** The sum of the sizes of the parts of a plan. *)
Definition total_planned (plan : list Part) : R :=
  fold_right (fun p acc => size p + acc) 0 plan.
End Plan.

(** The [order] argument of [executeTWAPOrder]. *)
Record OrderSpec : Type := mkOrderSpec {
  id : string;
  totalSize : R;
  duration : R;
  direction : Direction;
  quotes : option Quotes;
  maxParts : nat
}.

(** The object stored in [activeOrders]: the order's own fields and the
    ones [executeTWAPOrder] adds. *)
Record Order : Type := mkOrder {
  spec : OrderSpec;
  executionPlan : list Part;
  executedParts : nat;
  order_executedSize : R;
  totalPnL : R;
  startTime : R;
  order_status : OrderStatus;
  order_error : option ExecError;
  endTime : option R
}.

Record Trade : Type := mkTrade {
  trade_orderId : string; trade_partIndex : nat; trade_price : R;
  trade_size : R; trade_direction : Direction; trade_pnl : R
}.

Inductive Event : Type :=
| orderStarted (orderId : string) (executionPlan : list Part) (estimatedCompletion : R)
| partExecuted (orderId : string) (partIndex : nat) (executedPrice executedSize pnl : R)
| orderCompleted (orderId : string) (totalSize totalPnL : R) (parts : nat)
| orderFailed (orderId : string) (error : ExecError).

(** The executor's mutable state.  Order objects live in [heap] and are
    named by their index; [activeOrders] maps an order id to the object
    stored under it; [timers] holds the objects whose [executeNextPart]
    closure is waiting to run; [events] is what has been emitted, newest
    first. *)
Record State : Type := mkState {
  heap : list Order;
  activeOrders : gmap string nat;
  timers : gset nat;
  executionHistory : list Trade;
  events : list Event
}.

Definition initial : State := mkState [] ∅ ∅ [] [].

Definition set_heap (h : list Order) (s : State) : State :=
  mkState h (activeOrders s) (timers s) (executionHistory s) (events s).
Definition set_activeOrders (m : gmap string nat) (s : State) : State :=
  mkState (heap s) m (timers s) (executionHistory s) (events s).
Definition set_timers (t : gset nat) (s : State) : State :=
  mkState (heap s) (activeOrders s) t (executionHistory s) (events s).
Definition push_trade (t : Trade) (s : State) : State :=
  mkState (heap s) (activeOrders s) (timers s) (executionHistory s ++ [t]) (events s).
Definition emit (e : Event) (s : State) : State :=
  mkState (heap s) (activeOrders s) (timers s) (executionHistory s) (e :: events s).

(** Updates of single fields of an order object or of one of its parts. *)
Definition set_plan (p : list Part) (o : Order) : Order :=
  mkOrder (spec o) p (executedParts o) (order_executedSize o) (totalPnL o)
          (startTime o) (order_status o) (order_error o) (endTime o).
Definition set_executedParts (n : nat) (o : Order) : Order :=
  mkOrder (spec o) (executionPlan o) n (order_executedSize o) (totalPnL o)
          (startTime o) (order_status o) (order_error o) (endTime o).
Definition add_totals (dsize dpnl : R) (o : Order) : Order :=
  mkOrder (spec o) (executionPlan o) (executedParts o)
          (order_executedSize o + dsize) (totalPnL o + dpnl)
          (startTime o) (order_status o) (order_error o) (endTime o).
Definition finish (st : OrderStatus) (err : option ExecError) (now : R)
    (o : Order) : Order :=
  mkOrder (spec o) (executionPlan o) (executedParts o) (order_executedSize o)
          (totalPnL o) (startTime o) st err (Some now).

Definition mark_failed (e : ExecError) (p : Part) : Part :=
  mkPart (partIndex p) (size p) (executionTime p) failed (targetPrice p)
         (executedPrice p) (executedSize p) (gasUsed p) (timestamp p) (Some e).

(** What the 1inch API and the chain answer while one part is executed. *)
Inductive SwapReply : Type :=
| swap_fails (message : string)
| tx_fails (message : string)
| mined (gasUsed : R).

Inductive BackendReply : Type :=
| quote_fails (message : string)
| quote_ok (dstAmount : R) (next : SwapReply).

Record TxResult : Type := mkTxResult {
  tx_price : R; tx_size : R; tx_pnl : R; tx_gasUsed : R
}.

Definition mark_executed (tx : TxResult) (now : R) (p : Part) : Part :=
  mkPart (partIndex p) (size p) (executionTime p) executed (targetPrice p)
         (Some (tx_price tx)) (Some (tx_size tx)) (Some (tx_gasUsed tx))
         (Some now) (error p).

Section Execution.
Variable this : Executor.

Definition after_quote (next : SwapReply) (result : R -> TxResult)
  : ExecError + TxResult :=
  match next with
  | swap_fails msg => inl (BackendError msg)
  | tx_fails msg => inl (BackendError msg)
  | mined gas => inr (result gas)
  end.

(** [executeBuyOrder(part)].  [quote_fails] stands for every throw up to
    and including the quote request (building the amount, the request
    itself), [swap_fails] for the swap request and [tx_fails] for sending
    the transaction or waiting for its receipt. *)
Definition executeBuyOrder (part : Part) (reply : BackendReply)
  : ExecError + TxResult :=
  match reply with
  | quote_fails msg => inl (BackendError msg)
  | quote_ok dstAmount next =>
      let expectedEth := size part in
      let quotedEth := dstAmount in
      let slippage := js_div (Rabs (quotedEth - expectedEth)) expectedEth in
      if Qgtb slippage (maxSlippage this) then inl (SlippageTooHigh slippage)
      else after_quote next
             (fun gas => mkTxResult (targetPrice part) quotedEth 0 gas)
  end.

(** [executeSellOrder(part)].  The expected amount is 0 for a part
    without target price (an order without quote): every other quoted
    amount is then an infinite slippage. *)
Definition executeSellOrder (part : Part) (reply : BackendReply)
  : ExecError + TxResult :=
  match reply with
  | quote_fails msg => inl (BackendError msg)
  | quote_ok dstAmount next =>
      let expectedUsdt := size part * targetPrice part in
      let quotedUsdt := dstAmount in
      let slippage := js_div (Rabs (quotedUsdt - expectedUsdt)) expectedUsdt in
      if Qgtb slippage (maxSlippage this) then inl (SlippageTooHigh slippage)
      else after_quote next
             (fun gas => mkTxResult (quotedUsdt / size part) (size part) 0 gas)
  end.

(** The [try] block of [executePart] up to the backend call: which
    order the map holds under [orderId], and what the backend does. *)
Definition run_backend (s : State) (orderId : string) (part : Part)
    (reply : BackendReply) : ExecError + (nat * Direction * TxResult) :=
  match activeOrders s !! orderId with
  | None => inl NoSuchOrder
  | Some r' =>
      match heap s !! r' with
      | None => inl NoSuchOrder
      | Some order =>
          let tx := match direction (spec order) with
                    | buy => executeBuyOrder part reply
                    | sell => executeSellOrder part reply
                    end in
          match tx with
          | inl e => inl e
          | inr txResult => inr (r', direction (spec order), txResult)
          end
      end
  end.

(** [executePart(orderId, part)], where [part] is element [idx] of the
    plan of the object [r] that the calling closure holds; [now] is the
    clock when the backend has answered.  On an error the part is marked
    failed and the error is thrown again. *)
Definition executePart (s : State) (r idx : nat) (orderId : string)
    (part : Part) (now : R) (reply : BackendReply)
  : State * (ExecError + unit) :=
  match run_backend s orderId part reply with
  | inl e =>
      (set_heap
         (alter (fun o => set_plan (alter (mark_failed e) idx (executionPlan o)) o)
                r (heap s)) s,
       inl e)
  | inr (r', dir, txResult) =>
      let h1 :=
        alter (fun o => set_plan
                          (alter (mark_executed txResult now) idx (executionPlan o)) o)
              r (heap s) in
      let h2 := alter (add_totals (tx_size txResult) (tx_pnl txResult)) r' h1 in
      let s1 := set_heap h2 s in
      let s2 := emit (partExecuted orderId (partIndex part) (tx_price txResult)
                        (tx_size txResult) (tx_pnl txResult)) s1 in
      (push_trade (mkTrade orderId (partIndex part) (tx_price txResult)
                           (tx_size txResult) dir (tx_pnl txResult)) s2,
       inr tt)
  end.

(** [completeOrder(orderId)] *)
Definition completeOrder (s : State) (orderId : string) (now : R) : State :=
  match activeOrders s !! orderId with
  | None => s
  | Some r' =>
      let h := alter (finish completed None now) r' (heap s) in
      let s1 := set_heap h s in
      let s2 :=
        match h !! r' with
        | Some o => emit (orderCompleted orderId (order_executedSize o)
                            (totalPnL o) (length (executionPlan o))) s1
        | None => s1
        end in
      set_activeOrders (delete orderId (activeOrders s2)) s2
  end.

(** [failOrder(orderId, error)] *)
Definition failOrder (s : State) (orderId : string) (e : ExecError) (now : R)
  : State :=
  match activeOrders s !! orderId with
  | None => s
  | Some r' =>
      let h := alter (finish order_failed (Some e) now) r' (heap s) in
      let s1 := emit (orderFailed orderId e) (set_heap h s) in
      set_activeOrders (delete orderId (activeOrders s1)) s1
  end.

(** One run of the closure [executeNextPart] of [scheduleExecution] for
    the order object [r], from its start to the point where it returns or
    re-arms itself; the [await]s inside are answered by [reply].  [now]
    is the clock at the start of the run, [later] the clock once the
    backend has answered.  The closure stays in [timers] exactly when the
    run ends in [setTimeout]. *)
Definition executeNextPart (s : State) (r : nat) (now later : R)
    (reply : BackendReply) : State :=
  match heap s !! r with
  | None => s
  | Some order =>
      let orderId := id (spec order) in
      let stop := set_timers (timers s ∖ {[ r ]}) in
      match executionPlan order !! executedParts order with
      | None => completeOrder (stop s) orderId now
      | Some currentPart =>
          match status currentPart with
          | pending =>
              if Rltb now (executionTime currentPart) then s
              else
                match executePart s r (executedParts order) orderId
                                  currentPart later reply with
                | (s1, inl e) => failOrder (stop s1) orderId e later
                | (s1, inr _) =>
                    let s2 :=
                      set_heap
                        (alter (fun o => set_executedParts (S (executedParts o)) o)
                               r (heap s1)) s1 in
                    if (S (executedParts order) <? length (executionPlan order))%nat
                    then s2
                    else completeOrder (stop s2) orderId later
                end
          | _ => completeOrder (stop s) orderId now
          end
      end
  end.

(** [executeTWAPOrder(order)]: the plan is built, the new object is
    stored under the order's id, its closure is armed and
    [orderStarted] is emitted.  [clock] gives the readings of the plan's
    loop, [now] the reading for [startTime].  The first call of the
    closure, which the source makes at once, is the first [RunClosure]
    of the object. *)
Definition executeTWAPOrder (s : State) (order : OrderSpec)
    (clock : nat -> R) (now : R) : State :=
  let executionPlan :=
    calculateExecutionPlan this clock (totalSize order) (duration order)
                           (maxParts order) (quotes order) in
  let r := length (heap s) in
  let obj := mkOrder order executionPlan 0 0 0 now active None None in
  let s1 := set_heap (heap s ++ [obj]) s in
  let s2 := set_activeOrders (<[ id order := r ]> (activeOrders s1)) s1 in
  let s3 := set_timers (timers s2 ∪ {[ r ]}) s2 in
  emit (orderStarted (id order) executionPlan (now + duration order)) s3.

(** What can happen to an executor: a new order arrives, or the waiting
    closure of an order object runs. *)
Inductive Input : Type :=
| StartOrder (order : OrderSpec) (clock : nat -> R) (now : R)
| RunClosure (r : nat) (now later : R) (reply : BackendReply).

Definition step (s : State) (i : Input) : State :=
  match i with
  | StartOrder order clock now => executeTWAPOrder s order clock now
  | RunClosure r now later reply =>
      if decide (r ∈ timers s) then executeNextPart s r now later reply else s
  end.

Definition run (s : State) (inputs : list Input) : State :=
  fold_left step inputs s.
End Execution.

(** The [filter(part => part.status === 'executed')] of the statistics. *)
Definition is_executed (p : Part) : bool :=
  match status p with executed => true | _ => false end.

(** A sum over parts of numbers that may be [undefined]: [None] stands
    for the NaN that JavaScript computes from a missing number. *)
Definition add_opt (x y : option R) : option R :=
  match x, y with
  | Some a, Some b => Some (a + b)
  | _, _ => None
  end.

Definition part_value (p : Part) : option R :=
  match executedPrice p, executedSize p with
  | Some price, Some sz => Some (price * sz)
  | _, _ => None
  end.

(** [calculateAveragePrice(order)].  The result is [None] where
    JavaScript yields no real number: a NaN from a missing field or a
    division by a zero total size. *)
Definition calculateAveragePrice (order : Order) : option R :=
  let executedParts := filter (fun p => is_executed p = true) (executionPlan order) in
  match executedParts with
  | [] => Some 0
  | _ =>
      let totalValue :=
        fold_left (fun sum part => add_opt sum (part_value part)) executedParts (Some 0) in
      let totalSize :=
        fold_left (fun sum part => add_opt sum (executedSize part)) executedParts (Some 0) in
      match totalValue, totalSize with
      | Some v, Some sz => if Req_dec_T sz 0 then None else Some (v / sz)
      | _, _ => None
      end
  end.

(** [calculateTotalGasCost(order)] *)
Definition calculateTotalGasCost (order : Order) : R :=
  fold_left (fun sum part => sum + or_default (gasUsed part) 0)
            (filter (fun p => is_executed p = true) (executionPlan order)) 0.

Record ExecutionStats : Type := mkExecutionStats {
  stats_totalOrders : nat;
  stats_totalVolume : R;
  stats_totalPnL : R;
  stats_activeOrders : nat;
  stats_averageOrderSize : R
}.

(** [getExecutionStats()]; [totalVolume / totalOrders || 0] is [0] on an
    empty history, where the quotient is NaN. *)
Definition getExecutionStats (s : State) : ExecutionStats :=
  let totalOrders := length (executionHistory s) in
  let totalVolume := fold_left (fun sum trade => sum + trade_size trade)
                               (executionHistory s) 0 in
  let totalPnL := fold_left (fun sum trade => sum + trade_pnl trade)
                            (executionHistory s) 0 in
  {| stats_totalOrders := totalOrders;
     stats_totalVolume := totalVolume;
     stats_totalPnL := totalPnL;
     stats_activeOrders := base.size (activeOrders s);
     stats_averageOrderSize :=
       match totalOrders with
       | O => 0
       | _ => or_default (Some (totalVolume / INR totalOrders)) 0
       end |}.

End TWAPExecutor.

(* --------------------------------------------------------------------- *)
(** ** The trading bot's order decisions (src/unnamed/part_003)          *)
(* --------------------------------------------------------------------- *)

Module TWAPTradingBot.

Inductive Direction : Type := buy | sell.

(** The fields of a quote and of the inventory that the decisions read. *)
Record Quotes : Type := mkQuotes {
  reservationPrice : R; bidPrice : R; askPrice : R; optimalSpread : R
}.

Record Inventory : Type := mkInventory { ETH : R; USDT : R }.

(** The comparison [num / den < bound] and [num / den > bound] of
    JavaScript numbers: with a zero denominator the quotient is NaN or an
    infinity, which the tests see as follows. *)
Definition quotient_lt (num den bound : R) : bool :=
  if Req_dec_T den 0 then Rltb num 0 else Rltb (num / den) bound.
Definition quotient_gt (num den bound : R) : bool :=
  if Req_dec_T den 0 then Rgtb num 0 else Rgtb (num / den) bound.

(** [determineOrderDirection(quotes, inventory)]; [None] is [null]. *)
Definition determineOrderDirection (quotes : Quotes) (inventory : Inventory)
  : option Direction :=
  let currentPrice := reservationPrice quotes in
  let midPrice := (bidPrice quotes + askPrice quotes) / 2 in
  let towards_reservation :=
    if Rgtb currentPrice (midPrice * 1.002)
    then (if Rgtb (ETH inventory) 0.1 then Some sell else None)
    else if Rltb currentPrice (midPrice * 0.998)
         then (if Rgtb (USDT inventory) (currentPrice * 0.1) then Some buy else None)
         else None in
  match towards_reservation with
  | Some d => Some d
  | None =>
      let targetInventoryRatio := 0.5 in
      let totalValue := ETH inventory * currentPrice + USDT inventory in
      if quotient_lt (ETH inventory * currentPrice) totalValue
                     (targetInventoryRatio - 0.1)
      then Some buy
      else if quotient_gt (ETH inventory * currentPrice) totalValue
                          (targetInventoryRatio + 0.1)
           then Some sell
           else None
  end.

(** The [config.execution] limits. *)
Record ExecutionConfig : Type := mkExecutionConfig {
  minOrderSize : R; maxOrderSize : R
}.

(** [calculateBaseOrderSize(quotes, marketData)]; [volatility] is
    [marketData.volatility], which may be missing. *)
Definition calculateBaseOrderSize (config : ExecutionConfig) (quotes : Quotes)
    (volatility : option R) : R :=
  let baseSize := minOrderSize config in
  let baseSize :=
    match volatility with
    | Some v => if Req_dec_T v 0 then baseSize
                else baseSize * Rmax 0.5 (1 - v * 2)
    | None => baseSize
    end in
  let baseSize :=
    if Req_dec_T (reservationPrice quotes) 0
    then (if Rgtb (optimalSpread quotes) 0 then baseSize * 2 else baseSize)
    else
      let spreadRatio := optimalSpread quotes / reservationPrice quotes in
      if Rgtb spreadRatio 0.001 then baseSize * Rmin 2 (1 + spreadRatio * 100)
      else baseSize in
  let baseSize := Rmax (minOrderSize config) baseSize in
  Rmin (maxOrderSize config) baseSize.

(** The bot's direction and inventory as the risk manager reads them. *)
Definition risk_direction (d : Direction) : RiskManager.Direction :=
  match d with buy => RiskManager.buy | sell => RiskManager.sell end.
Definition risk_inventory (inventory : Inventory) : RiskManager.Inventory :=
  RiskManager.mkInventory (ETH inventory) (USDT inventory).

(** How [evaluateOrderCreation] ends: without a direction it returns
    early; a throw of [validateOrder] is caught and logged; otherwise the
    order is handed to [executeTWAPOrder]. *)
Inductive Evaluation : Type :=
| NoDirection
| Rejected (error : RiskManager.Error)
| Ordered (order : RiskManager.Order).

(** [evaluateOrderCreation(quotes, marketData)] up to the call of
    [executeTWAPOrder], with the risk manager's state afterwards.
    [inventory] is [this.executor.currentInventory], [orderId] the id
    built from the order counter and the clock, [today] and [now] the
    clock readings of [validateOrder].  [marketData.volatility] is a
    number; a missing one behaves like 0 in both of its uses. *)
Definition evaluateOrderCreation (config : ExecutionConfig)
    (riskManager : RiskManager.State) (orderId today : string) (now : R)
    (quotes : Quotes) (inventory : Inventory) (marketData : RiskManager.MarketData)
  : RiskManager.State * Evaluation :=
  match determineOrderDirection quotes inventory with
  | None => (riskManager, NoDirection)
  | Some orderDirection =>
      let baseSize :=
        calculateBaseOrderSize config quotes
          (Some (RiskManager.volatility marketData)) in
      let adjustedSize :=
        RiskManager.recommendPositionSize riskManager baseSize
          (RiskManager.volatility marketData) in
      let order :=
        RiskManager.mkOrder orderId (risk_direction orderDirection) adjustedSize
          (match orderDirection with
           | buy => bidPrice quotes
           | sell => askPrice quotes
           end) in
      match RiskManager.validateOrder riskManager today now order
              (risk_inventory inventory) marketData with
      | (riskManager', inl e) => (riskManager', Rejected e)
      | (riskManager', inr _) => (riskManager', Ordered order)
      end
  end.

End TWAPTradingBot.

(* --------------------------------------------------------------------- *)
(** ** Predicates on executor states, and sample inputs                  *)
(* --------------------------------------------------------------------- *)

Module AS := AvellanedaStoikovModel.
Module RM := RiskManager.
Module TW := TWAPExecutor.

Local Open Scope string_scope.

(** The order object [r] is out of the game: no closure waits for it and
    no id of the active-order map leads to it. *)
Definition retired (r : nat) (s : TW.State) : Prop :=
  (r ∉ TW.timers s)
  /\ (r < length (TW.heap s))%nat
  /\ forall oid, TW.activeOrders s !! oid ≠ Some r.

(** Every id of the active-order map leads to a stored object that
    carries this id. *)
Definition well_formed (s : TW.State) : Prop :=
  forall oid r, TW.activeOrders s !! oid = Some r ->
    exists o, TW.heap s !! r = Some o /\ TW.id (TW.spec o) = oid.

(** The states an executor can be in between the runs of its closures:
    those that a sequence of inputs leads to, each input (the start of
    an order, one run of a closure) taken as a whole. *)
Definition reachable (this : TW.Executor) (s : TW.State) : Prop :=
  exists inputs, s = TW.run this TW.initial inputs.

(** From [h] to [h'] every object is still there and carries the same
    order fields. *)
Definition ids_kept (h h' : list TW.Order) : Prop :=
  forall r o, h !! r = Some o -> exists o', h' !! r = Some o' /\ TW.spec o' = TW.spec o.

(** From [s] to [s'] objects keep their order fields and the active-order
    map only loses entries. *)
Definition evolves (s s' : TW.State) : Prop :=
  ids_kept (TW.heap s) (TW.heap s') /\ TW.activeOrders s' ⊆ TW.activeOrders s.

(** What the backend call of a part does, by the order's direction. *)
Definition backend_call (this : TW.Executor) (o : TW.Order) (part : TW.Part)
    (reply : TW.BackendReply)
  : TW.ExecError + TW.TxResult :=
  match TW.direction (TW.spec o) with
  | TW.buy => TW.executeBuyOrder this part reply
  | TW.sell => TW.executeSellOrder this part reply
  end.

(** The order object after the failure: the current part is marked failed
    and the order is finished as failed. *)
Definition failed_order (o : TW.Order) (later : R) (e : TW.ExecError) : TW.Order :=
  TW.finish TW.order_failed (Some e) later
    (TW.set_plan (alter (TW.mark_failed e) (TW.executedParts o) (TW.executionPlan o)) o).

(** The model built by [new AvellanedaStoikovModel()]: γ = 0.1, σ = 0.2,
    T = 1, k = 1.5, A = 100, target inventory 0. *)
Definition default_model : AS.Model := AS.constructor AS.no_params.

(** The model after [new AvellanedaStoikovModel({sigma: 0.01})] and two
    calls of [updateParameters] with the mid price 100, five seconds
    apart. *)
Definition flat_history_model : AS.Model :=
  let m0 := AS.constructor (AS.mkParams None (Some 0.01) None None None) in
  let m1 := fst (AS.updateParameters m0 (AS.mkMarketData 100 0 0)) in
  fst (AS.updateParameters m1 (AS.mkMarketData 100 5000 0)).

(** Two values of [new Date().toDateString()]. *)
Definition monday : string := "Mon Nov 02 2026".
Definition tuesday : string := "Tue Nov 03 2026".

(** A market snapshot with nothing wrong (price 3400, spread 0.1%, taken
    at time 0, no 24h change), an inventory without ETH, and two buy orders
    at the market price: one above the size limit, one below. *)
Definition calm_market : RM.MarketData := RM.mkMarketData 3400 0.02 0.001 0 0.
Definition no_holdings : RM.Inventory := RM.mkInventory 0 10000.
Definition oversized_order : RM.Order := RM.mkOrder "twap_1" RM.buy 1.5 3400.
Definition small_order : RM.Order := RM.mkOrder "twap_2" RM.buy 0.5 3400.

(** A risk manager built on the Monday with the default limits, and the
    same manager after [updateRiskMetrics] has booked a loss of 50. *)
Definition default_risk : RM.State :=
  RM.constructor (RM.mkConfig None None None None None) monday.
Definition small_loss : RM.ExecutionResult :=
  RM.mkExecutionResult (Some (-50)) RM.buy 0 no_holdings 3400.
Definition losing_risk : RM.State := RM.updateRiskMetrics default_risk small_loss.

(** A loss of 1500 against the default limit of 1000, followed by a
    validation on the next day, a manual resume and another update. *)
Definition heavy_loss : RM.ExecutionResult :=
  RM.mkExecutionResult (Some (-1500)) RM.sell 0.5 no_holdings 3400.
Definition later_calls : list RM.Call :=
  [ RM.CallValidateOrder tuesday 1000 small_order no_holdings calm_market;
    RM.CallResumeTrading;
    RM.CallUpdateRiskMetrics
      (RM.mkExecutionResult (Some 2000) RM.buy 0.5 no_holdings 3400) ].

(** The executor built from an empty configuration: parts between 0.01
    and 1.0, slippage up to 0.5%. *)
Definition default_executor : TW.Executor :=
  TW.constructor (TW.mkConfig None None None).

(** A clock that advances by one millisecond after the first reading. *)
Definition ticking_clock (i : nat) : R := if (i <? 1)%nat then 1000 else 1001.

(** An order of 1.0 in 10 parts over 300000 ms, the executor state after
    it was started at time 1000, the object stored for it, its first part,
    and a backend whose quote request fails. *)
Definition first_order : TW.OrderSpec :=
  TW.mkOrderSpec "twap_1" 1 300000 TW.buy None 10.
Definition started : TW.State :=
  TW.run default_executor TW.initial [TW.StartOrder first_order (fun _ => 1000) 1000].
Definition started_order : TW.Order :=
  TW.mkOrder first_order
    (TW.calculateExecutionPlan default_executor (fun _ => 1000) 1 300000 10 None)
    0 0 0 1000 TW.active None None.
Definition first_part : TW.Part :=
  TW.plan_part default_executor 1000 (300000 / INR 10) (1 / INR 10) None 0.
Definition quote_failure : TW.BackendReply := TW.quote_fails "1inch quote failed".

(* --------------------------------------------------------------------- *)
(** ** Runs, sums and invariants of the further properties               *)
(* --------------------------------------------------------------------- *)

Module BOT := TWAPTradingBot.

(** The sum of a list of numbers. *)
Definition sum_R (l : list R) : R := fold_right Rplus 0 l.

(** The model after a series of market updates. *)
Definition run_updates (m : AS.Model) (updates : list AS.MarketData) : AS.Model :=
  fold_left (fun m md => fst (AS.updateParameters m md)) updates m.

(** The price point that an update appends. *)
Definition observed (md : AS.MarketData) : AS.PricePoint :=
  AS.mkPricePoint (AS.md_midPrice md) (AS.md_timestamp md).

(** The statistics after a series of trades. *)
Definition run_stats (m : AS.Model) (stats : AS.Stats) (trades : list AS.Trade)
  : AS.Stats :=
  fold_left (AS.updateStats m) trades stats.

(** A fill of 11 ETH, above the default position limit of 10, with no
    PnL. *)
Definition large_fill : RM.ExecutionResult :=
  RM.mkExecutionResult None RM.buy 11 no_holdings 3400.

(** A fill of 0.1 ETH at 3400, and an order whose single part has been
    executed with it. *)
Definition first_fill : TW.TxResult := TW.mkTxResult 3400 0.1 0 21000.
Definition filled_order : TW.Order :=
  TW.mkOrder first_order [TW.mark_executed first_fill 1200 first_part]
    1 0.1 0 1000 TW.active None None.

(** [h'] is [h], or [h] with one more object finished. *)
Definition finished (h h' : list TW.Order) : Prop :=
  h' = h \/ exists r st e t, h' = alter (TW.finish st e t) r h.

(** The parts of an order object are worked through in order: the
    counter stays within the plan, every part carries its position as
    index, the parts before the counter are executed, the part at the
    counter is not, and the parts after it are pending. *)
Definition in_order (o : TW.Order) : Prop :=
  (TW.executedParts o <= length (TW.executionPlan o))%nat
  /\ forall i p, TW.executionPlan o !! i = Some p ->
       TW.partIndex p = i
       /\ ((i < TW.executedParts o)%nat -> TW.status p = TW.executed)
       /\ (i = TW.executedParts o -> TW.status p <> TW.executed)
       /\ ((TW.executedParts o < i)%nat -> TW.status p = TW.pending).

(** The executed parts and the executed size over all order objects. *)
Definition executed_count (h : list TW.Order) : nat :=
  sum_list (TW.executedParts <$> h).
Definition executed_volume (h : list TW.Order) : R :=
  sum_R (TW.order_executedSize <$> h).

(* ===================================================================== *)
(** * Part II: properties                                                *)
(* ===================================================================== *)

(** ** Real-number facts used below *)

Lemma Rltb_true (a b : R) : Rltb a b = true <-> a < b.
Proof. unfold Rltb. destruct (Rlt_dec a b); split; intros; try done; lra. Qed.

Lemma Rltb_false (a b : R) : Rltb a b = false <-> b <= a.
Proof. unfold Rltb. destruct (Rlt_dec a b); split; intros; try done; lra. Qed.

Lemma Rgtb_true (a b : R) : Rgtb a b = true <-> a > b.
Proof. unfold Rgtb. rewrite Rltb_true. lra. Qed.

Lemma Rgtb_false (a b : R) : Rgtb a b = false <-> a <= b.
Proof. unfold Rgtb. apply Rltb_false. Qed.

Lemma or_default_number (v d : R) : v <> 0 -> or_default (Some v) d = v.
Proof. intros Hv. unfold or_default. by destruct (Req_dec_T v 0). Qed.

Lemma or_default_same (v : R) : or_default (Some v) 0 = v.
Proof. unfold or_default. by destruct (Req_dec_T v 0) as [-> | ?]. Qed.

Lemma cosh_pos (x : R) : 0 < cosh x.
Proof.
  unfold cosh. pose proof (exp_pos x). pose proof (exp_pos (- x)). lra.
Qed.

Lemma tanh_zero : tanh 0 = 0.
Proof. unfold tanh. rewrite sinh_0. lra. Qed.

Lemma tanh_nonneg (x : R) : 0 <= x -> 0 <= tanh x.
Proof.
  intros Hx. unfold tanh. apply Rmult_le_pos.
  - destruct Hx as [Hx | <-].
    + left. rewrite <- sinh_0. by apply sinh_lt.
    + rewrite sinh_0. lra.
  - left. apply Rinv_0_lt_compat, cosh_pos.
Qed.


Lemma ln_1p_nonneg (x : R) : 0 <= x -> 0 <= ln (1 + x).
Proof.
  intros [Hx | <-].
  - left. rewrite <- ln_1. apply ln_increasing; lra.
  - replace (1 + 0) with 1 by lra. rewrite ln_1. lra.
Qed.

Lemma ln_1p_pos (x : R) : 0 < x -> 0 < ln (1 + x).
Proof. intros Hx. rewrite <- ln_1. apply ln_increasing; lra. Qed.

(** [x / (1 + x) <= ln (1 + x) <= x], from [1 + y <= exp y]. *)
Lemma ln_1p_upper (x : R) : 0 <= x -> ln (1 + x) <= x.
Proof.
  intros Hx. pose proof (exp_ineq1_le x) as H.
  destruct H as [H | H].
  - left. apply exp_lt_inv. rewrite exp_ln; lra.
  - right. rewrite H. apply ln_exp.
Qed.

Lemma ln_1p_lower (x : R) : 0 <= x -> x / (1 + x) <= ln (1 + x).
Proof.
  intros Hx.
  pose proof (exp_ineq1_le (- (x / (1 + x)))) as H.
  assert (Hq : 1 + - (x / (1 + x)) = / (1 + x)) by (field; lra).
  rewrite Hq in H.
  assert (Hpos : 0 < / (1 + x)) by (apply Rinv_0_lt_compat; lra).
  assert (He : exp (x / (1 + x)) <= 1 + x).
  { pose proof (exp_pos (x / (1 + x))) as Ha.
    assert (Hab : exp (x / (1 + x)) * exp (- (x / (1 + x))) = 1)
      by (rewrite <- exp_plus, Rplus_opp_r; apply exp_0).
    assert (Hc : / (1 + x) * (1 + x) = 1) by (field; lra).
    assert (Hle : exp (x / (1 + x)) * / (1 + x)
                  <= exp (x / (1 + x)) * exp (- (x / (1 + x))))
      by (apply Rmult_le_compat_l; lra).
    nra. }
  destruct He as [He | He].
  - left. apply exp_lt_inv. rewrite exp_ln; lra.
  - right. transitivity (ln (exp (x / (1 + x)))); [by rewrite ln_exp | by f_equal].
Qed.

(* --------------------------------------------------------------------- *)
(** ** Pricing: the Avellaneda-Stoikov model                             *)
(* --------------------------------------------------------------------- *)

Lemma default_model_parameters :
  AS.γ default_model = 0.1 /\ AS.σ default_model = 0.2 /\
  AS.T default_model = 1 /\ AS.k default_model = 1.5 /\
  AS.q_target default_model = 0.
Proof. cbn. repeat split; lra. Qed.

Section Pricing.
Variable m : AS.Model.
Variables mid q t : R.

Let quote := AS.calculateOptimalQuotes m mid q t.

(** The spread that [calculateOptimalSpread] returns, written out: the
    doubling turns the liquidity term [(2/γ)·ln(1+γ/k)] of the half
    spread into [(4/γ)·ln(1+γ/k)]. *)
Lemma calculateOptimalSpread_closed_form :
  AS.γ m <> 0 ->
  AS.calculateOptimalSpread m t
  = AS.γ m * AS.σ m ^ 2 * (AS.T m - t)
    + (4 / AS.γ m) * ln (1 + AS.γ m / AS.k m).
Proof. intros Hg. unfold AS.calculateOptimalSpread. field. exact Hg. Qed.

Lemma quote_fields :
  AS.reservationPrice quote = AS.calculateReservationPrice m mid q t /\
  AS.spread quote = AS.calculateOptimalSpread m t /\
  AS.inventoryAdjustment quote = AS.calculateInventoryAdjustment m q /\
  AS.bidPrice quote
  = Rmax (AS.calculateReservationPrice m mid q t
          - AS.calculateOptimalSpread m t / 2
          - AS.calculateInventoryAdjustment m q) (mid * 0.95) /\
  AS.askPrice quote
  = Rmin (AS.calculateReservationPrice m mid q t
          + AS.calculateOptimalSpread m t / 2
          + AS.calculateInventoryAdjustment m q) (mid * 1.05).
Proof. repeat split. Qed.

(** With positive γ and k and time left, the spread is not negative. *)
Lemma calculateOptimalSpread_nonneg :
  0 < AS.γ m -> 0 < AS.k m -> t <= AS.T m ->
  0 <= AS.calculateOptimalSpread m t.
Proof.
  intros Hg Hk Ht. unfold AS.calculateOptimalSpread.
  assert (0 <= ln (1 + AS.γ m / AS.k m)).
  { apply ln_1p_nonneg. left. by apply Rdiv_lt_0_compat. }
  assert (0 <= 2 / AS.γ m) by (left; apply Rdiv_lt_0_compat; lra).
  assert (0 <= AS.σ m ^ 2) by apply pow2_ge_0.
  assert (0 <= AS.γ m * AS.σ m ^ 2 * (AS.T m - t)).
  { apply Rmult_le_pos; [apply Rmult_le_pos |]; lra. }
  assert (0 <= 2 / AS.γ m * ln (1 + AS.γ m / AS.k m)) by (apply Rmult_le_pos; lra).
  lra.
Qed.

(** At or above the target inventory the adjustment is not negative. *)
Lemma calculateInventoryAdjustment_nonneg :
  0 <= AS.σ m -> AS.q_target m <= q ->
  0 <= AS.calculateInventoryAdjustment m q.
Proof.
  intros Hs Hq. unfold AS.calculateInventoryAdjustment.
  apply Rmult_le_pos; [apply tanh_nonneg; lra | lra].
Qed.

(** The returned bid and ask enclose the reservation price exactly when
    half the spread plus the adjustment is not negative and the
    reservation price lies within 5% of the mid price. *)
Lemma ordered_quote_iff :
  AS.bidPrice quote <= AS.reservationPrice quote <= AS.askPrice quote
  <-> 0 <= AS.spread quote / 2 + AS.inventoryAdjustment quote
      /\ mid * 0.95 <= AS.reservationPrice quote <= mid * 1.05.
Proof.
  destruct quote_fields as (-> & -> & -> & -> & ->).
  set (r := AS.calculateReservationPrice m mid q t).
  set (h := AS.calculateOptimalSpread m t / 2).
  set (a := AS.calculateInventoryAdjustment m q).
  split.
  - intros [Hb Ha].
    pose proof (Rmax_l (r - h - a) (mid * 0.95)).
    pose proof (Rmax_r (r - h - a) (mid * 0.95)).
    pose proof (Rmin_l (r + h + a) (mid * 1.05)).
    pose proof (Rmin_r (r + h + a) (mid * 1.05)).
    lra.
  - intros [Hh [Hlo Hhi]]. split.
    + apply Rmax_lub; lra.
    + apply Rmin_glb; lra.
Qed.
End Pricing.

(** *** C4: the reservation price *)

(** C4.  For every mid price, inventory [q] and time [t] with
    [0 <= t <= T], the reservation price computed by
    [calculateReservationPrice], which is the [reservationPrice] of the
    quote, is [S - (γ·σ²·(T-t)·q)/2]; and when [q = 0] and the target
    inventory is [0], the inventory adjustment is [0] and the reservation
    price is the mid price itself. *)
Theorem C4_reservation_price (m : AS.Model) (mid q t : R) :
  0 <= t <= AS.T m ->
  let quote := AS.calculateOptimalQuotes m mid q t in
  AS.calculateReservationPrice m mid q t
  = mid - (AS.γ m * AS.σ m ^ 2 * (AS.T m - t) * q) / 2
  /\ AS.reservationPrice quote
     = mid - (AS.γ m * AS.σ m ^ 2 * (AS.T m - t) * q) / 2
  /\ (q = 0 -> AS.q_target m = 0 ->
      AS.calculateInventoryAdjustment m q = 0
      /\ AS.inventoryAdjustment quote = 0
      /\ AS.reservationPrice quote = mid).
Proof.
  intros _ quote. split; [reflexivity | split; [reflexivity |]].
  intros -> Htarget.
  assert (Hadj : AS.calculateInventoryAdjustment m 0 = 0).
  { unfold AS.calculateInventoryAdjustment. rewrite Htarget.
    replace ((0 - 0) * 2) with 0 by lra. rewrite tanh_zero. lra. }
  split; [exact Hadj | split; [exact Hadj |]].
  subst quote. cbn. unfold AS.calculateReservationPrice. lra.
Qed.

Lemma C4_reservation_price_witness :
  AS.reservationPrice (AS.calculateOptimalQuotes default_model 3400 0 0) = 3400
  /\ AS.inventoryAdjustment (AS.calculateOptimalQuotes default_model 3400 0 0) = 0.
Proof.
  assert (Ht : 0 <= 0 <= AS.T default_model) by (cbn; lra).
  destruct (C4_reservation_price default_model 3400 0 0 Ht) as (_ & _ & H).
  destruct (H eq_refl eq_refl) as (_ & Hadj & Hr).
  split; [exact Hr | exact Hadj].
Defined.

(** *** C3: the time range *)

(** The claim of C3 fails: with the default model ([T = 1]) the call at
    [t = 2 > T] returns a quote and throws nothing, whereas the
    specification's [computeQuote] fails there with [InvalidTimeRange]. *)
Lemma C3_counterexample :
  2 > AS.T default_model
  /\ AS.call_calculateOptimalQuotes default_model 3400 0 2
     = AS.Returns (AS.calculateOptimalQuotes default_model 3400 0 2)
  /\ AS.computeQuote_spec default_model 3400 0 2 = AS.Throws AS.InvalidTimeRange
  /\ AS.call_calculateOptimalQuotes default_model 3400 0 2
     <> AS.computeQuote_spec default_model 3400 0 2.
Proof.
  assert (Hspec : AS.computeQuote_spec default_model 3400 0 2
                  = AS.Throws AS.InvalidTimeRange).
  { unfold AS.computeQuote_spec.
    replace (Rgtb 2 (AS.T default_model)) with true.
    - by rewrite orb_true_r.
    - symmetry. apply Rgtb_true. cbn. lra. }
  split; [cbn; lra | split; [reflexivity | split; [exact Hspec |]]].
  rewrite Hspec. discriminate.
Qed.

(** C3, amended.  [calculateOptimalQuotes] has no precondition on [t]: on
    every [t], also [t < 0] and [t > T], it returns a quote, computed
    from the time to maturity [T - t] whatever its sign, where the
    specification's [computeQuote] fails with [InvalidTimeRange].  Inside
    the range [0 <= t <= T] the specified [computeQuote] returns a quote
    too, and the code's quote has its reservation price and its inventory
    adjustment.  Past the horizon, with positive γ, σ and inventory, the
    reservation price of the code's quote lies above the mid price. *)
Theorem C3_no_time_range_check (m : AS.Model) (mid q t : R) :
  let quote := AS.calculateOptimalQuotes m mid q t in
  AS.call_calculateOptimalQuotes m mid q t = AS.Returns quote
  /\ AS.reservationPrice quote
     = mid - (AS.γ m * AS.σ m ^ 2 * (AS.T m - t) * q) / 2
  /\ (t < 0 \/ AS.T m < t ->
      AS.computeQuote_spec m mid q t = AS.Throws AS.InvalidTimeRange)
  /\ (0 <= t <= AS.T m ->
      exists specified,
        AS.computeQuote_spec m mid q t = AS.Returns specified
        /\ AS.reservationPrice quote = AS.reservationPrice specified
        /\ AS.inventoryAdjustment quote = AS.inventoryAdjustment specified)
  /\ (AS.T m < t -> 0 < AS.γ m -> 0 < AS.σ m -> 0 < q ->
      mid < AS.reservationPrice quote).
Proof.
  intros quote.
  destruct (quote_fields m mid q t) as (Hr & _ & Hadj & _). fold quote in Hr, Hadj.
  split; [reflexivity |].
  split; [by rewrite Hr |].
  split; [| split].
  - intros Hout. unfold AS.computeQuote_spec.
    destruct Hout as [Hneg | Hpast].
    + by rewrite (proj2 (Rltb_true t 0) Hneg).
    + rewrite (proj2 (Rgtb_true t (AS.T m))) by lra. by rewrite orb_true_r.
  - intros [H0 HT]. unfold AS.computeQuote_spec.
    rewrite (proj2 (Rltb_false t 0)) by lra.
    rewrite (proj2 (Rgtb_false t (AS.T m))) by lra.
    cbn [orb]. eexists. split; [reflexivity |].
    cbn [AS.reservationPrice AS.inventoryAdjustment].
    rewrite Hr, Hadj. unfold AS.calculateInventoryAdjustment.
    split; [reflexivity |]. f_equal. f_equal. lra.
  - intros HT Hg Hs Hq. rewrite Hr. unfold AS.calculateReservationPrice.
    assert (0 < AS.σ m ^ 2) by (apply pow_lt; lra).
    assert (0 < AS.γ m * AS.σ m ^ 2) by (apply Rmult_lt_0_compat; lra).
    assert (0 < AS.γ m * AS.σ m ^ 2 * (t - AS.T m)) by (apply Rmult_lt_0_compat; lra).
    assert (0 < AS.γ m * AS.σ m ^ 2 * (t - AS.T m) * q) by (apply Rmult_lt_0_compat; lra).
    lra.
Qed.

Lemma C3_no_time_range_check_witness :
  (exists specified,
     AS.computeQuote_spec default_model 3400 1 0.5 = AS.Returns specified
     /\ AS.reservationPrice (AS.calculateOptimalQuotes default_model 3400 1 0.5)
        = AS.reservationPrice specified)
  /\ AS.computeQuote_spec default_model 3400 1 2 = AS.Throws AS.InvalidTimeRange
  /\ 3400 < AS.reservationPrice (AS.calculateOptimalQuotes default_model 3400 1 2).
Proof.
  split; [| split].
  - destruct (C3_no_time_range_check default_model 3400 1 0.5) as (_ & _ & _ & H & _).
    destruct H as (specified & Hspec & Hr & _); [cbn; lra |].
    exists specified. split; [exact Hspec | exact Hr].
  - destruct (C3_no_time_range_check default_model 3400 1 2) as (_ & _ & H & _).
    apply H. right. cbn. lra.
  - destruct (C3_no_time_range_check default_model 3400 1 2) as (_ & _ & _ & _ & H).
    apply H; cbn; lra.
Defined.

(** *** C2: bid, reservation price and ask *)

(** The claim of C2 fails: with the default parameters, mid price 1 and an
    inventory of 100 the reservation price is 0.8, below the lower safety
    bound 0.95 that the returned bid respects, so the bid lies above the
    reservation price. *)
Lemma C2_counterexample :
  let quote := AS.calculateOptimalQuotes default_model 1 100 0 in
  (0 < AS.γ default_model /\ 0 < AS.k default_model /\ 0 <= AS.σ default_model
   /\ 0 <= 0 <= AS.T default_model /\ 0 < 1)
  /\ AS.reservationPrice quote = 0.8
  /\ 0.95 <= AS.bidPrice quote
  /\ ~ (AS.bidPrice quote <= AS.reservationPrice quote <= AS.askPrice quote).
Proof.
  intros quote.
  assert (Hr : AS.reservationPrice quote = 0.8).
  { subst quote. cbn. unfold AS.calculateReservationPrice. cbn. lra. }
  assert (Hb : 0.95 <= AS.bidPrice quote).
  { subst quote. cbn. etransitivity; [| apply Rmax_r]. lra. }
  split; [cbn; lra | split; [exact Hr | split; [exact Hb |]]].
  rewrite Hr. lra.
Qed.

(** C2, amended.  For γ > 0, k > 0, σ >= 0, T >= t >= 0 and S > 0 the
    returned quote satisfies [bidPrice <= reservationPrice <= askPrice]
    exactly when half the spread plus the inventory adjustment is not
    negative and the reservation price lies between the safety bounds
    [0.95·S] and [1.05·S], which are taken around the mid price and not
    around the reservation price.  Both hold, and so does the ordering,
    whenever the inventory is at or above its target and the inventory
    penalty [γ·σ²·(T-t)·q/2] is at most 5% of the mid price in size. *)
Theorem C2_bid_reservation_ask (m : AS.Model) (mid q t : R) :
  0 < AS.γ m -> 0 < AS.k m -> 0 <= AS.σ m -> 0 <= t <= AS.T m -> 0 < mid ->
  let quote := AS.calculateOptimalQuotes m mid q t in
  (AS.bidPrice quote <= AS.reservationPrice quote <= AS.askPrice quote
   <-> 0 <= AS.spread quote / 2 + AS.inventoryAdjustment quote
       /\ mid * 0.95 <= AS.reservationPrice quote <= mid * 1.05)
  /\ (AS.q_target m <= q ->
      - (0.05 * mid) <= (AS.γ m * AS.σ m ^ 2 * (AS.T m - t) * q) / 2 <= 0.05 * mid ->
      AS.bidPrice quote <= AS.reservationPrice quote <= AS.askPrice quote).
Proof.
  intros Hg Hk Hs [Ht0 HtT] Hmid quote.
  split; [apply ordered_quote_iff |].
  intros Hq Hpen. apply ordered_quote_iff.
  destruct (quote_fields m mid q t) as (-> & -> & -> & _).
  pose proof (calculateOptimalSpread_nonneg m t Hg Hk HtT).
  pose proof (calculateInventoryAdjustment_nonneg m q Hs Hq).
  unfold AS.calculateReservationPrice.
  repeat split; lra.
Qed.

Lemma C2_bid_reservation_ask_witness :
  let quote := AS.calculateOptimalQuotes default_model 3400 0 0 in
  AS.bidPrice quote <= AS.reservationPrice quote <= AS.askPrice quote.
Proof.
  intros quote.
  destruct (C2_bid_reservation_ask default_model 3400 0 0) as [_ H];
    [cbn; lra | cbn; lra | cbn; lra | cbn; lra | lra |].
  apply H; cbn; lra.
Defined.

(** *** C1: the optimal spread *)

(** The standalone calculator, the sibling of the model: whenever the time
    remaining is not zero, the [optimalSpread] of its quote is
    [γ·σ²·τ + (2/γ)·ln(1 + γ/1.5)], the formula of the specification with
    [k = 1.5]. *)
Lemma Calculator_optimalSpread (c : Calculator.Calc) (price : R)
    (inv : Calculator.Inventory) (τ : R) :
  τ <> 0 ->
  Calculator.optimalSpread (Calculator.calculateOptimalQuotes c price inv (Some τ))
  = Calculator.gamma c * Calculator.sigma c ^ 2 * τ
    + (2 / Calculator.gamma c) * ln (1 + Calculator.gamma c / 1.5).
Proof.
  intros Hτ. cbn. unfold Calculator.calculateOptimalSpread.
  by rewrite or_default_number.
Qed.

(** C1, on the code.  [new AvellanedaStoikovModel()] has γ = 0.1, σ = 0.2,
    T = 1, k = 1.5; at S = 3400, q = 0, t = 0 the [spread] of its quote is
    [0.004 + 40·ln(1 + 0.1/1.5)], twice the liquidity term of the claimed
    [γ·σ²·(T-t) + (2/γ)·ln(1 + γ/k)]; it exceeds 2.5 (claimed: about
    1.294), the bid is below 3398.75 (claimed: about 3399.353) and the ask
    is above 3401.25 (claimed: about 3400.647). *)
Theorem C1_spread_of_default_model :
  let m := default_model in
  let quote := AS.calculateOptimalQuotes m 3400 0 0 in
  AS.spread quote = 0.004 + 40 * ln (1 + 0.1 / 1.5)
  /\ AS.spread quote
     <> AS.γ m * AS.σ m ^ 2 * (AS.T m - 0) + (2 / AS.γ m) * ln (1 + AS.γ m / AS.k m)
  /\ 2.5 < AS.spread quote
  /\ AS.bidPrice quote < 3398.75
  /\ 3401.25 < AS.askPrice quote.
Proof.
  intros m quote. subst quote.
  destruct default_model_parameters as (Hγ & Hσ & HT & Hk & Hqt). fold m in Hγ, Hσ, HT, Hk, Hqt.
  destruct (quote_fields m 3400 0 0) as (_ & -> & _ & -> & ->).
  assert (Hsp : AS.calculateOptimalSpread m 0 = 0.004 + 40 * ln (1 + 0.1 / 1.5)).
  { unfold AS.calculateOptimalSpread. rewrite Hγ, Hσ, HT, Hk. lra. }
  assert (Hln : 0.0625 <= ln (1 + 0.1 / 1.5)).
  { pose proof (ln_1p_lower (0.1 / 1.5)) as H.
    replace (0.1 / 1.5 / (1 + 0.1 / 1.5)) with 0.0625 in H by lra.
    apply H. lra. }
  assert (Hadj : AS.calculateInventoryAdjustment m 0 = 0).
  { unfold AS.calculateInventoryAdjustment. rewrite Hqt.
    replace ((0 - 0) * 2) with 0 by lra. rewrite tanh_zero. lra. }
  assert (Hres : AS.calculateReservationPrice m 3400 0 0 = 3400).
  { unfold AS.calculateReservationPrice. lra. }
  rewrite Hadj, Hres.
  split; [exact Hsp | split; [| split; [lra | split]]].
  - rewrite Hsp, Hγ, Hσ, HT, Hk. lra.
  - apply Rmax_lub_lt; lra.
  - apply Rmin_glb_lt; lra.
Qed.

(** *** The calculator on the scenario of the specification

    Bounds on [ln (16/15)] from [1 + y <= exp y]: the exponential of a
    small argument is bounded below by [1 + y], and squaring it repeatedly
    (rounding down on the way) reaches [exp (-0.0645)] and [exp 0.06456]. *)

Lemma exp_double_lower (c c2 y : R) :
  0 <= c -> c <= exp y -> c2 <= c * c -> c2 <= exp (y + y).
Proof. intros Hc Hy Hc2. rewrite exp_plus. nra. Qed.

Ltac exp_double c half H :=
  match goal with
  | |- _ <= exp ?y =>
      replace y with (half + half) by lra;
      apply (exp_double_lower c); [lra | exact H | lra]
  end.

Lemma exp_neg_0645_lower : 0.93750562251404 <= exp (- 0.0645).
Proof.
  assert (H0 : 0.9989921875 <= exp (- 0.0645 / 64))
    by (etransitivity; [| apply exp_ineq1_le]; lra).
  assert (H1 : 0.99798539068603 <= exp (- 0.0645 / 32))
    by exp_double 0.9989921875 (- 0.0645 / 64) H0.
  assert (H2 : 0.99597484002274 <= exp (- 0.0645 / 16))
    by exp_double 0.99798539068603 (- 0.0645 / 32) H1.
  assert (H3 : 0.99196588195832 <= exp (- 0.0645 / 8))
    by exp_double 0.99597484002274 (- 0.0645 / 16) H2.
  assert (H4 : 0.98399631096934 <= exp (- 0.0645 / 4))
    by exp_double 0.99196588195832 (- 0.0645 / 8) H3.
  assert (H5 : 0.96824874000127 <= exp (- 0.0645 / 2))
    by exp_double 0.98399631096934 (- 0.0645 / 4) H4.
  exp_double 0.96824874000127 (- 0.0645 / 2) H5.
Qed.

Lemma exp_06456_lower : 1.06667221666458 <= exp 0.06456.
Proof.
  assert (H0 : 1.000504375 <= exp (0.06456 / 128))
    by (etransitivity; [| apply exp_ineq1_le]; lra).
  assert (H1 : 1.00100900439414 <= exp (0.06456 / 64))
    by exp_double 1.000504375 (0.06456 / 128) H0.
  assert (H2 : 1.00201902687814 <= exp (0.06456 / 32))
    by exp_double 1.00100900439414 (0.06456 / 64) H1.
  assert (H3 : 1.00404213022581 <= exp (0.06456 / 16))
    by exp_double 1.00201902687814 (0.06456 / 32) H2.
  assert (H4 : 1.00810059926838 <= exp (0.06456 / 8))
    by exp_double 1.00404213022581 (0.06456 / 16) H3.
  assert (H5 : 1.01626681824526 <= exp (0.06456 / 4))
    by exp_double 1.00810059926838 (0.06456 / 8) H4.
  assert (H6 : 1.03279824586634 <= exp (0.06456 / 2))
    by exp_double 1.01626681824526 (0.06456 / 4) H5.
  exp_double 1.03279824586634 (0.06456 / 2) H6.
Qed.

Lemma ln_16_15_bounds : 0.0645 < ln (1 + 0.1 / 1.5) < 0.06456.
Proof.
  split.
  - apply exp_lt_inv. rewrite exp_ln by lra.
    pose proof exp_neg_0645_lower as Hlow.
    pose proof (exp_pos 0.0645) as Hpos.
    assert (Hinv : exp 0.0645 * exp (- 0.0645) = 1)
      by (rewrite <- exp_plus; replace (0.0645 + - 0.0645) with 0 by lra; apply exp_0).
    nra.
  - apply exp_lt_inv. rewrite exp_ln by lra.
    pose proof exp_06456_lower. lra.
Qed.

(** The calculator with the [config] of its file, at S = 3400, no
    inventory imbalance and the whole horizon remaining: the reservation
    price is 3400, the spread about 1.2948, the bid about 3399.3526 and the
    ask about 3400.6474, the figures of the specification's scenario. *)
Lemma Calculator_scenario :
  let calc := Calculator.constructor Calculator.config in
  let inv := Calculator.mkInventory 5 10000 5 in
  let quotes := Calculator.calculateOptimalQuotes calc 3400 inv (Some 1) in
  Calculator.reservationPrice quotes = 3400
  /\ 1.294 < Calculator.optimalSpread quotes < 1.2952
  /\ 3399.3524 < Calculator.bidPrice quotes < 3399.353
  /\ 3400.647 < Calculator.askPrice quotes < 3400.6476.
Proof.
  intros calc inv quotes.
  assert (Hs : Calculator.optimalSpread quotes = 0.004 + 20 * ln (1 + 0.1 / 1.5)).
  { subst quotes. rewrite Calculator_optimalSpread by lra.
    change (Calculator.gamma calc) with 0.1.
    change (Calculator.sigma calc) with 0.2. lra. }
  assert (Hr : Calculator.reservationPrice quotes = 3400).
  { subst quotes. cbn -[or_default]. unfold Calculator.calculateReservationPrice.
    rewrite or_default_number by lra. cbn. lra. }
  assert (Hb : Calculator.bidPrice quotes
               = Calculator.reservationPrice quotes - Calculator.optimalSpread quotes / 2)
    by reflexivity.
  assert (Ha : Calculator.askPrice quotes
               = Calculator.reservationPrice quotes + Calculator.optimalSpread quotes / 2)
    by reflexivity.
  pose proof ln_16_15_bounds.
  rewrite Hb, Ha, Hr, Hs. repeat split; lra.
Qed.

(* --------------------------------------------------------------------- *)
(** ** The volatility estimator                                          *)
(* --------------------------------------------------------------------- *)

Section Volatility.
Implicit Types (history rest : list AS.PricePoint) (returns : list R).

Lemma returns_from_length rest : forall prev,
  length (AS.returns_from prev rest) = length rest.
Proof. induction rest as [| p rest IH]; intros prev; cbn; [done | by rewrite IH]. Qed.

Lemma log_returns_length history :
  length (AS.log_returns history) = (length history - 1)%nat.
Proof.
  destruct history as [| p0 rest]; cbn; [done |].
  rewrite returns_from_length. lia.
Qed.

(** Entry [j] of the array [returns] is the log-return of sample [j+1]. *)
Lemma returns_from_nth rest : forall p0 j,
  (j < length rest)%nat ->
  nth j (AS.returns_from (AS.price p0) rest) 0
  = AS.log_return_spec (p0 :: rest) (S j).
Proof.
  induction rest as [| p1 rest IH]; intros p0 j Hj; cbn in Hj; [lia |].
  destruct j as [| j].
  - reflexivity.
  - cbn [AS.returns_from nth]. rewrite IH by lia.
    unfold AS.log_return_spec. cbn. by rewrite !Nat.sub_0_r.
Qed.

Lemma log_returns_nth history j :
  (S j < length history)%nat ->
  nth j (AS.log_returns history) 0 = AS.log_return_spec history (S j).
Proof.
  destruct history as [| p0 rest]; cbn [length]; intros Hj; [lia |].
  apply returns_from_nth. lia.
Qed.

Lemma nth_tail returns j : nth j (tail returns) 0 = nth (S j) returns 0.
Proof. destruct returns; [by destruct j | done]. Qed.

(** The loop over [returns[1..]] walks the recurrence of the
    specification: started at [var_k], it ends at [var_(k + length)]. *)
Lemma fold_ewma_step (r : nat -> R) returns : forall k v,
  v = AS.ewma_variance_spec r k ->
  (forall j, (j < length returns)%nat -> nth j returns 0 = r (k + 2 + j)%nat) ->
  fold_left AS.ewma_step returns v
  = AS.ewma_variance_spec r (k + length returns).
Proof.
  induction returns as [| a returns IH]; intros k v Hv Hnth.
  - cbn. by rewrite Nat.add_0_r.
  - cbn [fold_left length].
    replace (k + S (length returns))%nat with (S k + length returns)%nat by lia.
    apply IH.
    + pose proof (Hnth 0%nat ltac:(cbn; lia)) as Ha. cbn in Ha.
      rewrite Nat.add_0_r in Ha.
      replace (k + 2)%nat with (S (S k)) in Ha by lia.
      cbn [AS.ewma_variance_spec]. unfold AS.ewma_step, AS.lambda.
      rewrite Hv, Ha. lra.
    + intros j Hj. specialize (Hnth (S j) ltac:(cbn; lia)). cbn in Hnth.
      rewrite Hnth. f_equal. lia.
Qed.

Lemma ewma_loop_refines_spec history :
  (2 <= length history)%nat ->
  AS.ewma_loop (AS.log_returns history)
  = AS.ewma_variance_spec (AS.log_return_spec history) (length history - 2).
Proof.
  intros Hlen. unfold AS.ewma_loop.
  rewrite (fold_ewma_step (AS.log_return_spec history) _ 0).
  - f_equal. rewrite length_tl, log_returns_length. lia.
  - cbn [AS.ewma_variance_spec]. by rewrite log_returns_nth by lia.
  - intros j Hj. rewrite length_tl, log_returns_length in Hj.
    rewrite nth_tail, log_returns_nth by lia. f_equal.
Qed.
End Volatility.

Lemma flat_history_model_state :
  AS.σ flat_history_model = 0.01
  /\ AS.priceHistory flat_history_model
     = [AS.mkPricePoint 100 0; AS.mkPricePoint 100 5000].
Proof.
  unfold flat_history_model, AS.updateParameters. cbn -[or_default].
  split; [| reflexivity]. apply or_default_number. lra.
Qed.

(** The claim of C9 fails in its last clause: a model with σ = 0.01 whose
    history holds the same price twice gets the estimate 0.009, below the
    band [1%, 100%]; nothing clamps it. *)
Lemma C9_counterexample :
  length (AS.priceHistory flat_history_model) = 2%nat
  /\ AS.estimateVolatility flat_history_model = 0.009
  /\ ~ (0.01 <= AS.estimateVolatility flat_history_model <= 1).
Proof.
  destruct flat_history_model_state as [Hσ Hh].
  assert (H : AS.estimateVolatility flat_history_model = 0.009).
  { unfold AS.estimateVolatility, AS.ewma_loop. rewrite Hh, Hσ. cbn.
    replace (100 / 100) with 1 by lra. rewrite ln_1.
    replace (0 * (0 * 1) * (365 * 24 * 60 * 60 / 5)) with 0 by lra.
    rewrite sqrt_0. lra. }
  split; [by rewrite Hh | split; [exact H |]]. rewrite H. lra.
Qed.

(** C9, amended.  On a history with fewer than 2 entries
    [estimateVolatility] returns the current σ unchanged; on a history with
    at least 2 entries it returns [0.9·σ + 0.1·σ_new], where
    [σ_new = sqrt (var · (365·24·60·60/5))] annualises the variance
    [var_n = 0.94·var_(n-1) + 0.06·r_n²] of the log-returns, started at the
    first squared return.  The value is returned as computed: no band
    [1%, 100%] is applied to it. *)
Theorem C9_estimateVolatility (m : AS.Model) :
  ((length (AS.priceHistory m) < 2)%nat -> AS.estimateVolatility m = AS.σ m)
  /\ ((2 <= length (AS.priceHistory m))%nat ->
      AS.estimateVolatility m
      = 0.9 * AS.σ m + 0.1 * AS.annualized_volatility_spec (AS.priceHistory m)).
Proof.
  split; intros Hlen; unfold AS.estimateVolatility.
  - apply Nat.ltb_lt in Hlen. by rewrite Hlen.
  - assert (Hge : (length (AS.priceHistory m) <? 2)%nat = false)
      by (apply Nat.ltb_ge; lia).
    rewrite Hge, ewma_loop_refines_spec by done.
    unfold AS.annualized_volatility_spec. lra.
Qed.

Lemma C9_estimateVolatility_witness :
  AS.estimateVolatility default_model = AS.σ default_model
  /\ AS.estimateVolatility flat_history_model
     = 0.9 * AS.σ flat_history_model
       + 0.1 * AS.annualized_volatility_spec (AS.priceHistory flat_history_model).
Proof.
  split.
  - apply (C9_estimateVolatility default_model). cbn. lia.
  - apply (C9_estimateVolatility flat_history_model).
    rewrite (proj2 flat_history_model_state). cbn. lia.
Defined.

(* --------------------------------------------------------------------- *)
(** ** The risk manager                                                  *)
(* --------------------------------------------------------------------- *)

Lemma Rleb_true (a b : R) : Rleb a b = true <-> a <= b.
Proof. unfold Rleb. destruct (Rle_dec a b); split; intros; try done; lra. Qed.

Lemma negb_Rleb (a b : R) : negb (Rleb a b) = Rltb b a.
Proof.
  unfold Rleb, Rltb.
  destruct (Rle_dec a b), (Rlt_dec b a); try done; lra.
Qed.

Lemma js_div_finite (num den : R) : den <> 0 -> js_div num den = Finite (num / den).
Proof. intros Hden. unfold js_div. by destruct (Req_dec_T den 0). Qed.

Lemma js_div_infinite (num : R) : 0 < num -> js_div num 0 = PlusInfinity.
Proof.
  intros Hnum. unfold js_div. destruct (Req_dec_T 0 0); [| done].
  by rewrite (proj2 (Rltb_true 0 num) Hnum).
Qed.

(** On a quotient that is not NaN, "not at most" is "greater". *)
Lemma Qleb_Qgtb (x : Quotient) (bound : R) :
  x <> NotANumber -> negb (Qleb x bound) = Qgtb x bound.
Proof. destruct x; cbn; try done. intros _. apply negb_Rleb. Qed.

Lemma slippage_not_nan (order : RM.Order) (md : RM.MarketData) :
  RM.slippage_is_number order md ->
  js_div (Rabs (RM.targetPrice order - RM.currentPrice md)) (RM.currentPrice md)
  <> NotANumber.
Proof.
  intros Hnum. unfold js_div.
  destruct (Req_dec_T (RM.currentPrice md) 0) as [Hz | _]; [| done].
  specialize (Hnum Hz). rewrite Hz, Rminus_0_r.
  rewrite (proj2 (Rltb_true 0 _)); [done |]. by apply Rabs_pos_lt.
Qed.

Section Validation.
Variable this : RM.State.
Variables (today : string) (now : R).
Variables (order : RM.Order) (inv : RM.Inventory) (md : RM.MarketData).

(** The daily reset touches the daily PnL and the reset date only. *)
Lemma resetDailyPnLIfNeeded_frame :
  let this1 := RM.resetDailyPnLIfNeeded today this in
  RM.maxDailyLoss this1 = RM.maxDailyLoss this
  /\ RM.maxPositionSize this1 = RM.maxPositionSize this
  /\ RM.maxOrderSize this1 = RM.maxOrderSize this
  /\ RM.maxSlippage this1 = RM.maxSlippage this
  /\ RM.maxDrawdown this1 = RM.maxDrawdown this
  /\ RM.currentPosition this1 = RM.currentPosition this
  /\ RM.peakValue this1 = RM.peakValue this
  /\ RM.emergencyStop this1 = RM.emergencyStop this
  /\ RM.tradingPaused this1 = RM.tradingPaused this.
Proof.
  unfold RM.resetDailyPnLIfNeeded. by case_bool_decide.
Qed.

Lemma resetDailyPnLIfNeeded_same_day :
  today = RM.lastResetDate this -> RM.resetDailyPnLIfNeeded today this = this.
Proof.
  intros Hd. unfold RM.resetDailyPnLIfNeeded. by case_bool_decide.
Qed.

Lemma resetDailyPnLIfNeeded_new_day :
  today <> RM.lastResetDate this ->
  RM.dailyPnL (RM.resetDailyPnLIfNeeded today this) = 0
  /\ RM.lastResetDate (RM.resetDailyPnLIfNeeded today this) = today.
Proof.
  intros Hd. unfold RM.resetDailyPnLIfNeeded. by case_bool_decide.
Qed.

(** The checks of the [try] block follow the constraints in the listed
    order, with the staleness test of the code, when the slippage is a
    number or an infinity. *)
Lemma validateOrder_checks_first_violation :
  RM.slippage_is_number order md ->
  match RM.first_violation RM.stale_code this now order inv md with
  | Some c => exists e, RM.validateOrder_checks this now order inv md = inl e
                        /\ RM.constraint_of e = c
  | None => RM.validateOrder_checks this now order inv md = inr true
  end.
Proof.
  intros Hnum.
  unfold RM.first_violation, RM.constraint_order, RM.validateOrder_checks,
    RM.validateMarketConditions, RM.validateSlippage, RM.stale_code.
  cbn [List.find RM.violated]. unfold Rgtb. rewrite !negb_Rleb.
  rewrite Qleb_Qgtb by (by apply slippage_not_nan).
  repeat match goal with
         | |- context [RM.throw_if ?c _] =>
             destruct c; cbn [RM.throw_if RM.seq_ RM.ok]; [eauto |]
         end.
  reflexivity.
Qed.
End Validation.

(** Deciding comparisons of concrete numbers. *)
Ltac decide_R :=
  repeat match goal with
    | |- context [Rltb ?a ?b] =>
        first [ rewrite (proj2 (Rltb_true a b)) by lra
              | rewrite (proj2 (Rltb_false a b)) by lra ]
    | |- context [Rabs ?x] =>
        first [ rewrite (Rabs_pos_eq x) by lra | rewrite (Rabs_left x) by lra ]
    end.

Lemma default_risk_limits :
  RM.maxDailyLoss default_risk = 1000 /\ RM.maxPositionSize default_risk = 10
  /\ RM.maxOrderSize default_risk = 1 /\ RM.maxSlippage default_risk = 0.005
  /\ RM.maxDrawdown default_risk = 0.1.
Proof. cbn. repeat split; lra. Qed.

(** The state after the small loss: the loss is booked, the peak value is
    the portfolio value 10000, and no circuit breaker has tripped. *)
Lemma losing_risk_state :
  losing_risk = RM.mkState 1000 10 1 0.005 0.1 (-50) 0 10000 monday false false.
Proof.
  unfold losing_risk, RM.updateRiskMetrics, RM.checkRiskLimits, RM.calculateDrawdown,
    RM.calculatePortfolioValue, Rgtb.
  cbn -[or_default]. rewrite or_default_number by lra. cbn.
  replace (Rltb 0 (0 * 3400 + 10000)) with true by (symmetry; apply Rltb_true; lra).
  cbn. destruct (Req_dec_T (0 * 3400 + 10000) 0) as [Hz | _]; [lra |].
  replace (Rltb (0 + -50) (- (1000))) with false by (symmetry; apply Rltb_false; lra).
  replace (Rltb 0.1 _) with false by (symmetry; apply Rltb_false; lra).
  replace (Rltb 10 _) with false.
  2:{ symmetry; apply Rltb_false. rewrite Rabs_pos_eq; lra. }
  unfold RM.set_dailyPnL, RM.set_currentPosition, RM.set_peakValue. cbn.
  f_equal; lra.
Qed.

Lemma reset_on_tuesday :
  RM.resetDailyPnLIfNeeded tuesday losing_risk
  = RM.set_lastResetDate tuesday (RM.set_dailyPnL 0 losing_risk).
Proof.
  rewrite losing_risk_state. unfold RM.resetDailyPnLIfNeeded. by case_bool_decide.
Qed.

Lemma reset_on_monday : RM.resetDailyPnLIfNeeded monday default_risk = default_risk.
Proof. by apply resetDailyPnLIfNeeded_same_day. Qed.

(** The claim of C5 fails in two places.  First, a rejected validation on
    a new day has already reset the daily PnL: the oversized order is
    rejected for its size and the daily PnL went from -50 to 0.  Second,
    market data exactly 30 s old passes the staleness check, which the
    specification words as "staleness < 30s". *)
Lemma C5_counterexample :
  let out := RM.validateOrder losing_risk tuesday 1000 oversized_order
               no_holdings calm_market in
  let out' := RM.validateOrder default_risk monday 30000 small_order
                no_holdings calm_market in
  (snd out = inl (RM.OrderSizeExceedsMaximum 1.5 1)
   /\ RM.dailyPnL losing_risk = -50 /\ RM.dailyPnL (fst out) = 0
   /\ ~ RM.validateOrder_meets RM.stale_spec losing_risk (fst out) (snd out)
          1000 oversized_order no_holdings calm_market)
  /\ (snd out' = inr true
      /\ ~ RM.validateOrder_meets RM.stale_spec default_risk (fst out') (snd out')
             30000 small_order no_holdings calm_market).
Proof.
  intros out out'.
  assert (Hres : snd out = inl (RM.OrderSizeExceedsMaximum 1.5 1)).
  { subst out. unfold RM.validateOrder.
    rewrite reset_on_tuesday, losing_risk_state. cbn.
    unfold RM.validateOrder_checks, Rgtb. cbn. by decide_R. }
  assert (Hpnl : RM.dailyPnL (fst out) = 0).
  { subst out. unfold RM.validateOrder. by rewrite reset_on_tuesday. }
  assert (Hbefore : RM.dailyPnL losing_risk = -50) by (by rewrite losing_risk_state).
  assert (Hres' : snd out' = inr true).
  { subst out'. unfold RM.validateOrder. rewrite reset_on_monday. cbn [snd].
    unfold RM.validateOrder_checks, RM.validateMarketConditions,
      RM.validateSlippage, RM.calculateNewPosition, RM.estimateOrderPnL, Rgtb.
    rewrite or_default_same, js_div_finite by (cbn; lra). cbn.
    replace (3400 - 3400) with 0 by lra. rewrite Rabs_R0.
    unfold Rgtb. by decide_R. }
  split; [split; [exact Hres | split; [exact Hbefore | split; [exact Hpnl |]]] | split; [exact Hres' |]].
  - assert (Hfv : RM.first_violation RM.stale_spec losing_risk 1000
                    oversized_order no_holdings calm_market
                  = Some RM.OrderSizeLimit).
    { rewrite losing_risk_state. unfold RM.first_violation. cbn.
      rewrite negb_Rleb. by decide_R. }
    unfold RM.validateOrder_meets. rewrite Hfv. intros [_ Heq].
    rewrite Heq in Hpnl. lra.
  - assert (Hfv : RM.first_violation RM.stale_spec default_risk 30000
                    small_order no_holdings calm_market
                  = Some RM.MarketDataStaleness).
    { unfold RM.first_violation, RM.stale_spec, RM.constraint_order.
      cbn [List.find RM.violated].
      unfold RM.calculateNewPosition, RM.estimateOrderPnL.
      rewrite or_default_same, js_div_finite by (cbn; lra).
      cbn. rewrite !negb_Rleb.
      replace (3400 - 3400) with 0 by lra. rewrite Rabs_R0.
      by decide_R. }
    unfold RM.validateOrder_meets. rewrite Hfv, Hres'.
    intros [[e [He _]] _]. discriminate.
Qed.

(** C5, amended.  [validateOrder] first applies the daily reset (on a new
    calendar day the daily PnL becomes 0 and the reset date today; on the
    same day nothing changes) and then evaluates its constraints on that
    state in the order: trading allowed, order size <= maxOrderSize,
    resulting position <= maxPositionSize, projected daily PnL >=
    -maxDailyLoss, bid/ask spread <= 1%, market-data age <= 30 s, no flash
    crash (24h change < -20%), expected slippage <= maxSlippage.  The
    slippage is |targetPrice - currentPrice| / currentPrice: at a current
    price of 0 it is infinite for every other target price and violates
    the limit; the case of both prices 0, where it is not a number, is
    left open.  [validateOrder] fails with the error naming the first
    violated constraint, and apart from the daily reset it changes no
    risk state, whether it fails or not: limits, position, peak value and
    circuit breakers are untouched, and on the same day the whole state
    is.  In particular, with maxOrderSize = 1 and trading allowed, a
    totalSize of 1.5 is rejected for its size, the position is unchanged,
    and the daily PnL is unchanged on the same day. *)
Theorem C5_validateOrder (this : RM.State) (today : string) (now : R)
    (order : RM.Order) (inv : RM.Inventory) (md : RM.MarketData) :
  let after := fst (RM.validateOrder this today now order inv md) in
  let result := snd (RM.validateOrder this today now order inv md) in
  after = RM.resetDailyPnLIfNeeded today this
  /\ (RM.currentPosition after = RM.currentPosition this
      /\ RM.peakValue after = RM.peakValue this
      /\ RM.emergencyStop after = RM.emergencyStop this
      /\ RM.tradingPaused after = RM.tradingPaused this
      /\ RM.maxOrderSize after = RM.maxOrderSize this
      /\ RM.maxPositionSize after = RM.maxPositionSize this
      /\ RM.maxDailyLoss after = RM.maxDailyLoss this
      /\ RM.maxSlippage after = RM.maxSlippage this)
  /\ (RM.slippage_is_number order md ->
      match RM.first_violation RM.stale_code after now order inv md with
      | Some c => exists e, result = inl e /\ RM.constraint_of e = c
      | None => result = inr true
      end)
  /\ (RM.currentPrice md = 0 -> RM.targetPrice order <> 0 ->
      RM.violated RM.stale_code after now order inv md RM.ExpectedSlippageLimit = true
      /\ RM.validateSlippage after order md
         = inl (RM.SlippageExceedsMaximum PlusInfinity (RM.maxSlippage this)))
  /\ (today = RM.lastResetDate this ->
      after = this
      /\ (RM.slippage_is_number order md ->
          RM.validateOrder_meets RM.stale_code this after result now order inv md))
  /\ (RM.isTradingAllowed this = true -> RM.maxOrderSize this = 1 ->
      RM.totalSize order = 1.5 ->
      result = inl (RM.OrderSizeExceedsMaximum 1.5 1)
      /\ RM.currentPosition after = RM.currentPosition this
      /\ (today = RM.lastResetDate this -> RM.dailyPnL after = RM.dailyPnL this)).
Proof.
  intros after result. subst after result. cbn [fst snd RM.validateOrder].
  pose proof (resetDailyPnLIfNeeded_frame this today)
    as (HmaxL & HmaxP & HmaxO & HmaxS & _ & Hpos & Hpeak & Hes & Htp).
  pose proof (validateOrder_checks_first_violation
                (RM.resetDailyPnLIfNeeded today this) now order inv md) as Hfirst.
  split; [reflexivity |].
  split; [by repeat split |].
  split; [exact Hfirst |].
  split; [| split].
  - intros Hzero Htarget.
    assert (Hinf : js_div (Rabs (RM.targetPrice order - RM.currentPrice md))
                     (RM.currentPrice md) = PlusInfinity).
    { rewrite Hzero, Rminus_0_r. apply js_div_infinite. by apply Rabs_pos_lt. }
    split.
    + cbn [RM.violated]. by rewrite Hinf.
    + unfold RM.validateSlippage. rewrite Hinf, HmaxS. reflexivity.
  - intros Hday. rewrite (resetDailyPnLIfNeeded_same_day this today Hday) in *.
    split; [reflexivity |]. intros Hnum. specialize (Hfirst Hnum).
    unfold RM.validateOrder_meets.
    destruct (RM.first_violation RM.stale_code this now order inv md); by eauto.
  - intros Hallowed Hmax Hsize. split; [| split; [exact Hpos |]].
    + unfold RM.validateOrder_checks, RM.isTradingAllowed.
      unfold RM.isTradingAllowed in Hallowed.
      rewrite Hes, Htp, Hallowed, HmaxO, Hmax, Hsize. cbn.
      unfold Rgtb. by decide_R.
    + intros Hday. by rewrite (resetDailyPnLIfNeeded_same_day this today Hday).
Qed.

Lemma C5_validateOrder_witness :
  let out := RM.validateOrder losing_risk monday 1000 oversized_order
               no_holdings calm_market in
  fst out = losing_risk
  /\ snd out = inl (RM.OrderSizeExceedsMaximum 1.5 1)
  /\ RM.currentPosition (fst out) = RM.currentPosition losing_risk
  /\ RM.dailyPnL (fst out) = RM.dailyPnL losing_risk
  /\ RM.validateOrder_meets RM.stale_code losing_risk (fst out) (snd out)
       1000 oversized_order no_holdings calm_market.
Proof.
  intros out.
  destruct (C5_validateOrder losing_risk monday 1000 oversized_order
              no_holdings calm_market) as (_ & _ & _ & _ & Hsame & Hsize).
  assert (Hday : monday = RM.lastResetDate losing_risk)
    by (by rewrite losing_risk_state).
  assert (Hallowed : RM.isTradingAllowed losing_risk = true)
    by (by rewrite losing_risk_state).
  assert (Hone : RM.maxOrderSize losing_risk = 1) by (by rewrite losing_risk_state).
  assert (Hbig : RM.totalSize oversized_order = 1.5) by (cbn; lra).
  assert (Hnum : RM.slippage_is_number oversized_order calm_market)
    by (intros Hzero; cbn in Hzero; lra).
  destruct (Hsame Hday) as [Hstate Hmeets].
  destruct (Hsize Hallowed Hone Hbig) as (Hres & Hpos & Hpnl).
  split; [exact Hstate | split; [exact Hres | split; [exact Hpos |]]].
  split; [exact (Hpnl Hday) | exact (Hmeets Hnum)].
Defined.

(** *** C6: the emergency stop is sticky *)

Section EmergencyStop.
Implicit Types (this : RM.State) (c : RM.Call).

Lemma isTradingAllowed_emergencyStop this :
  RM.emergencyStop this = true -> RM.isTradingAllowed this = false.
Proof. intros H. unfold RM.isTradingAllowed. by rewrite H. Qed.

Lemma checkRiskLimits_emergencyStop this pv :
  RM.emergencyStop this = true ->
  RM.emergencyStop (RM.checkRiskLimits this pv) = true.
Proof.
  intros H. unfold RM.checkRiskLimits.
  repeat match goal with |- context [if ?b then _ else _] => destruct b end;
    done.
Qed.

Lemma checkRiskLimits_dailyPnL this pv :
  RM.dailyPnL (RM.checkRiskLimits this pv) = RM.dailyPnL this
  /\ RM.maxDailyLoss (RM.checkRiskLimits this pv) = RM.maxDailyLoss this.
Proof.
  unfold RM.checkRiskLimits.
  repeat match goal with |- context [if ?b then _ else _] => destruct b end;
    done.
Qed.

(** A daily loss beyond the limit trips the emergency stop. *)
Lemma checkRiskLimits_trips this pv :
  RM.dailyPnL this < - RM.maxDailyLoss this ->
  RM.emergencyStop (RM.checkRiskLimits this pv) = true.
Proof.
  intros H. unfold RM.checkRiskLimits.
  by rewrite (proj2 (Rltb_true _ _) H).
Qed.

(** What [updateRiskMetrics] hands to [checkRiskLimits]. *)
Lemma updateRiskMetrics_dailyPnL this res :
  RM.dailyPnL (RM.updateRiskMetrics this res)
  = RM.dailyPnL this + or_default (RM.pnl res) 0
  /\ RM.maxDailyLoss (RM.updateRiskMetrics this res) = RM.maxDailyLoss this.
Proof.
  unfold RM.updateRiskMetrics.
  match goal with |- context [RM.checkRiskLimits ?s ?pv] =>
    destruct (checkRiskLimits_dailyPnL s pv) as [-> ->] end.
  destruct (RM.res_direction res), (Rgtb _ _); done.
Qed.

Lemma updateRiskMetrics_emergencyStop this res :
  RM.emergencyStop this = true ->
  RM.emergencyStop (RM.updateRiskMetrics this res) = true.
Proof.
  intros H. unfold RM.updateRiskMetrics.
  apply checkRiskLimits_emergencyStop.
  destruct (RM.res_direction res), (Rgtb _ _); done.
Qed.

(** Every call but [resetEmergencyStop] keeps a set emergency stop. *)
Lemma run_call_emergencyStop this c :
  RM.is_reset c = false ->
  RM.emergencyStop this = true ->
  RM.emergencyStop (RM.run_call this c) = true.
Proof.
  intros Hc H. destruct c as [today now order inv md | res | |]; cbn.
  - by destruct (resetDailyPnLIfNeeded_frame this today) as (_ & _ & _ & _ & _ & _ & _ & -> & _).
  - by apply updateRiskMetrics_emergencyStop.
  - done.
  - done.
Qed.

Lemma run_calls_emergencyStop (cs : list RM.Call) : forall this,
  forallb (fun c => negb (RM.is_reset c)) cs = true ->
  RM.emergencyStop this = true ->
  RM.emergencyStop (RM.run_calls this cs) = true.
Proof.
  induction cs as [| c cs IH]; intros this Hcs H; [done |].
  cbn in Hcs. apply andb_prop in Hcs as [Hc Hcs].
  cbn. apply IH; [done |].
  apply run_call_emergencyStop; [by destruct (RM.is_reset c) | done].
Qed.
End EmergencyStop.

(** C6.  Once [updateRiskMetrics] has observed a daily PnL below
    [-maxDailyLoss], [isTradingAllowed()] is false at once and after every
    sequence of [validateOrder], [updateRiskMetrics] and [resumeTrading]
    calls, whatever dates, times and arguments they carry (a validation on
    a new day resets the daily PnL, not the emergency stop); the first
    call that re-enables trading is an explicit [resetEmergencyStop]. *)
Theorem C6_emergency_stop_is_sticky (this : RM.State)
    (res : RM.ExecutionResult) (calls : list RM.Call) :
  let stopped := RM.updateRiskMetrics this res in
  RM.dailyPnL stopped < - RM.maxDailyLoss stopped ->
  forallb (fun c => negb (RM.is_reset c)) calls = true ->
  RM.isTradingAllowed stopped = false
  /\ RM.isTradingAllowed (RM.run_calls stopped calls) = false
  /\ RM.isTradingAllowed
       (RM.run_call (RM.run_calls stopped calls) RM.CallResetEmergencyStop) = true.
Proof.
  intros stopped Hloss Hcalls.
  assert (Hstop : RM.emergencyStop stopped = true).
  { subst stopped. destruct (updateRiskMetrics_dailyPnL this res) as [Hp Hm].
    rewrite Hp, Hm in Hloss. unfold RM.updateRiskMetrics.
    apply checkRiskLimits_trips.
    destruct (RM.res_direction res), (Rgtb _ _); cbn; lra. }
  split; [by apply isTradingAllowed_emergencyStop |].
  split; [by apply isTradingAllowed_emergencyStop, run_calls_emergencyStop |].
  reflexivity.
Qed.

Lemma C6_emergency_stop_is_sticky_witness :
  RM.isTradingAllowed (RM.updateRiskMetrics default_risk heavy_loss) = false
  /\ RM.isTradingAllowed
       (RM.run_calls (RM.updateRiskMetrics default_risk heavy_loss) later_calls)
     = false.
Proof.
  assert (Hloss : RM.dailyPnL (RM.updateRiskMetrics default_risk heavy_loss)
                  < - RM.maxDailyLoss (RM.updateRiskMetrics default_risk heavy_loss)).
  { destruct (updateRiskMetrics_dailyPnL default_risk heavy_loss) as [-> ->].
    cbn -[or_default]. rewrite or_default_number by lra. cbn. lra. }
  destruct (C6_emergency_stop_is_sticky default_risk heavy_loss later_calls
              Hloss eq_refl) as (H1 & H2 & _).
  split; [exact H1 | exact H2].
Defined.

(* --------------------------------------------------------------------- *)
(** ** The execution plan                                                *)
(* --------------------------------------------------------------------- *)

Lemma default_executor_limits :
  TW.minOrderSize default_executor = 0.01
  /\ TW.maxOrderSize default_executor = 1
  /\ TW.maxSlippage default_executor = 0.005.
Proof. cbn. repeat split; lra. Qed.

(** Without skew the part size is the base size within the bounds. *)
Lemma part_size_no_skew (this : TW.Executor) (quotes : option TW.Quotes) (base : R) :
  TW.no_inventory_skew quotes ->
  TW.part_size this base quotes
  = Rmax (TW.minOrderSize this) (Rmin (TW.maxOrderSize this) base).
Proof.
  unfold TW.no_inventory_skew, TW.part_size.
  destruct quotes as [qs |]; [| done].
  intros [-> | ->]; [done |].
  by destruct (Req_dec_T 0 0).
Qed.

(** With a skew of [adj <> 0] the base size is scaled by [1 + adj/10]
    before it is bounded. *)
Lemma part_size_skew (this : TW.Executor) (quotes : option TW.Quotes)
    (base adj : R) (qs : TW.Quotes) :
  quotes = Some qs -> TW.inventoryAdjustment qs = Some adj -> adj <> 0 ->
  TW.part_size this base quotes
  = Rmax (TW.minOrderSize this)
         (Rmin (TW.maxOrderSize this) (base * (1 + adj * 0.1))).
Proof.
  intros -> Hadj Hne. unfold TW.part_size. rewrite Hadj.
  by destruct (Req_dec_T adj 0).
Qed.

Section PlanFacts.
Variable this : TW.Executor.
Variable clock : nat -> R.
Variables totalSize duration : R.
Variable maxParts : nat.
Variable quotes : option TW.Quotes.

Let plan := TW.calculateExecutionPlan this clock totalSize duration maxParts quotes.
Let timePerPart := duration / INR maxParts.
Let baseSize := totalSize / INR maxParts.

Lemma plan_length : length plan = maxParts.
Proof.
  subst plan. unfold TW.calculateExecutionPlan.
  by rewrite length_map, length_seq.
Qed.

Lemma plan_lookup (i : nat) :
  (i < maxParts)%nat ->
  plan !! i = Some (TW.plan_part this (clock i) timePerPart baseSize quotes i).
Proof.
  intros Hi. subst plan. unfold TW.calculateExecutionPlan.
  change (map ?f ?l) with (f <$> l).
  rewrite list_lookup_fmap, lookup_seq_lt by done. reflexivity.
Qed.

Lemma plan_lookup_ge (i : nat) : (maxParts <= i)%nat -> plan !! i = None.
Proof. intros Hi. apply lookup_ge_None. by rewrite plan_length. Qed.

(** Every part has the same size, so the plan totals [maxParts] times
    it. *)
Lemma total_planned_map (l : list nat) :
  TW.total_planned
    (map (fun i => TW.plan_part this (clock i) timePerPart baseSize quotes i) l)
  = INR (length l) * TW.part_size this baseSize quotes.
Proof.
  induction l as [| i l IH]; [cbn; lra |].
  cbn [map length]. rewrite S_INR.
  unfold TW.total_planned in *. cbn [fold_right]. rewrite IH.
  cbn [TW.size TW.plan_part]. lra.
Qed.

Lemma total_planned_plan :
  TW.total_planned plan = INR maxParts * TW.part_size this baseSize quotes.
Proof.
  subst plan. unfold TW.calculateExecutionPlan.
  fold timePerPart baseSize. by rewrite total_planned_map, length_seq.
Qed.
End PlanFacts.

(** *** C7: the shape of the plan *)

(** C7, the code against the claim.  The claim asks for parts that are
    [duration / maxParts] apart.  The loop of [calculateExecutionPlan]
    reads the clock anew for every part instead of once before the loop,
    so when the clock advances between two readings the two parts are
    further apart.  Here: 1.0 over 300000 ms in 10 parts with a clock
    that ticks once after the first reading, and the first two parts are
    30001 ms apart instead of 30000. *)
Theorem C7_schedule_drifts_with_clock :
  let plan := TW.calculateExecutionPlan default_executor ticking_clock
                1 300000 10 None in
  TW.no_inventory_skew None
  /\ exists p0 p1,
       plan !! 0%nat = Some p0 /\ plan !! 1%nat = Some p1
       /\ TW.executionTime p1 - TW.executionTime p0 = 30001
       /\ TW.executionTime p1 - TW.executionTime p0 <> 300000 / INR 10.
Proof.
  intros plan. split; [exact I |].
  subst plan. do 2 eexists. split; [reflexivity | split; [reflexivity |]].
  cbn. split; lra.
Qed.

(** The shape of a plan.  For an order with totalSize > 0, duration > 0
    and maxParts >= 1 whose quote carries no inventory skew, the plan has
    exactly maxParts parts; part [i] is pending, has index [i], the size
    totalSize/maxParts bounded to [minOrderSize, maxOrderSize], and the
    time (clock reading of iteration [i]) + i·(duration/maxParts).  The
    count, the sizes and the statuses are what the claim of C7 says; the
    distance of consecutive parts is duration/maxParts only up to what
    the clock advanced between the two readings, and exactly that when
    the clock reads the same in every iteration. *)
Lemma execution_plan_shape (this : TW.Executor) (clock : nat -> R)
    (totalSize duration : R) (maxParts : nat) (quotes : option TW.Quotes) :
  0 < totalSize -> 0 < duration -> (1 <= maxParts)%nat ->
  TW.no_inventory_skew quotes ->
  let plan := TW.calculateExecutionPlan this clock totalSize duration maxParts quotes in
  length plan = maxParts
  /\ (forall i, (i < maxParts)%nat ->
        exists p, plan !! i = Some p
                  /\ TW.partIndex p = i /\ TW.status p = TW.pending
                  /\ TW.size p
                     = Rmax (TW.minOrderSize this)
                            (Rmin (TW.maxOrderSize this) (totalSize / INR maxParts))
                  /\ TW.executionTime p = clock i + INR i * (duration / INR maxParts))
  /\ (forall i p p', plan !! i = Some p -> plan !! S i = Some p' ->
        TW.executionTime p' - TW.executionTime p
        = duration / INR maxParts + (clock (S i) - clock i))
  /\ ((forall i, clock (S i) = clock i) ->
      forall i p p', plan !! i = Some p -> plan !! S i = Some p' ->
        TW.executionTime p' - TW.executionTime p = duration / INR maxParts).
Proof.
  intros _ _ _ Hskew plan.
  assert (Hspace : forall i p p', plan !! i = Some p -> plan !! S i = Some p' ->
            TW.executionTime p' - TW.executionTime p
            = duration / INR maxParts + (clock (S i) - clock i)).
  { intros i p p' Hp Hp'.
    assert (Hi : (S i < maxParts)%nat).
    { apply lookup_lt_Some in Hp'. subst plan. by rewrite plan_length in Hp'. }
    subst plan. rewrite plan_lookup in Hp, Hp' by lia.
    injection Hp as <-. injection Hp' as <-.
    cbn [TW.executionTime TW.plan_part]. rewrite S_INR. lra. }
  split; [apply plan_length | split; [| split; [exact Hspace |]]].
  - intros i Hi. eexists. split; [by apply plan_lookup |].
    cbn [TW.partIndex TW.status TW.size TW.executionTime TW.plan_part].
    by rewrite part_size_no_skew.
  - intros Hclock i p p' Hp Hp'. rewrite (Hspace i p p' Hp Hp'), Hclock. lra.
Qed.

(** The specification's scenario: 1.0 over 300000 ms in 10 parts, no
    quote, default limits, a clock that stands still: 10 pending parts of
    size 0.1, part [i] at [now + i·30000]. *)
Lemma execution_plan_scenario :
  let plan := TW.calculateExecutionPlan default_executor (fun _ => 1000)
                1 300000 10 None in
  length plan = 10%nat
  /\ (forall i, (i < 10)%nat ->
        exists p, plan !! i = Some p /\ TW.partIndex p = i
                  /\ TW.status p = TW.pending /\ TW.size p = 0.1
                  /\ TW.executionTime p = 1000 + INR i * 30000)
  /\ (forall i p p', plan !! i = Some p -> plan !! S i = Some p' ->
        TW.executionTime p' - TW.executionTime p = 30000).
Proof.
  intros plan.
  assert (Hten : INR 10 = 10) by (cbn; lra).
  destruct (execution_plan_shape default_executor (fun _ => 1000) 1 300000 10 None)
    as (Hlen & Hparts & _ & Hspace); [lra | lra | lia | exact I |].
  split; [exact Hlen | split].
  - intros i Hi. destruct (Hparts i Hi) as (p & Hp & Hidx & Hst & Hsz & Ht).
    exists p. split; [exact Hp | split; [exact Hidx | split; [exact Hst | split]]].
    + rewrite Hsz, Hten.
      destruct default_executor_limits as (-> & -> & _).
      rewrite Rmin_right, Rmax_right; lra.
    + rewrite Ht, Hten. lra.
  - intros i p p' Hp Hp'.
    rewrite (Hspace (fun _ => eq_refl) i p p' Hp Hp'), Hten. lra.
Defined.

(** *** C8: the sum of the part sizes *)

(** The claim of C8 fails when the bounds cut the part size.  With the
    default limits [0.01 .. 1.0]: an order of 0.05 in 10 parts has the base
    size 0.005, each part is raised to 0.01 and the plan totals 0.1; an
    order of 20 in 10 parts has the base size 2, each part is cut to 1 and
    the plan totals 10.  Both are off by more than one minimum lot. *)
Lemma C8_counterexample :
  let small := TW.calculateExecutionPlan default_executor (fun _ => 1000)
                 0.05 300000 10 None in
  let large := TW.calculateExecutionPlan default_executor (fun _ => 1000)
                 20 300000 10 None in
  (TW.total_planned small = 0.1
   /\ ~ Rabs (TW.total_planned small - 0.05) <= TW.minOrderSize default_executor)
  /\ (TW.total_planned large = 10
      /\ ~ Rabs (TW.total_planned large - 20) <= TW.minOrderSize default_executor).
Proof.
  intros small large.
  assert (Hten : INR 10 = 10) by (cbn; lra).
  destruct default_executor_limits as (Hmin & Hmax & _).
  assert (Hs : TW.total_planned small = 0.1).
  { subst small. rewrite total_planned_plan, part_size_no_skew by exact I.
    rewrite Hmin, Hmax, Hten, Rmin_right, Rmax_left; lra. }
  assert (Hl : TW.total_planned large = 10).
  { subst large. rewrite total_planned_plan, part_size_no_skew by exact I.
    rewrite Hmin, Hmax, Hten, Rmin_left, Rmax_right; lra. }
  rewrite Hs, Hl, Hmin. split; (split; [reflexivity |]).
  - rewrite Rabs_pos_eq; lra.
  - rewrite Rabs_left; lra.
Qed.

(** C8, amended.  The sizes of a plan sum to maxParts times the common
    part size.  For totalSize > 0 and maxParts >= 1 this is totalSize when
    the quote carries no skew and totalSize/maxParts lies within
    [minOrderSize, maxOrderSize]; with a skew [adj <> 0] whose scaled size
    lies within the bounds it is totalSize·(1 + adj/10); and when
    totalSize/maxParts lies outside the bounds (no skew) it is maxParts
    times the bound that was hit. *)
Theorem C8_planned_total (this : TW.Executor) (clock : nat -> R)
    (totalSize duration : R) (maxParts : nat) (quotes : option TW.Quotes) :
  0 < totalSize -> (1 <= maxParts)%nat ->
  let plan := TW.calculateExecutionPlan this clock totalSize duration maxParts quotes in
  let baseSize := totalSize / INR maxParts in
  TW.total_planned plan = INR maxParts * TW.part_size this baseSize quotes
  /\ (TW.no_inventory_skew quotes ->
      (TW.minOrderSize this <= baseSize <= TW.maxOrderSize this ->
       TW.total_planned plan = totalSize)
      /\ (baseSize < TW.minOrderSize this <= TW.maxOrderSize this ->
          TW.total_planned plan = INR maxParts * TW.minOrderSize this)
      /\ (TW.minOrderSize this <= TW.maxOrderSize this < baseSize ->
          TW.total_planned plan = INR maxParts * TW.maxOrderSize this))
  /\ (forall qs adj,
        quotes = Some qs -> TW.inventoryAdjustment qs = Some adj -> adj <> 0 ->
        TW.minOrderSize this <= baseSize * (1 + adj * 0.1) <= TW.maxOrderSize this ->
        TW.total_planned plan = totalSize * (1 + adj * 0.1)).
Proof.
  intros Hsize Hparts plan baseSize.
  assert (Hn : 0 < INR maxParts) by (apply lt_0_INR; lia).
  assert (Hbase : INR maxParts * baseSize = totalSize)
    by (subst baseSize; field; lra).
  assert (Htotal : TW.total_planned plan
                   = INR maxParts * TW.part_size this baseSize quotes)
    by apply total_planned_plan.
  split; [exact Htotal | split].
  - intros Hskew. rewrite Htotal, part_size_no_skew by done.
    split; [| split]; intros [H1 H2].
    + rewrite Rmin_right, Rmax_right by lra. exact Hbase.
    + rewrite Rmin_right, Rmax_left by lra. reflexivity.
    + rewrite Rmin_left, Rmax_right by lra. reflexivity.
  - intros qs adj Hq Hadj Hne [H1 H2].
    rewrite Htotal, (part_size_skew this quotes baseSize adj qs Hq Hadj Hne).
    rewrite Rmin_right, Rmax_right by lra. rewrite <- Hbase. ring.
Qed.

Lemma C8_planned_total_witness :
  let plan_of size quotes :=
    TW.calculateExecutionPlan default_executor (fun _ => 1000) size 300000 10 quotes in
  TW.total_planned (plan_of 1 None) = 1
  /\ TW.total_planned (plan_of 0.05 None) = INR 10 * 0.01
  /\ TW.total_planned (plan_of 20 None) = INR 10 * 1
  /\ TW.total_planned (plan_of 1 (Some (TW.mkQuotes (Some 0.5) 3400)))
     = 1 * (1 + 0.5 * 0.1).
Proof.
  intros plan_of. subst plan_of. cbv beta.
  assert (Hten : INR 10 = 10) by (cbn; lra).
  destruct default_executor_limits as (Hmin & Hmax & _).
  split; [| split; [| split]].
  - destruct (C8_planned_total default_executor (fun _ => 1000) 1 300000 10 None)
      as (_ & H & _); [lra | lia |].
    destruct (H I) as (Hexact & _). apply Hexact. rewrite Hmin, Hmax, Hten. lra.
  - destruct (C8_planned_total default_executor (fun _ => 1000) 0.05 300000 10 None)
      as (_ & H & _); [lra | lia |].
    destruct (H I) as (_ & Hlow & _). rewrite Hmin in Hlow. apply Hlow.
    rewrite Hmax, Hten. lra.
  - destruct (C8_planned_total default_executor (fun _ => 1000) 20 300000 10 None)
      as (_ & H & _); [lra | lia |].
    destruct (H I) as (_ & _ & Hhigh). rewrite Hmax in Hhigh. apply Hhigh.
    rewrite Hmin, Hten. lra.
  - destruct (C8_planned_total default_executor (fun _ => 1000) 1 300000 10
                (Some (TW.mkQuotes (Some 0.5) 3400)))
      as (_ & _ & H); [lra | lia |].
    apply (H (TW.mkQuotes (Some 0.5) 3400) 0.5); [reflexivity | reflexivity | lra |].
    rewrite Hmin, Hmax, Hten. lra.
Defined.

(* --------------------------------------------------------------------- *)
(** ** The execution loop                                                *)
(* --------------------------------------------------------------------- *)

Section Loop.
Variable this : TW.Executor.
Implicit Types (s : TW.State) (r idx : nat) (oid : string) (o : TW.Order).

(** *** Objects that are retired stay as they are *)

Lemma completeOrder_retired r s oid now :
  retired r s ->
  retired r (TW.completeOrder s oid now)
  /\ TW.heap (TW.completeOrder s oid now) !! r = TW.heap s !! r.
Proof.
  intros (Ht & Hlen & Hmap). unfold TW.completeOrder.
  destruct (TW.activeOrders s !! oid) as [r' |] eqn:Hoid; [| done].
  assert (Hne : r' ≠ r) by (intros ->; by eapply Hmap).
  destruct (alter (TW.finish TW.completed None now) r' (TW.heap s) !! r');
    unfold retired; cbn; (split; [split; [done | split] | by apply list_lookup_alter_ne]).
  1,3: by rewrite length_alter.
  all: intros oid' Hd; apply lookup_delete_Some in Hd as [_ Hd]; by eapply Hmap.
Qed.

Lemma failOrder_retired r s oid e now :
  retired r s ->
  retired r (TW.failOrder s oid e now)
  /\ TW.heap (TW.failOrder s oid e now) !! r = TW.heap s !! r.
Proof.
  intros (Ht & Hlen & Hmap). unfold TW.failOrder.
  destruct (TW.activeOrders s !! oid) as [r' |] eqn:Hoid; [| done].
  assert (Hne : r' ≠ r) by (intros ->; by eapply Hmap).
  unfold retired. cbn. split; [split; [done | split] |].
  - by rewrite length_alter.
  - intros oid' Hd. apply lookup_delete_Some in Hd as [_ Hd]. by eapply Hmap.
  - by apply list_lookup_alter_ne.
Qed.

Lemma executePart_retired r s r2 idx oid part now reply :
  retired r s -> r2 ≠ r ->
  let out := TW.executePart this s r2 idx oid part now reply in
  retired r (fst out) /\ TW.heap (fst out) !! r = TW.heap s !! r.
Proof.
  intros (Ht & Hlen & Hmap) Hne. unfold TW.executePart.
  destruct (TW.run_backend this s oid part reply) as [e | [[r' dir] tx]] eqn:Hb;
    unfold retired; cbn.
  - split; [split; [done | split; [by rewrite length_alter | done]] |].
    by apply list_lookup_alter_ne.
  - assert (Hne' : r' ≠ r).
    { unfold TW.run_backend in Hb.
      destruct (TW.activeOrders s !! oid) as [r0 |] eqn:Hoid; [| done].
      destruct (TW.heap s !! r0); [| done].
      destruct (TW.direction _);
        [destruct (TW.executeBuyOrder _ _ _) | destruct (TW.executeSellOrder _ _ _)];
        simplify_eq; intros ->; by eapply Hmap. }
    split; [split; [done | split; [by rewrite !length_alter | done]] |].
    by rewrite !list_lookup_alter_ne.
Qed.

Lemma set_timers_retired r s (t : gset nat) :
  retired r s -> r ∉ t -> retired r (TW.set_timers t s).
Proof. intros (Ht & Hlen & Hmap) Hr. by unfold retired. Qed.

Lemma completeOrder_stop_retired r s (t : gset nat) oid now :
  retired r s -> r ∉ t ->
  retired r (TW.completeOrder (TW.set_timers t s) oid now)
  /\ TW.heap (TW.completeOrder (TW.set_timers t s) oid now) !! r = TW.heap s !! r.
Proof.
  intros Hret Hr.
  destruct (completeOrder_retired r _ oid now (set_timers_retired r s t Hret Hr))
    as [H1 H2].
  split; [exact H1 | exact H2].
Qed.

Lemma failOrder_stop_retired r s (t : gset nat) oid e now :
  retired r s -> r ∉ t ->
  retired r (TW.failOrder (TW.set_timers t s) oid e now)
  /\ TW.heap (TW.failOrder (TW.set_timers t s) oid e now) !! r = TW.heap s !! r.
Proof.
  intros Hret Hr.
  destruct (failOrder_retired r _ oid e now (set_timers_retired r s t Hret Hr))
    as [H1 H2].
  split; [exact H1 | exact H2].
Qed.

Lemma executeNextPart_retired r s r2 now later reply :
  retired r s -> r2 ≠ r ->
  retired r (TW.executeNextPart this s r2 now later reply)
  /\ TW.heap (TW.executeNextPart this s r2 now later reply) !! r = TW.heap s !! r.
Proof.
  intros Hret Hne. unfold TW.executeNextPart.
  destruct (TW.heap s !! r2) as [order |]; [| done].
  assert (Hr : r ∉ TW.timers s ∖ {[ r2 ]}).
  { destruct Hret as [Ht _]. intros [Hin _]%elem_of_difference. done. }
  destruct (TW.executionPlan order !! TW.executedParts order) as [part |];
    [| by apply completeOrder_stop_retired].
  destruct (TW.status part); [| by apply completeOrder_stop_retired ..].
  destruct (Rltb now (TW.executionTime part)); [done |].
  pose proof (executePart_retired r s r2 (TW.executedParts order)
                (TW.id (TW.spec order)) part later reply Hret Hne) as [Hret1 Hheap1].
  destruct (TW.executePart this s r2 _ _ part later reply) as [s1 [e | []]];
    cbn [fst] in Hret1, Hheap1.
  - destruct (failOrder_stop_retired r s1 (TW.timers s ∖ {[ r2 ]})
                (TW.id (TW.spec order)) e later Hret1 Hr) as [H1 H2].
    split; [exact H1 | by rewrite H2].
  - set (s2 := TW.set_heap _ s1).
    assert (Hret2 : retired r s2).
    { destruct Hret1 as (Ht & Hlen & Hmap).
      unfold retired. subst s2. cbn. by rewrite length_alter. }
    assert (Hheap2 : TW.heap s2 !! r = TW.heap s !! r).
    { subst s2. cbn. by rewrite list_lookup_alter_ne. }
    destruct (_ <? _)%nat; [done |].
    destruct (completeOrder_stop_retired r s2 (TW.timers s ∖ {[ r2 ]})
                (TW.id (TW.spec order)) later Hret2 Hr) as [H1 H2].
    split; [exact H1 | by rewrite H2].
Qed.

Lemma executeTWAPOrder_retired r s order clock now :
  retired r s ->
  retired r (TW.executeTWAPOrder this s order clock now)
  /\ TW.heap (TW.executeTWAPOrder this s order clock now) !! r = TW.heap s !! r.
Proof.
  intros (Ht & Hlen & Hmap). unfold TW.executeTWAPOrder, retired. cbn.
  split; [split; [| split] |].
  - apply not_elem_of_union. split; [done |]. apply not_elem_of_singleton. lia.
  - rewrite length_app. lia.
  - intros oid Hin. apply lookup_insert_Some in Hin as [[_ Heq] | [_ Hin]];
      [lia | by eapply Hmap].
  - by apply lookup_app_l.
Qed.

Lemma step_retired r s (i : TW.Input) :
  retired r s ->
  retired r (TW.step this s i) /\ TW.heap (TW.step this s i) !! r = TW.heap s !! r.
Proof.
  intros Hret. destruct i as [order clock now | r2 now later reply]; cbn.
  - by apply executeTWAPOrder_retired.
  - destruct (decide (r2 ∈ TW.timers s)) as [Hin |]; [| done].
    apply executeNextPart_retired; [done |].
    intros ->. by destruct Hret.
Qed.

Lemma run_retired r (inputs : list TW.Input) : forall s,
  retired r s ->
  retired r (TW.run this s inputs)
  /\ TW.heap (TW.run this s inputs) !! r = TW.heap s !! r.
Proof.
  induction inputs as [| i inputs IH]; intros s Hret; [done |].
  destruct (step_retired r s i Hret) as [Hret' Hheap'].
  destruct (IH _ Hret') as [Hret'' Hheap''].
  unfold TW.run in *. cbn [fold_left]. split; [done | by rewrite Hheap''].
Qed.
End Loop.

(** *** Reachable states are well formed *)

Lemma ids_kept_refl h : ids_kept h h.
Proof. intros r o Ho. by exists o. Qed.

Lemma ids_kept_trans h1 h2 h3 : ids_kept h1 h2 -> ids_kept h2 h3 -> ids_kept h1 h3.
Proof.
  intros H12 H23 r o Ho.
  destruct (H12 r o Ho) as (o2 & Ho2 & Hs2).
  destruct (H23 r o2 Ho2) as (o3 & Ho3 & Hs3).
  exists o3. split; [done | congruence].
Qed.

Lemma ids_kept_alter (f : TW.Order -> TW.Order) r' h :
  (forall o, TW.spec (f o) = TW.spec o) -> ids_kept h (alter f r' h).
Proof.
  intros Hf r o Ho. destruct (decide (r = r')) as [-> | Hne].
  - exists (f o). split; [| done].
    rewrite list_lookup_alter, decide_True by done. by rewrite Ho.
  - exists o. split; [| done]. by rewrite list_lookup_alter_ne.
Qed.

Lemma evolves_refl s : evolves s s.
Proof. split; [apply ids_kept_refl | done]. Qed.

Lemma evolves_trans s1 s2 s3 : evolves s1 s2 -> evolves s2 s3 -> evolves s1 s3.
Proof.
  intros [H12 M12] [H23 M23]. split; [by eapply ids_kept_trans | by etransitivity].
Qed.

Lemma evolves_well_formed s s' : evolves s s' -> well_formed s -> well_formed s'.
Proof.
  intros [Hh Hm] Hwf oid r Hoid.
  destruct (Hwf oid r (lookup_weaken _ _ _ _ Hoid Hm)) as (o & Ho & Hid).
  destruct (Hh r o Ho) as (o' & Ho' & Hs). exists o'. split; [done | congruence].
Qed.

Section Invariant.
Variable this : TW.Executor.
Implicit Types (s : TW.State) (r idx : nat) (oid : string).

Lemma completeOrder_evolves s oid now : evolves s (TW.completeOrder s oid now).
Proof.
  unfold TW.completeOrder.
  destruct (TW.activeOrders s !! oid) as [r' |]; [| apply evolves_refl].
  destruct (alter _ r' (TW.heap s) !! r'); unfold evolves; cbn;
    (split; [by apply ids_kept_alter | apply delete_subseteq]).
Qed.

Lemma failOrder_evolves s oid e now : evolves s (TW.failOrder s oid e now).
Proof.
  unfold TW.failOrder.
  destruct (TW.activeOrders s !! oid) as [r' |]; [| apply evolves_refl].
  unfold evolves; cbn. split; [by apply ids_kept_alter | apply delete_subseteq].
Qed.

Lemma executePart_evolves s r idx oid part now reply :
  evolves s (fst (TW.executePart this s r idx oid part now reply)).
Proof.
  unfold TW.executePart.
  destruct (TW.run_backend this s oid part reply) as [e | [[r' dir] tx]];
    unfold evolves; cbn; (split; [| done]).
  - by apply ids_kept_alter.
  - eapply ids_kept_trans; by apply ids_kept_alter.
Qed.

Lemma set_timers_evolves s (t : gset nat) : evolves s (TW.set_timers t s).
Proof. split; [apply ids_kept_refl | done]. Qed.

Lemma executeNextPart_evolves s r now later reply :
  evolves s (TW.executeNextPart this s r now later reply).
Proof.
  unfold TW.executeNextPart.
  destruct (TW.heap s !! r) as [order |]; [| apply evolves_refl].
  set (t := TW.timers s ∖ {[ r ]}).
  assert (Hdone : forall now', evolves s (TW.completeOrder (TW.set_timers t s)
                                            (TW.id (TW.spec order)) now')).
  { intros now'. eapply evolves_trans; [apply (set_timers_evolves s t) |].
    apply completeOrder_evolves. }
  destruct (TW.executionPlan order !! TW.executedParts order) as [part |];
    [| apply Hdone].
  destruct (TW.status part); [| apply Hdone ..].
  destruct (Rltb now (TW.executionTime part)); [apply evolves_refl |].
  pose proof (executePart_evolves s r (TW.executedParts order)
                (TW.id (TW.spec order)) part later reply) as H1.
  destruct (TW.executePart this s r _ _ part later reply) as [s1 [e | []]];
    cbn [fst] in H1.
  - eapply evolves_trans; [exact H1 |].
    eapply evolves_trans; [apply (set_timers_evolves s1 t) | apply failOrder_evolves].
  - set (s2 := TW.set_heap _ s1).
    assert (H2 : evolves s s2).
    { eapply evolves_trans; [exact H1 |]. unfold evolves. subst s2. cbn.
      split; [by apply ids_kept_alter | done]. }
    destruct (_ <? _)%nat; [exact H2 |].
    eapply evolves_trans; [exact H2 |].
    eapply evolves_trans; [apply (set_timers_evolves s2 t) | apply completeOrder_evolves].
Qed.

Lemma executeTWAPOrder_well_formed s order clock now :
  well_formed s -> well_formed (TW.executeTWAPOrder this s order clock now).
Proof.
  intros Hwf oid r. unfold TW.executeTWAPOrder. cbn.
  intros [[<- <-] | [Hne Hoid]]%lookup_insert_Some.
  - eexists. split; [apply list_lookup_middle; done | done].
  - destruct (Hwf oid r Hoid) as (o & Ho & Hid).
    exists o. split; [by apply lookup_app_l_Some | done].
Qed.

Lemma step_well_formed s (i : TW.Input) :
  well_formed s -> well_formed (TW.step this s i).
Proof.
  intros Hwf. destruct i as [order clock now | r now later reply]; cbn.
  - by apply executeTWAPOrder_well_formed.
  - destruct (decide (r ∈ TW.timers s)); [| done].
    eapply evolves_well_formed; [apply executeNextPart_evolves | done].
Qed.

Lemma run_well_formed (inputs : list TW.Input) : forall s,
  well_formed s -> well_formed (TW.run this s inputs).
Proof.
  induction inputs as [| i inputs IH]; intros s Hwf; [done |].
  unfold TW.run in *. cbn [fold_left]. by apply IH, step_well_formed.
Qed.

Lemma reachable_well_formed s : reachable this s -> well_formed s.
Proof.
  intros [inputs ->]. apply run_well_formed. intros oid r Hoid.
  cbn in Hoid. by rewrite lookup_empty in Hoid.
Qed.
End Invariant.

(** *** C10: a failed part ends its order *)

Section Failure.
Variable this : TW.Executor.

(** The ways in which executing a part throws: the quote request fails,
    the quoted amount breaches the slippage limit, or the swap request or
    the transaction fails. *)
Lemma executeBuyOrder_throws (part : TW.Part) (reply : TW.BackendReply) (e : TW.ExecError) :
  TW.executeBuyOrder this part reply = inl e
  <-> (exists msg, reply = TW.quote_fails msg /\ e = TW.BackendError msg)
      \/ (exists dst next,
            reply = TW.quote_ok dst next
            /\ let slippage := js_div (Rabs (dst - TW.size part)) (TW.size part) in
               (Qgtb slippage (TW.maxSlippage this) = true
                /\ e = TW.SlippageTooHigh slippage)
               \/ (Qgtb slippage (TW.maxSlippage this) = false
                   /\ exists msg, e = TW.BackendError msg
                                  /\ (next = TW.swap_fails msg \/ next = TW.tx_fails msg))).
Proof.
  unfold TW.executeBuyOrder. destruct reply as [msg | dst next].
  - split.
    + intros [= <-]. left. by exists msg.
    + intros [(msg' & [= <-] & ->) | (dst & next & [=] & _)]. done.
  - cbn zeta. destruct (Qgtb _ _) eqn:Hs.
    + split.
      * intros [= <-]. right. exists dst, next. split; [done |]. left. done.
      * intros [(msg & [=] & _) | (dst' & next' & [= <- <-] & [[_ ->] | [Hle _]])];
          [done | congruence].
    + split.
      * intros He. right. exists dst, next. split; [done |]. right. split; [done |].
        destruct next as [msg | msg |]; cbn in He; simplify_eq; eauto.
      * intros [(msg & [=] & _) | (dst' & next' & [= <- <-] & [[Hgt _] | [_ (msg & -> & [-> | ->])]])];
          [congruence | done | done].
Qed.

Lemma executeSellOrder_throws (part : TW.Part) (reply : TW.BackendReply) (e : TW.ExecError) :
  TW.executeSellOrder this part reply = inl e
  <-> (exists msg, reply = TW.quote_fails msg /\ e = TW.BackendError msg)
      \/ (exists dst next,
            reply = TW.quote_ok dst next
            /\ let slippage := js_div (Rabs (dst - TW.size part * TW.targetPrice part))
                                      (TW.size part * TW.targetPrice part) in
               (Qgtb slippage (TW.maxSlippage this) = true
                /\ e = TW.SlippageTooHigh slippage)
               \/ (Qgtb slippage (TW.maxSlippage this) = false
                   /\ exists msg, e = TW.BackendError msg
                                  /\ (next = TW.swap_fails msg \/ next = TW.tx_fails msg))).
Proof.
  unfold TW.executeSellOrder. destruct reply as [msg | dst next].
  - split.
    + intros [= <-]. left. by exists msg.
    + intros [(msg' & [= <-] & ->) | (dst & next & [=] & _)]. done.
  - cbn zeta. destruct (Qgtb _ _) eqn:Hs.
    + split.
      * intros [= <-]. right. exists dst, next. split; [done |]. left. done.
      * intros [(msg & [=] & _) | (dst' & next' & [= <- <-] & [[_ ->] | [Hle _]])];
          [done | congruence].
    + split.
      * intros He. right. exists dst, next. split; [done |]. right. split; [done |].
        destruct next as [msg | msg |]; cbn in He; simplify_eq; eauto.
      * intros [(msg & [=] & _) | (dst' & next' & [= <- <-] & [[Hgt _] | [_ (msg & -> & [-> | ->])]])];
          [congruence | done | done].
Qed.

Variable s : TW.State.
Variable r : nat.
Variable o : TW.Order.
Variable part : TW.Part.
Variables now later : R.
Variable reply : TW.BackendReply.
Variable e : TW.ExecError.

Hypothesis Hwf : well_formed s.
Hypothesis Htimer : r ∈ TW.timers s.
Hypothesis Hobj : TW.heap s !! r = Some o.
Hypothesis Hactive : TW.activeOrders s !! TW.id (TW.spec o) = Some r.
Hypothesis Hpart : TW.executionPlan o !! TW.executedParts o = Some part.
Hypothesis Hpending : TW.status part = TW.pending.
Hypothesis Hdue : TW.executionTime part <= now.
Hypothesis Hthrows : backend_call this o part reply = inl e.

(** The state after the run of the closure in which the part throws. *)
Lemma step_on_throw :
  TW.step this s (TW.RunClosure r now later reply)
  = TW.mkState
      (alter (TW.finish TW.order_failed (Some e) later) r
         (alter (fun o0 => TW.set_plan
                             (alter (TW.mark_failed e) (TW.executedParts o)
                                    (TW.executionPlan o0)) o0)
                r (TW.heap s)))
      (delete (TW.id (TW.spec o)) (TW.activeOrders s))
      (TW.timers s ∖ {[ r ]})
      (TW.executionHistory s)
      (TW.orderFailed (TW.id (TW.spec o)) e :: TW.events s).
Proof.
  cbn [TW.step]. rewrite decide_True by done.
  unfold TW.executeNextPart. rewrite Hobj, Hpart, Hpending.
  rewrite (proj2 (Rltb_false _ _) Hdue).
  assert (Hb : TW.run_backend this s (TW.id (TW.spec o)) part reply = inl e).
  { unfold TW.run_backend. rewrite Hactive, Hobj.
    unfold backend_call in Hthrows.
    destruct (TW.direction (TW.spec o)); by rewrite Hthrows. }
  unfold TW.executePart. rewrite Hb.
  unfold TW.failOrder. cbn. rewrite Hactive. cbn.
  reflexivity.
Qed.

Lemma failed_order_lookup :
  TW.heap (TW.step this s (TW.RunClosure r now later reply)) !! r = Some (failed_order o later e).
Proof.
  rewrite step_on_throw. cbn [TW.heap].
  rewrite !list_lookup_alter, !decide_True by done. by rewrite Hobj.
Qed.

Lemma retired_after_throw :
  retired r (TW.step this s (TW.RunClosure r now later reply)).
Proof.
  rewrite step_on_throw. unfold retired. cbn. split; [| split].
  - intros [_ Hr]%elem_of_difference. apply Hr. by apply elem_of_singleton.
  - rewrite !length_alter. by eapply lookup_lt_Some.
  - intros oid [Hne Hoid]%lookup_delete_Some.
    destruct (Hwf oid r Hoid) as (o' & Ho' & Hid).
    rewrite Hobj in Ho'. by simplify_eq.
Qed.
End Failure.

(** C10.  In every state the executor can reach: when the closure of an
    active order runs on a pending part that is due and the backend call
    of that part throws (a failed quote, swap or transaction, or a
    slippage breach), then afterwards the part is marked failed with the
    error, the other parts are as before, the order is marked failed and
    is no longer in the active-order map, its closure is not armed again,
    [orderFailed] has been emitted and no trade was recorded; and whatever
    happens to the executor later, the order object never changes again
    and its closure never runs, so every part that was pending stays
    pending and is never executed. *)
Theorem C10_part_failure_aborts_order (this : TW.Executor) (s : TW.State)
    (r : nat) (o : TW.Order) (part : TW.Part) (now later : R)
    (reply : TW.BackendReply) (e : TW.ExecError) :
  reachable this s ->
  r ∈ TW.timers s ->
  TW.heap s !! r = Some o ->
  TW.activeOrders s !! TW.id (TW.spec o) = Some r ->
  TW.executionPlan o !! TW.executedParts o = Some part ->
  TW.status part = TW.pending ->
  TW.executionTime part <= now ->
  backend_call this o part reply = inl e ->
  let s' := TW.step this s (TW.RunClosure r now later reply) in
  let o' := failed_order o later e in
  TW.heap s' !! r = Some o'
  /\ TW.executionPlan o' !! TW.executedParts o = Some (TW.mark_failed e part)
  /\ TW.status (TW.mark_failed e part) = TW.failed
  /\ (forall j, j ≠ TW.executedParts o ->
        TW.executionPlan o' !! j = TW.executionPlan o !! j)
  /\ TW.order_status o' = TW.order_failed
  /\ TW.activeOrders s' !! TW.id (TW.spec o) = None
  /\ (r ∉ TW.timers s')
  /\ TW.events s' = TW.orderFailed (TW.id (TW.spec o)) e :: TW.events s
  /\ TW.executionHistory s' = TW.executionHistory s
  /\ (forall inputs,
        let s'' := TW.run this s' inputs in
        TW.heap s'' !! r = Some o'
        /\ (r ∉ TW.timers s'')
        /\ forall j p, j ≠ TW.executedParts o ->
             TW.executionPlan o !! j = Some p -> TW.status p = TW.pending ->
             exists o'', TW.heap s'' !! r = Some o''
                         /\ TW.executionPlan o'' !! j = Some p).
Proof.
  intros Hreach Htimer Hobj Hactive Hpart Hpending Hdue Hthrows s' o'.
  pose proof (reachable_well_formed this s Hreach) as Hwf.
  pose proof (step_on_throw this s r o part now later reply e
                Htimer Hobj Hactive Hpart Hpending Hdue Hthrows) as Hstep.
  pose proof (failed_order_lookup this s r o part now later reply e
                Htimer Hobj Hactive Hpart Hpending Hdue Hthrows) as Hlook.
  pose proof (retired_after_throw this s r o part now later reply e
                Hwf Htimer Hobj Hactive Hpart Hpending Hdue Hthrows) as Hret.
  fold s' in Hstep, Hlook, Hret.
  assert (Hothers : forall j, j ≠ TW.executedParts o ->
            TW.executionPlan o' !! j = TW.executionPlan o !! j).
  { intros j Hj. subst o'. cbn. by rewrite list_lookup_alter_ne. }
  split; [exact Hlook |].
  split; [subst o'; cbn; rewrite list_lookup_alter, decide_True by done;
          by rewrite Hpart |].
  split; [reflexivity |].
  split; [exact Hothers |].
  split; [reflexivity |].
  split; [rewrite Hstep; cbn; apply lookup_delete_eq |].
  split; [by destruct Hret |].
  split; [by rewrite Hstep |].
  split; [by rewrite Hstep |].
  intros inputs s''.
  destruct (run_retired this r inputs s' Hret) as [(Ht'' & _ & _) Hheap''].
  fold s'' in Ht'', Hheap''.
  split; [by rewrite Hheap'' |]. split; [exact Ht'' |].
  intros j p Hj Hp _. exists o'. split; [by rewrite Hheap'' |].
  by rewrite Hothers.
Qed.

Lemma C10_part_failure_aborts_order_witness :
  let s' := TW.step default_executor started (TW.RunClosure 0 1000 1200 quote_failure) in
  (exists o', TW.heap s' !! 0%nat = Some o'
              /\ TW.order_status o' = TW.order_failed
              /\ (exists p, TW.executionPlan o' !! 0%nat = Some p
                            /\ TW.status p = TW.failed)
              /\ (exists p, TW.executionPlan o' !! 1%nat = Some p
                            /\ TW.status p = TW.pending))
  /\ TW.activeOrders s' !! "twap_1" = None
  /\ (0%nat ∉ TW.timers s').
Proof.
  intros s'.
  assert (Hreach : reachable default_executor started) by (by eexists).
  assert (Htimer : 0%nat ∈ TW.timers started).
  { cbn. apply elem_of_union_r. by apply elem_of_singleton. }
  assert (Hobj : TW.heap started !! 0%nat = Some started_order) by reflexivity.
  assert (Hactive : TW.activeOrders started !! TW.id (TW.spec started_order) = Some 0%nat)
    by apply lookup_insert_eq.
  assert (Hpart : TW.executionPlan started_order !! TW.executedParts started_order
                  = Some first_part) by reflexivity.
  assert (Hdue : TW.executionTime first_part <= 1000) by (cbn; lra).
  destruct (C10_part_failure_aborts_order default_executor started 0 started_order
              first_part 1000 1200 quote_failure (TW.BackendError "1inch quote failed")
              Hreach Htimer Hobj Hactive Hpart eq_refl Hdue eq_refl)
    as (Hlook & Hfailed & Hst & Hothers & Hord & Hmap & Htim & _).
  split; [| split; [exact Hmap | exact Htim]].
  eexists. split; [exact Hlook |]. split; [exact Hord |].
  split; [eexists; split; [exact Hfailed | exact Hst] |].
  eexists. split; [rewrite Hothers by done; reflexivity | reflexivity].
Defined.

(* ===================================================================== *)
(** * Part III: further properties of the code                           *)
(* ===================================================================== *)

Local Open Scope list_scope.

(** ** The pricing model beyond the quote formulas *)






(** X2.  With positive risk aversion, non-zero volatility and time left,
    a larger inventory strictly lowers the reservation price; at the
    horizon the reservation price is the mid price for every inventory. *)
Theorem X2_reservation_price_in_inventory (m : AS.Model) (mid q1 q2 t : R) :
  0 < AS.γ m -> AS.σ m <> 0 -> t < AS.T m -> q1 < q2 ->
  AS.calculateReservationPrice m mid q2 t < AS.calculateReservationPrice m mid q1 t
  /\ AS.calculateReservationPrice m mid q1 (AS.T m) = mid
  /\ AS.calculateReservationPrice m mid q2 (AS.T m) = mid.
Proof.
  intros Hg Hs Ht Hq. unfold AS.calculateReservationPrice.
  assert (0 < AS.σ m ^ 2) by (destruct (Rdichotomy _ _ Hs); nra).
  assert (0 < AS.γ m * AS.σ m ^ 2 * (AS.T m - t))
    by (apply Rmult_lt_0_compat; [apply Rmult_lt_0_compat |]; lra).
  split; [nra | split; lra].
Qed.

Lemma X2_reservation_price_in_inventory_witness :
  AS.calculateReservationPrice default_model 3400 2 0
  < AS.calculateReservationPrice default_model 3400 1 0.
Proof.
  apply (X2_reservation_price_in_inventory default_model 3400 1 2 0); cbn; lra.
Defined.

(** X3.  For positive γ and k and a time up to the horizon, the spread
    lies between [γσ²(T-t) + 4/(γ+k)] and [γσ²(T-t) + 4/k]; in particular
    it is positive, and it shrinks as time passes. *)
Theorem X3_spread_bounds (m : AS.Model) (t t' : R) :
  0 < AS.γ m -> 0 < AS.k m -> t <= t' <= AS.T m ->
  AS.γ m * AS.σ m ^ 2 * (AS.T m - t) + 4 / (AS.γ m + AS.k m)
    <= AS.calculateOptimalSpread m t
    <= AS.γ m * AS.σ m ^ 2 * (AS.T m - t) + 4 / AS.k m
  /\ 0 < AS.calculateOptimalSpread m t
  /\ AS.calculateOptimalSpread m t' <= AS.calculateOptimalSpread m t.
Proof.
  intros Hg Hk [Htt HtT].
  assert (Hx : 0 < AS.γ m / AS.k m) by (by apply Rdiv_lt_0_compat).
  pose proof (ln_1p_lower _ (Rlt_le _ _ Hx)) as Hlow.
  pose proof (ln_1p_upper _ (Rlt_le _ _ Hx)) as Hup.
  assert (Hlow' : 4 / (AS.γ m + AS.k m) <= 4 / AS.γ m * ln (1 + AS.γ m / AS.k m)).
  { replace (4 / (AS.γ m + AS.k m))
      with (4 / AS.γ m * (AS.γ m / AS.k m / (1 + AS.γ m / AS.k m))) by (field; lra).
    apply Rmult_le_compat_l; [| done]. left. apply Rdiv_lt_0_compat; lra. }
  assert (Hup' : 4 / AS.γ m * ln (1 + AS.γ m / AS.k m) <= 4 / AS.k m).
  { replace (4 / AS.k m) with (4 / AS.γ m * (AS.γ m / AS.k m)) by (field; lra).
    apply Rmult_le_compat_l; [| done]. left. apply Rdiv_lt_0_compat; lra. }
  rewrite !calculateOptimalSpread_closed_form by lra.
  assert (H2 : 0 <= AS.σ m ^ 2) by apply pow2_ge_0.
  assert (Hgs : 0 <= AS.γ m * AS.σ m ^ 2) by (apply Rmult_le_pos; lra).
  assert (0 < 4 / (AS.γ m + AS.k m)) by (apply Rdiv_lt_0_compat; lra).
  split; [lra | split; nra].
Qed.

Lemma X3_spread_bounds_witness :
  0.004 + 2.5 <= AS.calculateOptimalSpread default_model 0 <= 0.004 + 4 / 1.5.
Proof.
  destruct (X3_spread_bounds default_model 0 0.5) as [[Hlo Hhi] _]; [cbn; lra ..|].
  destruct default_model_parameters as (Hγ & Hσ & HT & Hk & _).
  rewrite Hγ, Hσ, HT, Hk in Hlo, Hhi. split; lra.
Defined.

(** X4.  The returned bid is never below 95% and the returned ask never
    above 105% of the mid price.  For a mid price that is not negative
    the returned quote is uncrossed ([bidPrice <= askPrice]) exactly when
    the raw bid is at most the raw ask, the raw bid is at most 105% and
    the raw ask at least 95% of the mid price. *)
Theorem X4_quote_band (m : AS.Model) (mid q t : R) :
  let quote := AS.calculateOptimalQuotes m mid q t in
  let raw_bid := AS.calculateReservationPrice m mid q t
                 - AS.calculateOptimalSpread m t / 2
                 - AS.calculateInventoryAdjustment m q in
  let raw_ask := AS.calculateReservationPrice m mid q t
                 + AS.calculateOptimalSpread m t / 2
                 + AS.calculateInventoryAdjustment m q in
  (mid * 0.95 <= AS.bidPrice quote /\ AS.askPrice quote <= mid * 1.05)
  /\ (0 <= mid ->
      (AS.bidPrice quote <= AS.askPrice quote
       <-> raw_bid <= raw_ask /\ raw_bid <= mid * 1.05 /\ mid * 0.95 <= raw_ask)).
Proof.
  intros quote raw_bid raw_ask.
  destruct (quote_fields m mid q t) as (_ & _ & _ & Hb & Ha).
  fold quote raw_bid raw_ask in Hb, Ha. rewrite Hb, Ha.
  split; [split; [apply Rmax_r | apply Rmin_r] |].
  intros Hmid. split.
  - intros H.
    pose proof (Rmax_l raw_bid (mid * 0.95)). pose proof (Rmax_r raw_bid (mid * 0.95)).
    pose proof (Rmin_l raw_ask (mid * 1.05)). pose proof (Rmin_r raw_ask (mid * 1.05)).
    repeat split; lra.
  - intros (H1 & H2 & H3). apply Rmax_lub; apply Rmin_glb; lra.
Qed.

Lemma X4_quote_band_witness :
  let quote := AS.calculateOptimalQuotes default_model 3400 0 0 in
  AS.bidPrice quote <= AS.askPrice quote.
Proof.
  intros quote.
  destruct (X4_quote_band default_model 3400 0 0) as [_ H].
  apply H; [lra |].
  pose proof (calculateOptimalSpread_nonneg default_model 0) as Hs.
  assert (Hr : AS.calculateReservationPrice default_model 3400 0 0 = 3400)
    by (unfold AS.calculateReservationPrice; lra).
  assert (Hup : AS.calculateOptimalSpread default_model 0 <= 4).
  { rewrite calculateOptimalSpread_closed_form by (cbn; lra).
    destruct default_model_parameters as (-> & -> & -> & -> & _).
    pose proof (ln_1p_upper (0.1 / 1.5)). lra. }
  assert (Hadj : AS.calculateInventoryAdjustment default_model 0 = 0).
  { unfold AS.calculateInventoryAdjustment.
    destruct default_model_parameters as (_ & _ & _ & _ & ->).
    replace ((0 - 0) * 2) with 0 by lra. rewrite tanh_zero. lra. }
  specialize (Hs ltac:(cbn; lra) ltac:(cbn; lra) ltac:(cbn; lra)).
  rewrite Hr. repeat split; lra.
Defined.

(** X5.  The two arrival intensities of a quote are positive for A > 0,
    and their product is [A² · exp (-k · (spread + 2·adjustment))]: it
    does not depend on the mid price or on how the inventory shifts the
    reservation price. *)
Theorem X5_arrival_intensities (m : AS.Model) (mid q t : R) :
  0 < AS.A m ->
  let quote := AS.calculateOptimalQuotes m mid q t in
  0 < AS.bidIntensity quote
  /\ 0 < AS.askIntensity quote
  /\ AS.bidIntensity quote * AS.askIntensity quote
     = AS.A m ^ 2
       * exp (- AS.k m * (AS.spread quote + 2 * AS.inventoryAdjustment quote)).
Proof.
  intros HA quote. subst quote.
  destruct (quote_fields m mid q t) as (_ & -> & -> & _).
  cbn [AS.bidIntensity AS.askIntensity AS.calculateOptimalQuotes
       AS.calculateArrivalIntensities fst snd].
  set (r := AS.calculateReservationPrice m mid q t).
  set (sp := AS.calculateOptimalSpread m t).
  set (adj := AS.calculateInventoryAdjustment m q).
  split; [| split].
  - apply Rmult_lt_0_compat; [done | apply exp_pos].
  - apply Rmult_lt_0_compat; [done | apply exp_pos].
  - replace (- AS.k m * (sp + 2 * adj))
      with (- AS.k m * (mid - (r - sp / 2 - adj))
            + - AS.k m * (r + sp / 2 + adj - mid)) by field.
    rewrite exp_plus. ring.
Qed.

Lemma X5_arrival_intensities_witness :
  0 < AS.bidIntensity (AS.calculateOptimalQuotes default_model 3400 0 0).
Proof.
  destruct (X5_arrival_intensities default_model 3400 0 0) as [H _]; [cbn; lra |].
  exact H.
Defined.

(** ** Market updates and the volatility estimate *)

Lemma slice_last_length {X : Type} (n : nat) (l : list X) :
  length (slice_last n l) = Nat.min n (length l).
Proof. unfold slice_last. rewrite length_skipn. lia. Qed.

Lemma slice_last_snoc {X : Type} (n : nat) (l : list X) (x : X) :
  (0 < n)%nat -> last (slice_last n (l ++ [x])) = Some x.
Proof.
  intros Hn. unfold slice_last. rewrite length_app. cbn [length].
  change (skipn ?k ?l') with (drop k l').
  rewrite drop_app_le by lia. apply last_snoc.
Qed.

Section Update.
Variable m : AS.Model.
Variable md : AS.MarketData.
Let m' := fst (AS.updateParameters m md).

Lemma updateParameters_priceHistory :
  AS.priceHistory m'
  = if (1000 <? length (AS.priceHistory m ++ [observed md]))%nat
    then slice_last 1000 (AS.priceHistory m ++ [observed md])
    else AS.priceHistory m ++ [observed md].
Proof. reflexivity. Qed.

Lemma updateParameters_inventoryHistory :
  AS.inventoryHistory m'
  = let ih := AS.inventoryHistory m
              ++ [AS.mkInventoryPoint (AS.md_inventory md) (AS.md_timestamp md)] in
    if (1000 <? length (AS.priceHistory m ++ [observed md]))%nat
    then slice_last 1000 ih else ih.
Proof. reflexivity. Qed.

Lemma updateParameters_sigma :
  AS.σ m'
  = if (50 <? length (AS.priceHistory m'))%nat
    then AS.estimateVolatility
           (AS.mkModel (AS.γ m) (AS.σ m) (AS.T m) (AS.k m) (AS.A m)
              (AS.md_inventory md) (AS.q_target m) (AS.md_midPrice md)
              (AS.md_timestamp md) (AS.priceHistory m') (AS.inventoryHistory m'))
    else AS.σ m.
Proof. reflexivity. Qed.
End Update.

(** X6.  After every market update the price history holds at most 1000
    points and ends with the new observation; the inventory history stays
    as long as the price history if it was before; the parameters γ, T, k,
    A and the target inventory are untouched, and the returned quote is
    the quote of the updated model at the new price, inventory and time. *)
Theorem X6_updateParameters_history (m : AS.Model) (md : AS.MarketData) :
  let m' := fst (AS.updateParameters m md) in
  (length (AS.priceHistory m') <= 1000)%nat
  /\ last (AS.priceHistory m') = Some (observed md)
  /\ (length (AS.inventoryHistory m) = length (AS.priceHistory m) ->
      length (AS.inventoryHistory m') = length (AS.priceHistory m'))
  /\ (AS.γ m' = AS.γ m /\ AS.T m' = AS.T m /\ AS.k m' = AS.k m
      /\ AS.A m' = AS.A m /\ AS.q_target m' = AS.q_target m)
  /\ snd (AS.updateParameters m md)
     = AS.calculateOptimalQuotes m' (AS.md_midPrice md) (AS.md_inventory md)
         (AS.md_timestamp md).
Proof.
  intros m'. subst m'.
  rewrite updateParameters_priceHistory, updateParameters_inventoryHistory.
  cbv zeta.
  split; [| split; [| split; [| split; [done | done]]]].
  - destruct (1000 <? _)%nat eqn:Hlen.
    + rewrite slice_last_length. lia.
    + by apply Nat.ltb_ge in Hlen.
  - destruct (1000 <? _)%nat; [apply slice_last_snoc; lia | apply last_snoc].
  - intros Heq. destruct (1000 <? _)%nat.
    + rewrite !slice_last_length, !length_app, Heq. done.
    + by rewrite !length_app, Heq.
Qed.

Lemma X6_updateParameters_history_witness :
  let m' := fst (AS.updateParameters default_model (AS.mkMarketData 3400 5000 0)) in
  length (AS.inventoryHistory m') = length (AS.priceHistory m').
Proof.
  destruct (X6_updateParameters_history default_model (AS.mkMarketData 3400 5000 0))
    as (_ & _ & H & _).
  apply H. reflexivity.
Defined.

(** X7.  The volatility is not re-estimated while the history holds at
    most 50 points: over any series of updates that leaves the history at
    50 points or fewer, σ keeps its value and the history is the old one
    followed by the observations in order. *)
Theorem X7_sigma_kept_for_50_points (updates : list AS.MarketData) (m : AS.Model) :
  (length (AS.priceHistory m) + length updates <= 50)%nat ->
  AS.σ (run_updates m updates) = AS.σ m
  /\ AS.priceHistory (run_updates m updates)
     = AS.priceHistory m ++ map observed updates.
Proof.
  revert m. induction updates as [| md updates IH]; intros m Hlen.
  - cbn. by rewrite app_nil_r.
  - cbn [length] in Hlen.
    assert (Hh : AS.priceHistory (fst (AS.updateParameters m md))
                 = AS.priceHistory m ++ [observed md]).
    { rewrite updateParameters_priceHistory.
      replace (1000 <? _)%nat with false; [done |].
      symmetry. apply Nat.ltb_ge. rewrite length_app. cbn. lia. }
    assert (Hs : AS.σ (fst (AS.updateParameters m md)) = AS.σ m).
    { rewrite updateParameters_sigma, Hh.
      replace (50 <? _)%nat with false; [done |].
      symmetry. apply Nat.ltb_ge. rewrite length_app. cbn. lia. }
    destruct (IH (fst (AS.updateParameters m md))) as [IHs IHh].
    { rewrite Hh, length_app. cbn. lia. }
    unfold run_updates in *. cbn [fold_left].
    rewrite IHs, IHh, Hs, Hh. split; [done |]. by rewrite <- app_assoc.
Qed.

Lemma X7_sigma_kept_for_50_points_witness :
  AS.σ (run_updates default_model
          [AS.mkMarketData 3400 0 0; AS.mkMarketData 3500 5000 0])
  = AS.σ default_model.
Proof.
  apply (X7_sigma_kept_for_50_points
           [AS.mkMarketData 3400 0 0; AS.mkMarketData 3500 5000 0] default_model).
  cbn. lia.
Defined.

(** On a history of one repeated non-zero price every log-return is 0. *)
Lemma returns_from_constant (p : R) (rest : list AS.PricePoint) :
  p <> 0 -> Forall (fun pp => AS.price pp = p) rest ->
  Forall (fun r => r = 0) (AS.returns_from p rest).
Proof.
  intros Hp. induction 1 as [| pp rest Hpp _ IH]; cbn; [constructor |].
  rewrite Hpp. constructor; [| exact IH].
  replace (p / p) with 1 by (field; done). apply ln_1.
Qed.

Lemma fold_ewma_zero (returns : list R) :
  Forall (fun r => r = 0) returns -> fold_left AS.ewma_step returns 0 = 0.
Proof.
  induction 1 as [| r returns -> _ IH]; cbn; [done |].
  replace (AS.ewma_step 0 0) with 0; [done |].
  unfold AS.ewma_step. lra.
Qed.

(** X8.  With at least two prices in the history the new estimate is never
    below 90% of the old volatility, and on a history that repeats one
    non-zero price it is exactly 90% of it: a flat market lets the
    volatility decay by a tenth per estimate, without a floor. *)
Theorem X8_estimateVolatility_decay (m : AS.Model) (p : R) :
  (2 <= length (AS.priceHistory m))%nat ->
  0.9 * AS.σ m <= AS.estimateVolatility m
  /\ (p <> 0 -> Forall (fun pp => AS.price pp = p) (AS.priceHistory m) ->
      AS.estimateVolatility m = 0.9 * AS.σ m).
Proof.
  intros Hlen. unfold AS.estimateVolatility.
  replace (length (AS.priceHistory m) <? 2)%nat with false
    by (symmetry; apply Nat.ltb_ge; lia).
  split.
  - match goal with |- context [sqrt ?x] => pose proof (sqrt_pos x) end. lra.
  - intros Hp Hall.
    destruct (AS.priceHistory m) as [| p0 rest]; [cbn in Hlen; lia |].
    apply Forall_cons in Hall as [Hp0 Hrest].
    pose proof (returns_from_constant p rest Hp Hrest) as Hzero.
    unfold AS.log_returns, AS.ewma_loop. rewrite Hp0.
    destruct (AS.returns_from p rest) as [| r0 returns]; cbn [nth tail].
    + cbn. replace (0 * (0 * 1) * (365 * 24 * 60 * 60 / 5)) with 0 by lra.
      rewrite sqrt_0. lra.
    + apply Forall_cons in Hzero as [-> Hzero].
      replace (0 ^ 2) with 0 by lra. rewrite (fold_ewma_zero _ Hzero).
      replace (0 * (365 * 24 * 60 * 60 / 5)) with 0 by lra.
      rewrite sqrt_0. lra.
Qed.

Lemma X8_estimateVolatility_decay_witness :
  AS.estimateVolatility flat_history_model = 0.9 * AS.σ flat_history_model.
Proof.
  destruct (X8_estimateVolatility_decay flat_history_model 100) as [_ H].
  - rewrite (proj2 flat_history_model_state). cbn. lia.
  - apply H; [lra |]. rewrite (proj2 flat_history_model_state).
    repeat constructor.
Defined.

(** ** The trade statistics of the model *)

Lemma sum_R_app (l1 l2 : list R) : sum_R (l1 ++ l2) = sum_R l1 + sum_R l2.
Proof.
  unfold sum_R. induction l1 as [| x l1 IH]; cbn; [lra | rewrite IH; lra].
Qed.

(** X9.  After any series of trades, started from the constructor's
    statistics, the model's statistics count the trades, total their sizes
    and PnL, and [maxDrawdown] is the PnL of the worst single losing trade
    (0 if no trade lost): it is never positive, no trade's PnL is below
    it, and it is 0 or the PnL of one of the trades. *)
Theorem X9_updateStats_totals (m : AS.Model) (trades : list AS.Trade) :
  let stats := run_stats m AS.initial_stats trades in
  AS.totalTrades stats = length trades
  /\ AS.totalVolume stats = sum_R (map AS.trade_size trades)
  /\ AS.totalPnL stats = sum_R (map AS.trade_pnl trades)
  /\ AS.maxDrawdown stats <= 0
  /\ Forall (fun tr => AS.maxDrawdown stats <= AS.trade_pnl tr) trades
  /\ (AS.maxDrawdown stats = 0
      \/ exists tr, tr ∈ trades /\ AS.maxDrawdown stats = AS.trade_pnl tr).
Proof.
  induction trades as [| tr trades IH] using rev_ind.
  - cbn. repeat split; first [lra | constructor | by left].
  - cbv zeta in *. unfold run_stats in *. rewrite fold_left_app. cbn [fold_left].
    set (stats := fold_left (AS.updateStats m) trades AS.initial_stats) in *.
    destruct IH as (Hn & Hv & Hp & Hd & Hall & Hex).
    rewrite !map_app, !sum_R_app, length_app. cbn [map length sum_R fold_right].
    cbn [AS.updateStats AS.totalTrades AS.totalVolume AS.totalPnL AS.maxDrawdown].
    set (dd := if Rltb (AS.trade_pnl tr) 0
               then Rmin (AS.maxDrawdown stats) (AS.trade_pnl tr)
               else AS.maxDrawdown stats).
    assert (Hdd : dd <= AS.maxDrawdown stats /\ dd <= AS.trade_pnl tr
                  /\ (dd = AS.maxDrawdown stats \/ dd = AS.trade_pnl tr)).
    { subst dd. destruct (Rltb _ 0) eqn:Hneg.
      - pose proof (Rmin_l (AS.maxDrawdown stats) (AS.trade_pnl tr)).
        pose proof (Rmin_r (AS.maxDrawdown stats) (AS.trade_pnl tr)).
        split; [done | split; [done |]].
        unfold Rmin. destruct (Rle_dec _ _); auto.
      - apply Rltb_false in Hneg. split; [lra | split; [lra | by left]]. }
    clearbody dd. destruct Hdd as (Hle & Hletr & Hor).
    split; [lia |]. split; [rewrite Hv; lra |]. split; [rewrite Hp; lra |].
    split; [lra |]. split.
    + apply Forall_app_2.
      * eapply Forall_impl; [exact Hall |]. cbn. intros tr0 H0. lra.
      * constructor; [done | constructor].
    + destruct Hor as [Hor | Hor].
      * destruct Hex as [Hz | (tr0 & Hin & Heq)]; [left; lra |].
        right. exists tr0. split; [apply elem_of_app; by left | lra].
      * right. exists tr. split; [| done]. apply elem_of_app. right.
        apply list_elem_of_here.
Qed.

(** ** The standalone calculator *)

(** X10.  The calculator treats a time remaining of 0 like a missing one:
    the quotes at 0 are the quotes without the argument, which are the
    quotes at the full horizon T (for T <> 0).  Its bid and ask are always
    symmetric around the reservation price and one spread apart. *)
Theorem X10_calculator_zero_time (c : Calculator.Calc) (price : R)
    (inv : Calculator.Inventory) (timeRemaining : option R) :
  Calculator.T c <> 0 ->
  let quotes := Calculator.calculateOptimalQuotes c price inv timeRemaining in
  Calculator.calculateOptimalQuotes c price inv (Some 0)
  = Calculator.calculateOptimalQuotes c price inv None
  /\ Calculator.calculateOptimalQuotes c price inv None
     = Calculator.calculateOptimalQuotes c price inv (Some (Calculator.T c))
  /\ Calculator.midPrice quotes = Calculator.reservationPrice quotes
  /\ Calculator.askPrice quotes - Calculator.bidPrice quotes
     = Calculator.optimalSpread quotes.
Proof.
  intros HT quotes.
  assert (H0 : or_default (Some 0) (Calculator.T c) = Calculator.T c).
  { unfold or_default. destruct (Req_dec_T 0 0); [done | lra]. }
  assert (HTT : or_default (Some (Calculator.T c)) (Calculator.T c) = Calculator.T c)
    by (by apply or_default_number).
  split; [| split; [| split]].
  - unfold Calculator.calculateOptimalQuotes, Calculator.calculateReservationPrice,
      Calculator.calculateOptimalSpread. by rewrite H0.
  - unfold Calculator.calculateOptimalQuotes, Calculator.calculateReservationPrice,
      Calculator.calculateOptimalSpread. by rewrite HTT.
  - subst quotes. cbn. lra.
  - subst quotes. cbn. lra.
Qed.

Lemma X10_calculator_zero_time_witness :
  let calc := Calculator.constructor Calculator.config in
  let inv := Calculator.mkInventory 5 10000 5 in
  Calculator.calculateOptimalQuotes calc 3400 inv (Some 0)
  = Calculator.calculateOptimalQuotes calc 3400 inv None.
Proof.
  intros calc inv.
  destruct (X10_calculator_zero_time calc 3400 inv None) as [H _]; [cbn; lra |].
  exact H.
Defined.

(** X11.  For a portfolio of positive total value the calculator
    recommends SELL exactly when the ETH share of the value exceeds 60%
    (2·ETH value > 3·USDT), BUY exactly when it is below 40%
    (3·ETH value < 2·USDT), and HOLD otherwise. *)
Theorem X11_portfolio_recommendation (inv : Calculator.Inventory) (price : R) :
  let ethValue := Calculator.ethBalance inv * price in
  let usdt := Calculator.usdtBalance inv in
  let metrics := Calculator.calculatePortfolioMetrics inv price in
  0 < ethValue + usdt ->
  (Calculator.recommendation metrics = Calculator.SELL <-> 2 * ethValue > 3 * usdt)
  /\ (Calculator.recommendation metrics = Calculator.BUY <-> 3 * ethValue < 2 * usdt)
  /\ (Calculator.recommendation metrics = Calculator.HOLD
      <-> 2 * ethValue <= 3 * usdt /\ 2 * usdt <= 3 * ethValue).
Proof.
  intros ethValue usdt metrics Htotal.
  subst metrics. cbn [Calculator.recommendation Calculator.calculatePortfolioMetrics].
  fold ethValue usdt.
  set (ratio := ethValue / (ethValue + usdt)).
  assert (Hratio : ratio * (ethValue + usdt) = ethValue) by (subst ratio; field; lra).
  assert (Hsell : ratio > 0.6 <-> 2 * ethValue > 3 * usdt) by (split; intros; nra).
  assert (Hbuy : ratio < 0.4 <-> 3 * ethValue < 2 * usdt) by (split; intros; nra).
  unfold Rgtb.
  destruct (Rltb 0.1 (Rabs (ratio - 0.5))) eqn:Habs.
  - apply Rltb_true in Habs.
    destruct (Rltb 0 (ratio - 0.5)) eqn:Hpos.
    + apply Rltb_true in Hpos. rewrite Rabs_pos_eq in Habs by lra.
      assert (ratio > 0.6) by lra.
      repeat split; try done; intros; try lra; apply Hsell in H; lra.
    + apply Rltb_false in Hpos. rewrite Rabs_left1 in Habs by lra.
      assert (ratio < 0.4) by lra.
      repeat split; try done; intros; try lra; apply Hbuy in H; lra.
  - apply Rltb_false in Habs.
    assert (0.4 <= ratio <= 0.6).
    { destruct (Rle_dec 0 (ratio - 0.5)).
      - rewrite Rabs_pos_eq in Habs by lra. lra.
      - rewrite Rabs_left1 in Habs by lra. lra. }
    repeat split; try done; intros; try nra.
Qed.

Lemma X11_portfolio_recommendation_witness :
  Calculator.recommendation
    (Calculator.calculatePortfolioMetrics (Calculator.mkInventory 5 10000 5) 3400)
  = Calculator.SELL.
Proof.
  destruct (X11_portfolio_recommendation (Calculator.mkInventory 5 10000 5) 3400)
    as [H _]; [cbn; lra |].
  apply H. cbn. lra.
Defined.

(** X30.  A simulated price never falls below the floor of 100.  For a
    random number between 0 and 1, a non-negative price, volatility and
    time step, it moves away from a price by at most the fraction
    volatility * sqrt(timeStep) of it (or up to the floor), and the random
    number 0.5 leaves a price of at least 100 where it is. *)
Theorem X30_simulated_price_bounds (random currentPrice volatility timeStep : R) :
  0 <= random <= 1 -> 0 <= currentPrice -> 0 <= volatility -> 0 <= timeStep ->
  let next := Calculator.simulatePriceMovement random currentPrice volatility
                (Some timeStep) in
  let move := currentPrice * (volatility * sqrt timeStep) in
  100 <= next
  /\ next <= Rmax 100 (currentPrice + move)
  /\ (100 <= currentPrice - move -> currentPrice - move <= next)
  /\ (100 <= currentPrice ->
      Calculator.simulatePriceMovement 0.5 currentPrice volatility (Some timeStep)
      = currentPrice).
Proof.
  intros Hrandom Hprice Hvol Hstep next move. subst next.
  unfold Calculator.simulatePriceMovement.
  pose proof (sqrt_pos timeStep) as Hsqrt.
  assert (Hscale : 0 <= volatility * sqrt timeStep) by nra.
  assert (Hmove : 0 <= move) by (subst move; nra).
  set (shock := (random - 0.5) * 2).
  assert (Hshock : -1 <= shock <= 1) by (subst shock; lra).
  assert (Hchange : currentPrice * (0 * timeStep + volatility * sqrt timeStep * shock)
                    = move * shock) by (subst move; ring).
  rewrite Hchange.
  split; [apply Rmax_l |].
  split; [apply Rle_max_compat_l; nra |].
  split.
  - intros Hfloor. etrans; [| apply Rmax_r]. nra.
  - intros Hfloor.
    replace (currentPrice + currentPrice
             * (0 * timeStep + volatility * sqrt timeStep * ((0.5 - 0.5) * 2)))
      with currentPrice by ring.
    by rewrite Rmax_right.
Qed.

Lemma X30_simulated_price_bounds_witness :
  100 <= Calculator.simulatePriceMovement 0.25 3400 0.02 (Some (1 / 60)).
Proof.
  destruct (X30_simulated_price_bounds 0.25 3400 0.02 (1 / 60)) as [H _];
    [lra | lra | lra | lra |].
  exact H.
Defined.

(** ** The risk manager *)

(** [checkRiskLimits] changes the two circuit breakers only. *)
Lemma checkRiskLimits_frame (this : RM.State) (pv : R) :
  let this' := RM.checkRiskLimits this pv in
  RM.maxDailyLoss this' = RM.maxDailyLoss this
  /\ RM.maxPositionSize this' = RM.maxPositionSize this
  /\ RM.maxOrderSize this' = RM.maxOrderSize this
  /\ RM.maxSlippage this' = RM.maxSlippage this
  /\ RM.maxDrawdown this' = RM.maxDrawdown this
  /\ RM.dailyPnL this' = RM.dailyPnL this
  /\ RM.currentPosition this' = RM.currentPosition this
  /\ RM.peakValue this' = RM.peakValue this
  /\ RM.lastResetDate this' = RM.lastResetDate this.
Proof.
  unfold RM.checkRiskLimits.
  destruct (Rltb _ _); [done |].
  destruct (Rgtb _ _); [done |].
  by destruct (Rgtb _ _).
Qed.

(** The peak value after an update is the larger of the old peak and the
    portfolio value of the update. *)
Lemma updateRiskMetrics_peakValue (this : RM.State) (res : RM.ExecutionResult) :
  RM.peakValue (RM.updateRiskMetrics this res)
  = Rmax (RM.peakValue this)
         (RM.calculatePortfolioValue (RM.currentInventory res) (RM.res_currentPrice res)).
Proof.
  unfold RM.updateRiskMetrics.
  set (pv := RM.calculatePortfolioValue _ _).
  set (this1 := RM.set_dailyPnL _ this).
  set (this2 := match RM.res_direction res with
                | RM.buy => _ | RM.sell => _ end).
  assert (Hpeak : RM.peakValue this2 = RM.peakValue this)
    by (subst this2; by destruct (RM.res_direction res)).
  match goal with
  | |- context [RM.checkRiskLimits ?s pv] =>
      destruct (checkRiskLimits_frame s pv) as (_ & _ & _ & _ & _ & _ & _ & -> & _)
  end.
  unfold Rgtb. rewrite Hpeak.
  destruct (Rltb (RM.peakValue this) pv) eqn:Hlt.
  - apply Rltb_true in Hlt. cbn [RM.peakValue RM.set_peakValue].
    rewrite Rmax_right; lra.
  - apply Rltb_false in Hlt. rewrite Hpeak. rewrite Rmax_left; lra.
Qed.

Lemma run_call_peakValue (this : RM.State) (c : RM.Call) :
  RM.peakValue this <= RM.peakValue (RM.run_call this c).
Proof.
  destruct c as [today now order inv md | res | |].
  - cbn [RM.run_call RM.validateOrder fst].
    destruct (resetDailyPnLIfNeeded_frame this today) as (_ & _ & _ & _ & _ & _ & -> & _).
    lra.
  - cbn [RM.run_call]. rewrite updateRiskMetrics_peakValue. apply Rmax_l.
  - cbn. lra.
  - cbn. lra.
Qed.

(** X12.  The estimated PnL of an order is a cost of 0.2% of its notional
    value, the same for a buy and a sell. *)
Theorem X12_estimateOrderPnL_cost (order : RM.Order) (md : RM.MarketData) :
  RM.estimateOrderPnL order md
  = - (0.002 * RM.totalSize order * RM.currentPrice md).
Proof. unfold RM.estimateOrderPnL. destruct (RM.direction order); lra. Qed.

(** X13.  The peak value never decreases, whatever calls are made on the
    risk manager, and right after an update it is at least the portfolio
    value of that update. *)
Theorem X13_peakValue_monotone (this : RM.State) (calls : list RM.Call) :
  RM.peakValue this <= RM.peakValue (RM.run_calls this calls)
  /\ forall res,
       RM.calculatePortfolioValue (RM.currentInventory res) (RM.res_currentPrice res)
       <= RM.peakValue (RM.run_calls this (calls ++ [RM.CallUpdateRiskMetrics res])).
Proof.
  split.
  - revert this. induction calls as [| c calls IH]; intros this; [cbn; lra |].
    cbn [RM.run_calls fold_left]. etrans; [apply (run_call_peakValue this c) |].
    apply IH.
  - intros res. unfold RM.run_calls. rewrite fold_left_app. cbn [fold_left RM.run_call].
    rewrite updateRiskMetrics_peakValue. apply Rmax_r.
Qed.

(** X14.  [getRiskStatus] measures the drawdown of the peak value against
    itself: whatever the state, the drawdown it reports is 0, and so is
    the percentage of the drawdown limit; the portfolio value it reports
    is the peak value, or 10000 when that is 0. *)
Theorem X14_getRiskStatus_no_drawdown (this : RM.State) :
  RM.maxDrawdown this <> 0 ->
  RM.drawdown (RM.getRiskStatus this) = 0
  /\ RM.drawdownPercent (RM.getRiskStatus this) = 0
  /\ RM.portfolioValue (RM.getRiskStatus this)
     = (if Req_dec_T (RM.peakValue this) 0 then 10000 else RM.peakValue this).
Proof.
  intros Hmax.
  assert (H : RM.drawdown (RM.getRiskStatus this) = 0).
  { cbn [RM.drawdown RM.getRiskStatus]. unfold RM.calculateDrawdown, or_default.
    destruct (Req_dec_T (RM.peakValue this) 0); [done |]. field. done. }
  split; [done | split].
  - cbn [RM.drawdownPercent RM.getRiskStatus].
    cbn [RM.drawdown RM.getRiskStatus] in H. rewrite H. field. done.
  - cbn. unfold or_default. done.
Qed.

Lemma X14_getRiskStatus_no_drawdown_witness :
  RM.drawdown (RM.getRiskStatus losing_risk) = 0.
Proof.
  destruct (X14_getRiskStatus_no_drawdown losing_risk) as [H _]; [| exact H].
  rewrite losing_risk_state. cbn. lra.
Defined.

(** X15.  An update that leaves the daily loss and the drawdown within
    their limits but the position beyond its limit only pauses trading:
    the emergency stop keeps its value, and after [resumeTrading] trading
    is allowed again unless the emergency stop was already set. *)
Theorem X15_position_breach_pauses (this : RM.State) (res : RM.ExecutionResult) :
  let this' := RM.updateRiskMetrics this res in
  let pv := RM.calculatePortfolioValue (RM.currentInventory res) (RM.res_currentPrice res) in
  - RM.maxDailyLoss this' <= RM.dailyPnL this' ->
  RM.calculateDrawdown this' pv <= RM.maxDrawdown this' ->
  RM.maxPositionSize this' < Rabs (RM.currentPosition this') ->
  RM.tradingPaused this' = true
  /\ RM.isTradingAllowed this' = false
  /\ RM.emergencyStop this' = RM.emergencyStop this
  /\ RM.isTradingAllowed (RM.resumeTrading this') = negb (RM.emergencyStop this).
Proof.
  intros this' pv. subst this'. unfold RM.updateRiskMetrics. fold pv.
  set (this1 := RM.set_dailyPnL _ this).
  set (this2 := match RM.res_direction res with
                | RM.buy => _ | RM.sell => _ end).
  set (this3 := if Rgtb pv (RM.peakValue this2) then _ else _).
  assert (Hstop : RM.emergencyStop this3 = RM.emergencyStop this).
  { subst this3 this2. by destruct (Rgtb _ _), (RM.res_direction res). }
  destruct (checkRiskLimits_frame this3 pv)
    as (HL & HP & _ & _ & HD & Hpnl & Hpos & Hpeak & _).
  cbn zeta in HL, HP, HD, Hpnl, Hpos, Hpeak.
  unfold RM.calculateDrawdown at 1. rewrite HL, HP, HD, Hpnl, Hpos, Hpeak.
  fold (RM.calculateDrawdown this3 pv).
  intros Hloss Hdraw Hbreach.
  unfold RM.checkRiskLimits, Rgtb.
  rewrite (proj2 (Rltb_false _ _)) by lra.
  rewrite (proj2 (Rltb_false (RM.maxDrawdown this3) _)) by lra.
  rewrite (proj2 (Rltb_true (RM.maxPositionSize this3) _)) by lra.
  unfold RM.isTradingAllowed. cbn. rewrite Hstop.
  by destruct (RM.emergencyStop this).
Qed.

(** The state after the large fill: a position of 11 against the limit of
    10, trading paused, no emergency stop. *)
Lemma large_fill_state :
  RM.updateRiskMetrics default_risk large_fill
  = RM.mkState 1000 10 1 0.005 0.1 0 11 10000 monday false true.
Proof.
  unfold large_fill, RM.updateRiskMetrics, RM.checkRiskLimits, RM.calculateDrawdown,
    RM.calculatePortfolioValue, Rgtb.
  cbn.
  replace (Rltb 0 (0 * 3400 + 10000)) with true by (symmetry; apply Rltb_true; lra).
  cbn. destruct (Req_dec_T (0 * 3400 + 10000) 0) as [Hz | _]; [lra |].
  replace (Rltb (0 + 0) (- (1000))) with false by (symmetry; apply Rltb_false; lra).
  replace (Rltb 0.1 _) with false by (symmetry; apply Rltb_false; lra).
  replace (Rltb 10 _) with true.
  2:{ symmetry; apply Rltb_true. rewrite Rabs_pos_eq; lra. }
  unfold RM.pauseTrading, RM.set_tradingPaused, RM.set_dailyPnL,
    RM.set_currentPosition, RM.set_peakValue. cbn.
  f_equal; lra.
Qed.

Lemma X15_position_breach_pauses_witness :
  RM.isTradingAllowed (RM.updateRiskMetrics default_risk large_fill) = false
  /\ RM.isTradingAllowed (RM.resumeTrading (RM.updateRiskMetrics default_risk large_fill))
     = true.
Proof.
  destruct (X15_position_breach_pauses default_risk large_fill) as (_ & H1 & _ & H2).
  - rewrite large_fill_state. cbn. lra.
  - rewrite large_fill_state. unfold RM.calculateDrawdown, RM.calculatePortfolioValue.
    cbn [RM.peakValue RM.maxDrawdown RM.currentInventory RM.res_currentPrice
         large_fill no_holdings RM.ETH RM.USDT].
    destruct (Req_dec_T 10000 0); [lra |].
    replace ((10000 - (0 * 3400 + 10000)) / 10000) with 0 by (field; lra). lra.
  - rewrite large_fill_state. cbn. rewrite Rabs_pos_eq; lra.
  - split; [exact H1 | exact H2].
Defined.

(** X16.  The recommended position size is at least 0.01 and at most the
    larger of 0.01 and the order size limit; for a non-negative base size
    and a volatility of at most 1 it is never above the larger of 0.01
    and the base size. *)
Theorem X16_recommendPositionSize_bounds (this : RM.State) (baseSize volatility : R) :
  0.01 <= RM.recommendPositionSize this baseSize volatility
          <= Rmax (RM.maxOrderSize this) 0.01
  /\ (0 <= baseSize -> volatility <= 1 ->
      RM.recommendPositionSize this baseSize volatility <= Rmax baseSize 0.01).
Proof.
  unfold RM.recommendPositionSize.
  split; [split |].
  - apply Rmax_r.
  - apply Rle_max_compat_r, Rmin_r.
  - intros Hbase Hvol.
    apply Rle_max_compat_r. etrans; [apply Rmin_l |].
    destruct (Rgtb volatility 0.05) eqn:Hv;
      [apply Rltb_true in Hv |];
      destruct (Rgtb (RM.positionPercent _) 60), (Rgtb (RM.dailyPnLPercent _) 60);
      nra.
Qed.

Lemma X16_recommendPositionSize_bounds_witness :
  RM.recommendPositionSize default_risk 0.5 0.02 <= Rmax 0.5 0.01.
Proof.
  destruct (X16_recommendPositionSize_bounds default_risk 0.5 0.02) as [_ H].
  apply H; lra.
Defined.

(** X17.  The first reduction of [recommendPositionSize] compares the
    signed daily PnL with 60% of the loss limit, so it is taken on a
    profit above that level and never on a loss: for a positive loss
    limit the test holds exactly when dailyPnL > 0.6 * maxDailyLoss, and
    every state with a daily PnL at or below that level, however large
    the loss, gets the recommendation of the same state with a daily PnL
    of 0. *)
Theorem X17_recommendPositionSize_daily_pnl (this : RM.State)
    (baseSize volatility : R) :
  0 < RM.maxDailyLoss this ->
  (Rgtb (RM.dailyPnLPercent (RM.getRiskStatus this)) 60 = true
   <-> 0.6 * RM.maxDailyLoss this < RM.dailyPnL this)
  /\ (RM.dailyPnL this <= 0.6 * RM.maxDailyLoss this ->
      RM.recommendPositionSize this baseSize volatility
      = RM.recommendPositionSize (RM.set_dailyPnL 0 this) baseSize volatility).
Proof.
  intros Hmax.
  assert (Hiff : forall pnl, Rgtb (pnl / RM.maxDailyLoss this * 100) 60 = true
                             <-> 0.6 * RM.maxDailyLoss this < pnl).
  { intros pnl. unfold Rgtb. rewrite Rltb_true.
    assert (Hq : pnl / RM.maxDailyLoss this * RM.maxDailyLoss this = pnl)
      by (field; lra).
    split; intros; nra. }
  split; [apply Hiff |].
  intros Hpnl. unfold RM.recommendPositionSize.
  cbn [RM.dailyPnLPercent RM.positionPercent RM.getRiskStatus RM.set_dailyPnL
       RM.dailyPnL RM.maxDailyLoss RM.currentPosition RM.maxPositionSize
       RM.maxOrderSize].
  destruct (Rgtb (RM.dailyPnL this / _ * 100) 60) eqn:H1.
  { apply Hiff in H1. lra. }
  destruct (Rgtb (0 / _ * 100) 60) eqn:H2.
  { apply Hiff in H2. lra. }
  done.
Qed.

Lemma X17_recommendPositionSize_daily_pnl_witness :
  RM.recommendPositionSize losing_risk 0.5 0.02
  = RM.recommendPositionSize (RM.set_dailyPnL 0 losing_risk) 0.5 0.02.
Proof.
  destruct (X17_recommendPositionSize_daily_pnl losing_risk 0.5 0.02) as [_ H].
  - rewrite losing_risk_state. cbn. lra.
  - apply H. rewrite losing_risk_state. cbn. lra.
Defined.

(** X18.  [validateOrder] returns true exactly when, in the state after
    the daily reset, trading is allowed, the order size and the size of
    the resulting position are within their limits, the daily PnL with
    the estimated cost of the order stays above the loss limit, the
    spread is at most 1%, the data is at most 30 s old, the 24h change is
    at least -20% and the slippage test passes: for a current price other
    than 0 the slippage |targetPrice - currentPrice| / currentPrice is at
    most its limit, and for a current price of 0 the target price is 0
    too (the slippage is then NaN; for any other target price it is
    infinite and the order is rejected). *)
Theorem X18_validateOrder_accepts (this : RM.State) (today : string) (now : R)
    (order : RM.Order) (inv : RM.Inventory) (md : RM.MarketData) :
  let this1 := fst (RM.validateOrder this today now order inv md) in
  snd (RM.validateOrder this today now order inv md) = inr true
  <-> RM.isTradingAllowed this1 = true
      /\ RM.totalSize order <= RM.maxOrderSize this
      /\ Rabs (RM.calculateNewPosition order inv) <= RM.maxPositionSize this
      /\ - RM.maxDailyLoss this <= RM.dailyPnL this1 + RM.estimateOrderPnL order md
      /\ RM.bidAskSpread md <= 0.01
      /\ now - RM.timestamp md <= 30000
      /\ -0.2 <= RM.priceChange24h md
      /\ (RM.currentPrice md <> 0 ->
          Rabs (RM.targetPrice order - RM.currentPrice md) / RM.currentPrice md
          <= RM.maxSlippage this)
      /\ (RM.currentPrice md = 0 -> RM.targetPrice order = 0).
Proof.
  cbn [RM.validateOrder fst snd].
  destruct (resetDailyPnLIfNeeded_frame this today)
    as (HL & HP & HO & HS & _).
  cbn zeta in HL, HP, HO, HS. rewrite <- HL, <- HP, <- HO, <- HS.
  set (this1 := RM.resetDailyPnLIfNeeded today this).
  unfold RM.validateOrder_checks, RM.validateMarketConditions, RM.validateSlippage,
    Rgtb.
  destruct (RM.isTradingAllowed this1); cbn [negb RM.throw_if RM.seq_ RM.ok];
    [| split; [done | by intros [? _]]].
  repeat match goal with
  | |- context [RM.throw_if (Rltb ?a ?b) _] =>
      let H := fresh "H" in
      destruct (Rltb a b) eqn:H; cbn [RM.throw_if RM.seq_ RM.ok];
      [apply Rltb_true in H; split; [done | intros; exfalso; lra]
      | apply Rltb_false in H]
  end.
  unfold js_div.
  destruct (Req_dec_T (RM.currentPrice md) 0) as [Hzero | Hprice].
  - rewrite Hzero, Rminus_0_r.
    pose proof (Rabs_pos (RM.targetPrice order)) as Hnn.
    destruct (Rltb 0 (Rabs (RM.targetPrice order))) eqn:Hpos.
    + apply Rltb_true in Hpos. cbn. split; [done |].
      intros (_ & _ & _ & _ & _ & _ & _ & _ & Htarget).
      rewrite (Htarget eq_refl), Rabs_R0 in Hpos. lra.
    + apply Rltb_false in Hpos.
      rewrite (proj2 (Rltb_false (Rabs (RM.targetPrice order)) 0)) by lra.
      cbn. split; [intros _ | done].
      do 7 (split; [first [done | lra] |]).
      split; [done |]. intros _.
      destruct (Req_dec_T (RM.targetPrice order) 0) as [Ht | Ht]; [done |].
      apply Rabs_pos_lt in Ht. lra.
  - cbn [Qgtb]. unfold Rgtb.
    destruct (Rltb _ _) eqn:Hslip; cbn [RM.throw_if RM.seq_ RM.ok].
    + apply Rltb_true in Hslip. split; [done |].
      intros (_ & _ & _ & _ & _ & _ & _ & Hle & _). specialize (Hle Hprice). lra.
    + apply Rltb_false in Hslip. split; [intros _ | done].
      do 7 (split; [first [done | lra] |]).
      split; [done | by intros].
Qed.

(** ** The TWAP executor beyond the claims *)

(** *** The plan and the backend calls *)

(** X19.  When the executor's minimum size is at most its maximum size,
    every part of a plan has a size between the two, whatever the total
    size, the number of parts and the quote; every part is pending,
    carries its position as index and targets the quote's reservation
    price (0 without a quote). *)
Theorem X19_plan_parts_within_limits (this : TW.Executor) (clock : nat -> R)
    (totalSize duration : R) (maxParts : nat) (quotes : option TW.Quotes)
    (i : nat) (p : TW.Part) :
  TW.minOrderSize this <= TW.maxOrderSize this ->
  TW.calculateExecutionPlan this clock totalSize duration maxParts quotes !! i = Some p ->
  TW.minOrderSize this <= TW.size p <= TW.maxOrderSize this
  /\ TW.status p = TW.pending
  /\ TW.partIndex p = i
  /\ TW.targetPrice p = match quotes with
                        | Some qs => TW.reservationPrice qs
                        | None => 0
                        end.
Proof.
  intros Hlimits Hp.
  assert (Hi : (i < maxParts)%nat).
  { apply lookup_lt_Some in Hp. by rewrite plan_length in Hp. }
  rewrite plan_lookup in Hp by done. injection Hp as <-.
  cbn [TW.size TW.status TW.partIndex TW.targetPrice TW.plan_part].
  split; [| done].
  unfold TW.part_size. split; [apply Rmax_l |].
  apply Rmax_lub; [done | apply Rmin_l].
Qed.

Lemma X19_plan_parts_within_limits_witness :
  TW.minOrderSize default_executor <= TW.size first_part
                                   <= TW.maxOrderSize default_executor.
Proof.
  destruct (X19_plan_parts_within_limits default_executor (fun _ => 1000)
              1 300000 10 None 0 first_part) as [H _].
  - cbn. lra.
  - reflexivity.
  - exact H.
Defined.

(** X20.  A backend call that succeeds has passed the slippage test and
    books no PnL.  For a buy of a part of positive size the filled size
    is the quoted amount, within [maxSlippage] (relative) of the part's
    size, at the part's target price.  For a sell of a part of positive
    size and positive target price the filled size is the part's size,
    the fill price is the quoted amount per unit, within [maxSlippage]
    (relative) of the target price. *)
Theorem X20_fills_respect_slippage (this : TW.Executor) (part : TW.Part)
    (reply : TW.BackendReply) (tx : TW.TxResult) :
  0 < TW.size part ->
  (TW.executeBuyOrder this part reply = inr tx ->
     Rabs (TW.tx_size tx - TW.size part) <= TW.maxSlippage this * TW.size part
     /\ TW.tx_price tx = TW.targetPrice part
     /\ TW.tx_pnl tx = 0)
  /\ (0 < TW.targetPrice part ->
      TW.executeSellOrder this part reply = inr tx ->
        Rabs (TW.tx_price tx - TW.targetPrice part)
        <= TW.maxSlippage this * TW.targetPrice part
        /\ TW.tx_size tx = TW.size part
        /\ TW.tx_pnl tx = 0).
Proof.
  intros Hsize. split.
  - unfold TW.executeBuyOrder, TW.after_quote.
    destruct reply as [msg | dst [msg | msg | gas]]; try done;
      rewrite js_div_finite by lra; cbn [Qgtb];
      destruct (Rgtb _ _) eqn:Hs; try done.
    intros [= <-]. cbn. apply Rgtb_false in Hs.
    split; [| done].
    apply (Rmult_le_compat_r (TW.size part)) in Hs; [| lra].
    replace (Rabs (dst - TW.size part) / TW.size part * TW.size part)
      with (Rabs (dst - TW.size part)) in Hs by (field; lra).
    done.
  - intros Hprice.
    assert (Hexp : 0 < TW.size part * TW.targetPrice part) by nra.
    unfold TW.executeSellOrder, TW.after_quote.
    destruct reply as [msg | dst [msg | msg | gas]]; try done;
      rewrite js_div_finite by lra; cbn [Qgtb];
      destruct (Rgtb _ _) eqn:Hs; try done.
    intros [= <-]. cbn. apply Rgtb_false in Hs.
    split; [| done].
    replace (dst / TW.size part - TW.targetPrice part)
      with ((dst - TW.size part * TW.targetPrice part) / TW.size part) by (field; lra).
    unfold Rdiv at 1. rewrite Rabs_mult, (Rabs_pos_eq (/ TW.size part)).
    2:{ left. by apply Rinv_0_lt_compat. }
    apply (Rmult_le_compat_r (TW.targetPrice part)) in Hs; [| lra].
    replace (Rabs (dst - TW.size part * TW.targetPrice part)
             / (TW.size part * TW.targetPrice part) * TW.targetPrice part)
      with (Rabs (dst - TW.size part * TW.targetPrice part) * / TW.size part) in Hs
      by (field; lra).
    done.
Qed.

Lemma X20_fills_respect_slippage_witness :
  let tx := TW.mkTxResult (TW.targetPrice first_part) 0.1 0 21000 in
  Rabs (TW.tx_size tx - TW.size first_part)
  <= TW.maxSlippage default_executor * TW.size first_part.
Proof.
  intros tx.
  assert (Hsize : TW.size first_part = 0.1).
  { unfold first_part, TW.plan_part, TW.part_size. cbn [TW.size].
    replace (INR 10) with 10 by (cbn; lra).
    destruct default_executor_limits as (-> & -> & _).
    rewrite Rmin_right by lra. rewrite Rmax_right by lra. lra. }
  destruct (X20_fills_respect_slippage default_executor first_part
              (TW.quote_ok 0.1 (TW.mined 21000)) tx) as [H _].
  - rewrite Hsize. lra.
  - apply H. unfold TW.executeBuyOrder. cbn zeta. rewrite Hsize.
    rewrite js_div_finite by lra. cbn [Qgtb].
    rewrite (proj2 (Rgtb_false _ _)); [done |].
    destruct default_executor_limits as (_ & _ & ->).
    replace (0.1 - 0.1) with 0 by lra. rewrite Rabs_R0. lra.
Defined.

Section Closure.
Variable this : TW.Executor.
Implicit Types (s : TW.State) (r idx : nat) (oid : string).

Lemma finished_refl h : finished h h.
Proof. by left. Qed.

Lemma completeOrder_finished s oid now :
  finished (TW.heap s) (TW.heap (TW.completeOrder s oid now))
  /\ TW.executionHistory (TW.completeOrder s oid now) = TW.executionHistory s.
Proof.
  unfold TW.completeOrder.
  destruct (TW.activeOrders s !! oid) as [r' |]; [| split; [by left | done]].
  destruct (alter _ r' (TW.heap s) !! r'); cbn; (split; [right; eauto | done]).
Qed.

Lemma failOrder_finished s oid e now :
  finished (TW.heap s) (TW.heap (TW.failOrder s oid e now))
  /\ TW.executionHistory (TW.failOrder s oid e now) = TW.executionHistory s.
Proof.
  unfold TW.failOrder.
  destruct (TW.activeOrders s !! oid) as [r' |]; [| split; [by left | done]].
  cbn. split; [right; eauto | done].
Qed.

(** What one run of the closure does to the stored objects and to the
    trade history: nothing but finishing an object; or the current
    pending part is marked failed; or the current pending part, whose
    time has come, is marked executed, the totals of the object found
    under the order's id grow by the fill, the counter advances and one
    trade is appended. *)
Lemma executeNextPart_cases s r now later reply :
  let s' := TW.executeNextPart this s r now later reply in
  (finished (TW.heap s) (TW.heap s')
   /\ TW.executionHistory s' = TW.executionHistory s)
  \/ (exists order part e,
        TW.heap s !! r = Some order
        /\ TW.executionPlan order !! TW.executedParts order = Some part
        /\ TW.status part = TW.pending
        /\ finished
             (alter (fun o => TW.set_plan
                        (alter (TW.mark_failed e) (TW.executedParts order)
                               (TW.executionPlan o)) o) r (TW.heap s))
             (TW.heap s')
        /\ TW.executionHistory s' = TW.executionHistory s)
  \/ (exists order part r' o' tx,
        TW.heap s !! r = Some order
        /\ TW.executionPlan order !! TW.executedParts order = Some part
        /\ TW.status part = TW.pending
        /\ TW.executionTime part <= now
        /\ TW.heap s !! r' = Some o'
        /\ backend_call this o' part reply = inr tx
        /\ finished
             (alter (fun o => TW.set_executedParts (S (TW.executedParts o)) o) r
                (alter (TW.add_totals (TW.tx_size tx) (TW.tx_pnl tx)) r'
                   (alter (fun o => TW.set_plan
                              (alter (TW.mark_executed tx later)
                                     (TW.executedParts order)
                                     (TW.executionPlan o)) o) r (TW.heap s))))
             (TW.heap s')
        /\ TW.executionHistory s'
           = (TW.executionHistory s
              ++ [TW.mkTrade (TW.id (TW.spec order)) (TW.partIndex part)
                    (TW.tx_price tx) (TW.tx_size tx) (TW.direction (TW.spec o'))
                    (TW.tx_pnl tx)])%list).
Proof.
  intros s'. subst s'. unfold TW.executeNextPart.
  destruct (TW.heap s !! r) as [order |] eqn:Hr; [| left; split; [by left | done]].
  set (t := TW.timers s ∖ {[ r ]}).
  assert (Hdone : forall now',
    finished (TW.heap s)
      (TW.heap (TW.completeOrder (TW.set_timers t s) (TW.id (TW.spec order)) now'))
    /\ TW.executionHistory
         (TW.completeOrder (TW.set_timers t s) (TW.id (TW.spec order)) now')
       = TW.executionHistory s).
  { intros now'. apply (completeOrder_finished (TW.set_timers t s)). }
  destruct (TW.executionPlan order !! TW.executedParts order) as [part |] eqn:Hpart;
    [| left; apply Hdone].
  destruct (TW.status part) eqn:Hstatus; [| left; apply Hdone ..].
  destruct (Rltb now (TW.executionTime part)) eqn:Htime;
    [left; split; [by left | done] |].
  apply Rltb_false in Htime.
  unfold TW.executePart, TW.run_backend.
  destruct (TW.activeOrders s !! TW.id (TW.spec order)) as [r' |] eqn:Hid.
  2:{ right; left. exists order, part, TW.NoSuchOrder.
      repeat (split; [done |]).
      apply (failOrder_finished (TW.set_timers t (TW.set_heap _ s))). }
  destruct (TW.heap s !! r') as [o' |] eqn:Hr'.
  2:{ right; left. exists order, part, TW.NoSuchOrder.
      repeat (split; [done |]).
      apply (failOrder_finished (TW.set_timers t (TW.set_heap _ s))). }
  fold (backend_call this o' part reply).
  destruct (backend_call this o' part reply) as [e | tx] eqn:Hcall.
  { right; left. exists order, part, e.
    repeat (split; [done |]).
    apply (failOrder_finished (TW.set_timers t (TW.set_heap _ s))). }
  right; right. exists order, part, r', o', tx.
  repeat (split; [done |]).
  destruct (_ <? _)%nat.
  - cbn. split; [by left | done].
  - match goal with
    | |- context [TW.completeOrder ?s0 ?oid ?n] =>
        destruct (completeOrder_finished s0 oid n) as [Hf Hh]
    end.
    split; [exact Hf | by rewrite Hh].
Qed.
End Closure.

(** *** Invariants of the executor *)

Lemma run_invariant (this : TW.Executor) (I : TW.State -> Prop) :
  (forall s i, I s -> I (TW.step this s i)) ->
  forall inputs s, I s -> I (TW.run this s inputs).
Proof.
  intros Hstep inputs. induction inputs as [| i inputs IH]; intros s Hs; [done |].
  unfold TW.run in *. cbn [fold_left]. by apply IH, Hstep.
Qed.

Lemma finished_Forall (P : TW.Order -> Prop) h h' :
  (forall st e t o, P o -> P (TW.finish st e t o)) ->
  finished h h' -> Forall P h -> Forall P h'.
Proof.
  intros HP [-> | (r & st & e & t & ->)] Hall; [done |].
  apply Forall_alter; [done |]. intros o _. apply HP.
Qed.

Lemma fmap_alter_same {A B : Type} (m : A -> B) (f : A -> A) (i : nat) (l : list A) :
  (forall x, m (f x) = m x) -> m <$> alter f i l = m <$> l.
Proof.
  intros Hm. rewrite (list_fmap_alter m f (fun y => y)).
  - apply list_alter_id. done.
  - apply Forall_true. intros x. apply Hm.
Qed.

Lemma finished_fmap {B : Type} (m : TW.Order -> B) h h' :
  (forall st e t o, m (TW.finish st e t o) = m o) ->
  finished h h' -> m <$> h' = m <$> h.
Proof.
  intros Hm [-> | (r & st & e & t & ->)]; [done |].
  apply fmap_alter_same. intros o. apply Hm.
Qed.

Lemma sum_list_alter {A : Type} (m : A -> nat) (f : A -> A) (l : list A) :
  forall i x, l !! i = Some x ->
  (sum_list (m <$> alter f i l) + m x = sum_list (m <$> l) + m (f x))%nat.
Proof.
  induction l as [| y l IH]; intros [| i] x Hx; try done.
  - cbn in Hx. simplify_eq. cbn. lia.
  - cbn in Hx. cbn. specialize (IH i x Hx). cbn in IH. lia.
Qed.

Lemma sum_list_app (l1 l2 : list nat) :
  sum_list (l1 ++ l2) = (sum_list l1 + sum_list l2)%nat.
Proof. induction l1 as [| x l1 IH]; cbn; [done | rewrite IH; lia]. Qed.

Lemma sum_R_alter {A : Type} (m : A -> R) (f : A -> A) (l : list A) :
  forall i x, l !! i = Some x ->
  sum_R (m <$> alter f i l) + m x = sum_R (m <$> l) + m (f x).
Proof.
  unfold sum_R.
  induction l as [| y l IH]; intros [| i] x Hx; try done.
  - cbn in Hx. simplify_eq. cbn. lra.
  - cbn in Hx. cbn. specialize (IH i x Hx). cbn in IH. lra.
Qed.

Lemma alter_lookup_is_Some {A : Type} (f : A -> A) (i j : nat) (l : list A) (x : A) :
  l !! j = Some x -> exists y, alter f i l !! j = Some y.
Proof.
  intros Hx. apply lookup_lt_is_Some. rewrite length_alter.
  by apply lookup_lt_is_Some.
Qed.

(** A fill that the backend reports carries no profit or loss. *)
Lemma backend_call_pnl (this : TW.Executor) (o : TW.Order) (part : TW.Part)
    (reply : TW.BackendReply) (tx : TW.TxResult) :
  backend_call this o part reply = inr tx -> TW.tx_pnl tx = 0.
Proof.
  unfold backend_call, TW.executeBuyOrder, TW.executeSellOrder, TW.after_quote.
  destruct (TW.direction (TW.spec o)), reply as [msg | dst [msg | msg | gas]];
    try done; destruct (Qgtb _ _); try done; by intros [= <-].
Qed.

Lemma in_order_same (o o' : TW.Order) :
  TW.executionPlan o' = TW.executionPlan o ->
  TW.executedParts o' = TW.executedParts o ->
  in_order o -> in_order o'.
Proof. unfold in_order. by intros -> ->. Qed.

Lemma in_order_failed (o o' : TW.Order) (e : TW.ExecError) :
  TW.executionPlan o'
  = alter (TW.mark_failed e) (TW.executedParts o) (TW.executionPlan o) ->
  TW.executedParts o' = TW.executedParts o ->
  in_order o -> in_order o'.
Proof.
  unfold in_order. intros -> -> [Hlen Hparts].
  split; [by rewrite length_alter |].
  intros i p'. rewrite list_lookup_alter.
  destruct (decide (TW.executedParts o = i)) as [<- | Hne].
  - destruct (TW.executionPlan o !! TW.executedParts o) as [p |] eqn:Hp; [| done].
    intros [= <-]. destruct (Hparts _ p Hp) as (Hidx & _).
    cbn. repeat split; [done | lia | done | lia].
  - apply Hparts.
Qed.

Lemma in_order_executed (o o' : TW.Order) (tx : TW.TxResult) (t : R) :
  TW.executionPlan o'
  = alter (TW.mark_executed tx t) (TW.executedParts o) (TW.executionPlan o) ->
  TW.executedParts o' = S (TW.executedParts o) ->
  (TW.executedParts o < length (TW.executionPlan o))%nat ->
  in_order o -> in_order o'.
Proof.
  unfold in_order. intros -> -> Hlt [Hlen Hparts].
  split; [by rewrite length_alter |].
  intros i p'. rewrite list_lookup_alter.
  destruct (decide (TW.executedParts o = i)) as [<- | Hne].
  - destruct (TW.executionPlan o !! TW.executedParts o) as [p |] eqn:Hp; [| done].
    intros [= <-]. destruct (Hparts _ p Hp) as (Hidx & _).
    cbn. repeat split; [done | lia | lia].
  - intros Hp. destruct (Hparts _ _ Hp) as (Hidx & Hbefore & _ & Hafter).
    repeat split; [done | | |].
    + intros. apply Hbefore. lia.
    + intros ->. rewrite Hafter by lia. done.
    + intros. apply Hafter. lia.
Qed.

Section ExecutorInvariants.
Variable this : TW.Executor.
Implicit Types (s : TW.State) (r idx : nat) (oid : string).

Lemma new_order_in_order (order : TW.OrderSpec) (clock : nat -> R) (now : R) :
  in_order
    (TW.mkOrder order
       (TW.calculateExecutionPlan this clock (TW.totalSize order) (TW.duration order)
          (TW.maxParts order) (TW.quotes order))
       0 0 0 now TW.active None None).
Proof.
  split; cbn [TW.executedParts TW.executionPlan]; [lia |].
  intros i p Hp.
  assert (Hi : (i < TW.maxParts order)%nat).
  { apply lookup_lt_Some in Hp. by rewrite plan_length in Hp. }
  rewrite plan_lookup in Hp by done. injection Hp as <-.
  cbn. repeat split; try done; lia.
Qed.

Lemma executed_heap_in_order (h : list TW.Order) (r r' : nat) (order : TW.Order)
    (part : TW.Part) (tx : TW.TxResult) (t sz pnl : R) :
  h !! r = Some order ->
  TW.executionPlan order !! TW.executedParts order = Some part ->
  Forall in_order h ->
  Forall in_order
    (alter (fun o => TW.set_executedParts (S (TW.executedParts o)) o) r
       (alter (TW.add_totals sz pnl) r'
          (alter (fun o => TW.set_plan
                     (alter (TW.mark_executed tx t) (TW.executedParts order)
                            (TW.executionPlan o)) o) r h))).
Proof.
  intros Hr Hpart Hall. apply Forall_lookup. intros j o3.
  assert (Hlt : (TW.executedParts order < length (TW.executionPlan order))%nat)
    by (by apply lookup_lt_Some in Hpart).
  pose proof (Forall_lookup_1 _ _ _ _ Hall Hr) as Horder.
  rewrite !list_lookup_alter.
  repeat case_decide; simplify_eq; rewrite ?Hr; cbn.
  - intros [= <-]. by apply (in_order_executed order _ tx t).
  - intros [= <-]. by apply (in_order_executed order _ tx t).
  - destruct (h !! j) as [o |] eqn:Ho; [| done].
    cbn. intros [= <-].
    apply (in_order_same o); [done | done |].
    by apply (Forall_lookup_1 _ _ _ _ Hall Ho).
  - intros Ho. by apply (Forall_lookup_1 _ _ _ _ Hall Ho).
Qed.

Lemma step_in_order s (i : TW.Input) :
  Forall in_order (TW.heap s) -> Forall in_order (TW.heap (TW.step this s i)).
Proof.
  intros Hall. destruct i as [order clock now | r now later reply]; cbn [TW.step].
  - unfold TW.executeTWAPOrder. cbn.
    apply Forall_app_2; [done |]. constructor; [| constructor].
    apply new_order_in_order.
  - destruct (decide (r ∈ TW.timers s)) as [Harmed |]; [| done].
    assert (Hfin : forall st e t o, in_order o -> in_order (TW.finish st e t o))
      by (intros; by apply (in_order_same o)).
    destruct (executeNextPart_cases this s r now later reply)
      as [[Hf _] | [(order & part & e & Hr & Hpart & _ & Hf & _)
                   | (order & part & r' & o' & tx & Hr & Hpart & _ & _ & _ & _ & Hf & _)]].
    + by apply (finished_Forall _ _ _ Hfin Hf).
    + apply (finished_Forall _ _ _ Hfin Hf).
      apply Forall_alter; [done |]. intros x Hx Hin.
      rewrite Hr in Hx. injection Hx as <-.
      by apply (in_order_failed order _ e).
    + apply (finished_Forall _ _ _ Hfin Hf).
      by apply (executed_heap_in_order _ _ _ order part).
Qed.

Lemma in_order_filter (plan : list TW.Part) : forall (n : nat),
  (forall i p, plan !! i = Some p ->
     ((i < n)%nat -> TW.status p = TW.executed)
     /\ ((n <= i)%nat -> TW.status p <> TW.executed)) ->
  filter (fun p => TW.is_executed p = true) plan = take n plan.
Proof.
  induction plan as [| p plan IH]; intros n Hparts; [by destruct n |].
  destruct n as [| n].
  - cbn [take]. destruct (Hparts 0%nat p eq_refl) as [_ Hp].
    rewrite filter_cons_False.
    2:{ unfold TW.is_executed. destruct (TW.status p); try done.
        exfalso. apply Hp; [lia | done]. }
    rewrite (IH 0%nat); [done |].
    intros i q Hq. destruct (Hparts (S i) q Hq) as [_ H2].
    split; [lia | intros _; apply H2; lia].
  - cbn [take]. destruct (Hparts 0%nat p eq_refl) as [Hp _].
    rewrite filter_cons_True by (unfold TW.is_executed; rewrite Hp; [done | lia]).
    f_equal. apply (IH n).
    intros i q Hq. destruct (Hparts (S i) q Hq) as [H1 H2].
    split; intros; [apply H1 | apply H2]; lia.
Qed.
End ExecutorInvariants.

(** X21.  Between the runs of the closures, that is in every state
    reached by starting orders and by complete runs of [executeNextPart]
    taken one at a time (each from its start to its return or to the
    re-arming of its timer), each stored order has worked through its
    plan in order: the counter of executed parts stays within the plan,
    every part carries its position as index, exactly the parts before
    the counter have the status executed, and every part after the
    counter is still pending.  So in these states the executed parts that
    the statistics filter out are the first [executedParts] parts of the
    plan.  States inside a run, between the marking of a part and the
    advance of the counter, are not among them. *)
Theorem X21_parts_executed_in_order (this : TW.Executor) (s : TW.State)
    (r : nat) (o : TW.Order) :
  reachable this s -> TW.heap s !! r = Some o ->
  in_order o
  /\ filter (fun p => TW.is_executed p = true) (TW.executionPlan o)
     = take (TW.executedParts o) (TW.executionPlan o).
Proof.
  intros [inputs ->] Ho.
  assert (Hall : Forall in_order (TW.heap (TW.run this TW.initial inputs))).
  { apply (run_invariant this (fun s => Forall in_order (TW.heap s))).
    - apply step_in_order.
    - constructor. }
  pose proof (Forall_lookup_1 _ _ _ _ Hall Ho) as Hin.
  split; [done |].
  apply in_order_filter.
  intros i p Hp. destruct Hin as [_ Hparts].
  destruct (Hparts i p Hp) as (_ & Hbefore & Hat & Hafter).
  split; [done |]. intros Hge.
  destruct (decide (i = TW.executedParts o)) as [-> | Hne]; [by apply Hat |].
  rewrite Hafter by lia. done.
Qed.

Lemma X21_parts_executed_in_order_witness :
  filter (fun p => TW.is_executed p = true) (TW.executionPlan started_order)
  = take (TW.executedParts started_order) (TW.executionPlan started_order).
Proof.
  assert (Hreach : reachable default_executor started) by (by eexists).
  assert (Hobj : TW.heap started !! 0%nat = Some started_order) by reflexivity.
  destruct (X21_parts_executed_in_order default_executor started 0 started_order
              Hreach Hobj) as [_ H].
  exact H.
Defined.

Section Books.
Variable this : TW.Executor.
Implicit Types (s : TW.State) (r idx : nat) (oid : string).

Lemma fold_left_snoc {A : Type} (m : A -> R) (l : list A) (x : A) :
  fold_left (fun sum y => sum + m y) (l ++ [x]) 0
  = fold_left (fun sum y => sum + m y) l 0 + m x.
Proof. by rewrite fold_left_app. Qed.

(** The trade history and the stored objects agree: one trade per
    executed part, the traded sizes are the executed sizes, and no
    profit or loss is booked anywhere. *)
Lemma step_books s (i : TW.Input) :
  let books s :=
    length (TW.executionHistory s) = executed_count (TW.heap s)
    /\ fold_left (fun sum trade => sum + TW.trade_size trade) (TW.executionHistory s) 0
       = executed_volume (TW.heap s)
    /\ fold_left (fun sum trade => sum + TW.trade_pnl trade) (TW.executionHistory s) 0 = 0
    /\ Forall (fun o => TW.totalPnL o = 0) (TW.heap s) in
  books s -> books (TW.step this s i).
Proof.
  intros books (Hcount & Hvol & Hpnl & Hobjs). subst books. cbn beta.
  unfold executed_count, executed_volume in *.
  destruct i as [order clock now | r now later reply]; cbn [TW.step].
  - unfold TW.executeTWAPOrder. cbn.
    rewrite !fmap_app, sum_list_app, sum_R_app. cbn.
    repeat split; [lia | unfold sum_R in *; cbn; lra | done |].
    apply Forall_app_2; [done |]. by constructor.
  - destruct (decide (r ∈ TW.timers s)) as [Harmed |]; [| done].
    assert (Hfin : forall st e t o, TW.totalPnL o = 0 -> TW.totalPnL (TW.finish st e t o) = 0)
      by done.
    destruct (executeNextPart_cases this s r now later reply)
      as [[Hf Hh] | [(order & part & e & Hr & Hpart & _ & Hf & Hh)
                   | (order & part & r' & o' & tx & Hr & Hpart & _ & _ & Hr' & Hcall & Hf & Hh)]].
    + rewrite Hh, (finished_fmap TW.executedParts _ _ ltac:(done) Hf),
        (finished_fmap TW.order_executedSize _ _ ltac:(done) Hf).
      repeat split; try done. by apply (finished_Forall _ _ _ Hfin Hf).
    + rewrite Hh, (finished_fmap TW.executedParts _ _ ltac:(done) Hf),
        (finished_fmap TW.order_executedSize _ _ ltac:(done) Hf).
      rewrite !fmap_alter_same by done.
      repeat split; try done.
      apply (finished_Forall _ _ _ Hfin Hf). by apply Forall_alter.
    + pose proof (backend_call_pnl _ _ _ _ _ Hcall) as Hzero.
      rewrite Hh, (finished_fmap TW.executedParts _ _ ltac:(done) Hf),
        (finished_fmap TW.order_executedSize _ _ ltac:(done) Hf).
      rewrite length_app, !fold_left_snoc. cbn [length TW.trade_size TW.trade_pnl].
      set (h1 := alter (fun o => TW.set_plan _ o) r (TW.heap s)).
      set (h2 := alter (TW.add_totals _ _) r' h1).
      destruct (alter_lookup_is_Some (fun o => TW.set_plan
                    (alter (TW.mark_executed tx later) (TW.executedParts order)
                           (TW.executionPlan o)) o) r r' _ _ Hr') as [x1 Hx1].
      fold h1 in Hx1.
      destruct (alter_lookup_is_Some (fun o => TW.set_plan
                    (alter (TW.mark_executed tx later) (TW.executedParts order)
                           (TW.executionPlan o)) o) r r _ _ Hr) as [y1 Hy1].
      fold h1 in Hy1.
      destruct (alter_lookup_is_Some (TW.add_totals (TW.tx_size tx) (TW.tx_pnl tx))
                  r' r _ _ Hy1) as [x2 Hx2].
      fold h2 in Hx2.
      pose proof (sum_list_alter TW.executedParts
                    (fun o => TW.set_executedParts (S (TW.executedParts o)) o)
                    h2 r x2 Hx2) as Hsum.
      cbn [TW.executedParts TW.set_executedParts] in Hsum.
      pose proof (sum_R_alter TW.order_executedSize
                    (TW.add_totals (TW.tx_size tx) (TW.tx_pnl tx)) h1 r' x1 Hx1) as HsumR.
      cbn [TW.order_executedSize TW.add_totals] in HsumR. fold h2 in HsumR.
      assert (H2c : TW.executedParts <$> h2 = TW.executedParts <$> TW.heap s).
      { subst h2 h1. by rewrite !fmap_alter_same. }
      assert (H1v : TW.order_executedSize <$> h1 = TW.order_executedSize <$> TW.heap s).
      { subst h1. by rewrite fmap_alter_same. }
      rewrite (fmap_alter_same TW.order_executedSize) by done.
      rewrite H2c in Hsum. rewrite H1v in HsumR.
      repeat split; [lia | lra | lra |].
      apply (finished_Forall _ _ _ Hfin Hf).
      apply Forall_alter; [| done].
      apply Forall_alter; [| intros x _ Hx; cbn; lra].
      by apply Forall_alter.
Qed.
End Books.

(** X22.  Between the runs of the closures, that is in every state
    reached by starting orders and by complete runs of [executeNextPart]
    taken one at a time, the statistics agree with the stored order
    objects: the number of trades is the sum of the objects' counters of
    executed parts, the total volume is the sum of their executed sizes,
    and the total PnL is 0, as is the PnL of every object, because every
    fill is booked with a PnL of 0.  States inside a run, where the size
    is booked on the object before the trade is recorded, are not among
    them. *)
Theorem X22_statistics_match_orders (this : TW.Executor) (s : TW.State) :
  reachable this s ->
  TW.stats_totalOrders (TW.getExecutionStats s) = executed_count (TW.heap s)
  /\ TW.stats_totalVolume (TW.getExecutionStats s) = executed_volume (TW.heap s)
  /\ TW.stats_totalPnL (TW.getExecutionStats s) = 0
  /\ Forall (fun o => TW.totalPnL o = 0) (TW.heap s).
Proof.
  intros [inputs ->]. cbn [TW.getExecutionStats TW.stats_totalOrders
    TW.stats_totalVolume TW.stats_totalPnL].
  apply (run_invariant this (fun s =>
    length (TW.executionHistory s) = executed_count (TW.heap s)
    /\ fold_left (fun sum trade => sum + TW.trade_size trade) (TW.executionHistory s) 0
       = executed_volume (TW.heap s)
    /\ fold_left (fun sum trade => sum + TW.trade_pnl trade) (TW.executionHistory s) 0 = 0
    /\ Forall (fun o => TW.totalPnL o = 0) (TW.heap s))).
  - intros s i. apply (step_books this s i).
  - cbn. unfold executed_volume, sum_R. cbn. by repeat split.
Qed.

Lemma X22_statistics_match_orders_witness :
  TW.stats_totalOrders (TW.getExecutionStats started) = executed_count (TW.heap started).
Proof.
  assert (Hreach : reachable default_executor started) by (by eexists).
  destruct (X22_statistics_match_orders default_executor started Hreach) as [H _].
  exact H.
Defined.

(** *** Parts that are done stay as they are *)

Section Terminal.
Variable this : TW.Executor.
Variables (j i : nat) (p : TW.Part).
Hypothesis Hdone : TW.status p <> TW.pending.

Let kept (h : list TW.Order) : Prop :=
  exists o, h !! j = Some o /\ TW.executionPlan o !! i = Some p.

Lemma kept_alter_fields (f : TW.Order -> TW.Order) (r : nat) (h : list TW.Order) :
  (forall o, TW.executionPlan (f o) = TW.executionPlan o) ->
  kept h -> kept (alter f r h).
Proof.
  intros Hf (o & Ho & Hp). unfold kept. rewrite list_lookup_alter.
  destruct (decide (r = j)) as [-> | _]; [| by exists o].
  rewrite Ho. exists (f o). by rewrite Hf.
Qed.

Lemma kept_alter_part (g : TW.Part -> TW.Part) (r idx : nat) (h : list TW.Order)
    (order : TW.Order) (part : TW.Part) :
  h !! r = Some order -> TW.executionPlan order !! idx = Some part ->
  TW.status part = TW.pending ->
  kept h ->
  kept (alter (fun o => TW.set_plan (alter g idx (TW.executionPlan o)) o) r h).
Proof.
  intros Hr Hpart Hpending (o & Ho & Hp). unfold kept. rewrite list_lookup_alter.
  destruct (decide (r = j)) as [-> | _]; [| by exists o].
  rewrite Ho. eexists. split; [done |]. cbn.
  rewrite list_lookup_alter_ne; [done |].
  intros ->. rewrite Hr in Ho. injection Ho as <-.
  rewrite Hpart in Hp. injection Hp as <-. done.
Qed.

Lemma kept_finished (h h' : list TW.Order) : finished h h' -> kept h -> kept h'.
Proof.
  intros [-> | (r & st & e & t & ->)]; [done |]. by apply kept_alter_fields.
Qed.

Lemma step_kept (s : TW.State) (input : TW.Input) :
  kept (TW.heap s) -> kept (TW.heap (TW.step this s input)).
Proof.
  intros Hk. destruct input as [order clock now | r now later reply]; cbn [TW.step].
  - destruct Hk as (o & Ho & Hp). exists o. split; [| done].
    unfold TW.executeTWAPOrder. cbn. by apply lookup_app_l_Some.
  - destruct (decide (r ∈ TW.timers s)) as [Harmed |]; [| done].
    destruct (executeNextPart_cases this s r now later reply)
      as [[Hf _] | [(order & part & e & Hr & Hpart & Hpend & Hf & _)
                   | (order & part & r' & o' & tx & Hr & Hpart & Hpend & _ & _ & _ & Hf & _)]].
    + by apply (kept_finished _ _ Hf).
    + apply (kept_finished _ _ Hf). by apply (kept_alter_part _ _ _ _ order part).
    + apply (kept_finished _ _ Hf).
      apply kept_alter_fields; [done |].
      apply kept_alter_fields; [done |].
      by apply (kept_alter_part _ _ _ _ order part).
Qed.

Lemma run_kept (inputs : list TW.Input) (s : TW.State) :
  kept (TW.heap s) -> kept (TW.heap (TW.run this s inputs)).
Proof.
  apply (run_invariant this (fun s => kept (TW.heap s))). apply step_kept.
Qed.
End Terminal.

(** X23.  A part that is executed or failed is never touched again:
    whatever the executor does afterwards, the object keeps this part,
    with its status, price, size, gas and error, at the same place of its
    plan. *)
Theorem X23_done_parts_are_final (this : TW.Executor) (s : TW.State)
    (inputs : list TW.Input) (r i : nat) (o : TW.Order) (p : TW.Part) :
  TW.heap s !! r = Some o -> TW.executionPlan o !! i = Some p ->
  TW.status p <> TW.pending ->
  exists o', TW.heap (TW.run this s inputs) !! r = Some o'
             /\ TW.executionPlan o' !! i = Some p.
Proof.
  intros Ho Hp Hdone. apply (run_kept this r i p Hdone inputs s). by exists o.
Qed.

Lemma X23_done_parts_are_final_witness :
  let e := TW.BackendError "1inch quote failed" in
  let s1 := TW.step default_executor started (TW.RunClosure 0 1000 1200 quote_failure) in
  exists o', TW.heap (TW.run default_executor s1
                        [TW.RunClosure 0 1300 1400 quote_failure]) !! 0%nat = Some o'
             /\ TW.executionPlan o' !! 0%nat = Some (TW.mark_failed e first_part).
Proof.
  intros e s1.
  assert (Htimer : 0%nat ∈ TW.timers started).
  { cbn. apply elem_of_union_r. by apply elem_of_singleton. }
  assert (Hobj : TW.heap started !! 0%nat = Some started_order) by reflexivity.
  assert (Hactive : TW.activeOrders started !! TW.id (TW.spec started_order) = Some 0%nat)
    by apply lookup_insert_eq.
  assert (Hpart : TW.executionPlan started_order !! TW.executedParts started_order
                  = Some first_part) by reflexivity.
  assert (Hdue : TW.executionTime first_part <= 1000) by (cbn; lra).
  pose proof (failed_order_lookup default_executor started 0 started_order first_part
                1000 1200 quote_failure e Htimer Hobj Hactive Hpart eq_refl Hdue eq_refl)
    as Hlook.
  apply (X23_done_parts_are_final default_executor s1
           [TW.RunClosure 0 1300 1400 quote_failure] 0 0
           (failed_order started_order 1200 e) (TW.mark_failed e first_part) Hlook).
  - reflexivity.
  - done.
Defined.

(** X24.  One run of an order's closure adds at most one trade to the
    history, and only for the pending part at the order's counter and
    when the clock has reached that part's scheduled time; the trade
    carries the order's id and the part's index and a PnL of 0. *)
Theorem X24_trade_only_when_due (this : TW.Executor) (s : TW.State) (r : nat)
    (now later : R) (reply : TW.BackendReply) :
  let s' := TW.executeNextPart this s r now later reply in
  TW.executionHistory s' = TW.executionHistory s
  \/ exists order part trade,
       TW.heap s !! r = Some order
       /\ TW.executionPlan order !! TW.executedParts order = Some part
       /\ TW.status part = TW.pending
       /\ TW.executionTime part <= now
       /\ TW.executionHistory s' = (TW.executionHistory s ++ [trade])%list
       /\ TW.trade_orderId trade = TW.id (TW.spec order)
       /\ TW.trade_partIndex trade = TW.partIndex part
       /\ TW.trade_pnl trade = 0.
Proof.
  intros s'. subst s'.
  destruct (executeNextPart_cases this s r now later reply)
    as [[_ Hh] | [(order & part & e & _ & _ & _ & _ & Hh)
                 | (order & part & r' & o' & tx & Hr & Hpart & Hpend & Htime & _ & Hcall & _ & Hh)]];
    [by left | by left |].
  right. exists order, part. eexists.
  do 4 (split; [done |]). split; [exact Hh |].
  cbn. do 2 (split; [done |]).
  exact (backend_call_pnl this o' part reply tx Hcall).
Qed.

(** X25.  An order with [maxParts = 0] gets an empty plan, and the first
    run of its closure completes it without any backend call:
    [orderCompleted] reports a size of 0 in 0 parts, the order leaves the
    active-order map, its closure is not armed again and no trade is
    recorded. *)
Theorem X25_empty_plan_completes (this : TW.Executor) (s : TW.State)
    (order : TW.OrderSpec) (clock : nat -> R) (now now' later : R)
    (reply : TW.BackendReply) :
  TW.maxParts order = 0%nat ->
  let r := length (TW.heap s) in
  let s' := TW.run this s [TW.StartOrder order clock now;
                           TW.RunClosure r now' later reply] in
  TW.orderCompleted (TW.id order) 0 0 0 ∈ TW.events s'
  /\ TW.activeOrders s' !! TW.id order = None
  /\ (r ∉ TW.timers s')
  /\ TW.executionHistory s' = TW.executionHistory s
  /\ exists o, TW.heap s' !! r = Some o /\ TW.order_status o = TW.completed
               /\ TW.executionPlan o = [].
Proof.
  intros Hparts r s'. subst s'. unfold TW.run. cbn [fold_left TW.step].
  unfold TW.executeTWAPOrder. rewrite Hparts.
  cbn [TW.calculateExecutionPlan seq map]. fold r.
  set (obj := TW.mkOrder order [] 0 0 0 now TW.active None None).
  unfold TW.emit, TW.set_timers, TW.set_activeOrders, TW.set_heap.
  cbn [TW.heap TW.activeOrders TW.timers TW.executionHistory TW.events].
  rewrite decide_True by (apply elem_of_union_r; by apply elem_of_singleton).
  assert (Hobj : (TW.heap s ++ [obj])%list !! r = Some obj) by (by apply list_lookup_middle).
  unfold TW.executeNextPart. cbn [TW.heap]. rewrite Hobj.
  cbn [TW.executionPlan TW.executedParts TW.spec obj lookup list_lookup].
  unfold TW.completeOrder, TW.emit, TW.set_timers, TW.set_activeOrders, TW.set_heap.
  cbn [TW.heap TW.activeOrders TW.timers TW.executionHistory TW.events].
  rewrite lookup_insert_eq.
  rewrite list_lookup_alter_eq, Hobj.
  cbn [fmap option_fmap option_map].
  cbn [TW.heap TW.activeOrders TW.timers TW.executionHistory TW.events TW.finish
       TW.order_executedSize TW.totalPnL TW.executionPlan length obj].
  split; [apply list_elem_of_here |].
  split; [apply lookup_delete_eq |].
  split; [intros [_ Hr]%elem_of_difference; apply Hr; by apply elem_of_singleton |].
  split; [done |].
  exists (TW.finish TW.completed None now' obj). split; [| done].
  by rewrite list_lookup_alter_eq, Hobj.
Qed.

Lemma X25_empty_plan_completes_witness :
  let order := TW.mkOrderSpec "twap_0" 1 300000 TW.buy None 0 in
  TW.activeOrders
    (TW.run default_executor TW.initial
       [TW.StartOrder order (fun _ => 1000) 1000;
        TW.RunClosure 0 1000 1200 quote_failure]) !! "twap_0" = None.
Proof.
  intros order.
  destruct (X25_empty_plan_completes default_executor TW.initial order
              (fun _ => 1000) 1000 1000 1200 quote_failure eq_refl) as (_ & H & _).
  exact H.
Defined.

(** *** The statistics of one order *)

Section AveragePrice.
Variables lo hi : R.

(** A part with a fill price between [lo] and [hi] and a positive size. *)
Let filled (p : TW.Part) : Prop :=
  exists price sz, TW.executedPrice p = Some price /\ TW.executedSize p = Some sz
                   /\ lo <= price <= hi /\ 0 < sz.

Lemma average_price_folds (l : list TW.Part) :
  Forall filled l ->
  forall a b, exists v sz,
    fold_left (fun sum part => TW.add_opt sum (TW.part_value part)) l (Some a)
    = Some (a + v)
    /\ fold_left (fun sum part => TW.add_opt sum (TW.executedSize part)) l (Some b)
       = Some (b + sz)
    /\ lo * sz <= v <= hi * sz
    /\ 0 <= sz
    /\ (l <> [] -> 0 < sz).
Proof.
  induction 1 as [| p l (price & psz & Hprice & Hsize & Hrange & Hpos) _ IH];
    intros a b.
  - exists 0, 0. cbn. rewrite !Rplus_0_r. repeat split; try lra. done.
  - cbn [fold_left]. unfold TW.part_value at 2. rewrite Hprice, Hsize.
    cbn [TW.add_opt].
    destruct (IH (a + price * psz) (b + psz)) as (v & sz & Hv & Hs & Hb & Hnn & _).
    exists (price * psz + v), (psz + sz).
    rewrite Hv, Hs. repeat split; try (f_equal; lra); try nra.
Qed.
End AveragePrice.

(** X26.  The average price of an order without executed parts is 0.
    When every executed part has a fill price between [lo] and [hi] and
    a positive filled size, and there is at least one, the average price
    is a number between [lo] and [hi]. *)
Theorem X26_average_price_within_fills (order : TW.Order) (lo hi : R) :
  (forall p, p ∈ TW.executionPlan order -> TW.status p = TW.executed ->
     exists price sz, TW.executedPrice p = Some price /\ TW.executedSize p = Some sz
                      /\ lo <= price <= hi /\ 0 < sz) ->
  (Forall (fun p => TW.status p <> TW.executed) (TW.executionPlan order) ->
   TW.calculateAveragePrice order = Some 0)
  /\ (Exists (fun p => TW.status p = TW.executed) (TW.executionPlan order) ->
      exists avg, TW.calculateAveragePrice order = Some avg /\ lo <= avg <= hi).
Proof.
  intros Hfills. unfold TW.calculateAveragePrice.
  set (executedParts := filter (fun p => TW.is_executed p = true) (TW.executionPlan order)).
  assert (Hexec : forall p, TW.is_executed p = true <-> TW.status p = TW.executed).
  { intros p. unfold TW.is_executed. by destruct (TW.status p). }
  split.
  - intros Hnone.
    assert (Hnil : executedParts = []).
    { subst executedParts.
      induction Hnone as [| p l Hp _ IH]; [done |].
      rewrite filter_cons_False; [apply IH | by rewrite Hexec].
      intros q Hq. apply Hfills. by right. }
    by rewrite Hnil.
  - intros Hsome.
    assert (Hne : executedParts <> []).
    { apply Exists_exists in Hsome as (p & Hin & Hp).
      intros Hnil. apply (filter_nil_not_elem_of _ _ p Hnil); [by apply Hexec | done]. }
    assert (Hall : Forall (fun p => exists price sz,
                     TW.executedPrice p = Some price /\ TW.executedSize p = Some sz
                     /\ lo <= price <= hi /\ 0 < sz) executedParts).
    { apply Forall_forall. intros p [Hp Hin]%list_elem_of_filter.
      apply Hfills; [done | by apply Hexec]. }
    destruct (average_price_folds lo hi executedParts Hall 0 0)
      as (v & sz & -> & -> & Hb & _ & Hpos).
    specialize (Hpos Hne).
    destruct executedParts as [| p l]; [done |].
    destruct (Req_dec_T (0 + sz) 0) as [Hz | _]; [lra |].
    eexists. split; [done |].
    replace ((0 + v) / (0 + sz)) with (v / sz) by (field; lra).
    split.
    + apply (Rmult_le_reg_r sz); [done |].
      replace (v / sz * sz) with v by (field; lra). lra.
    + apply (Rmult_le_reg_r sz); [done |].
      replace (v / sz * sz) with v by (field; lra). lra.
Qed.

Lemma X26_average_price_within_fills_witness :
  exists avg, TW.calculateAveragePrice filled_order = Some avg /\ 3400 <= avg <= 3400.
Proof.
  destruct (X26_average_price_within_fills filled_order 3400 3400) as [_ H].
  - intros p ->%list_elem_of_singleton _. exists 3400, 0.1.
    cbn. repeat split; lra.
  - apply H. by apply Exists_cons_hd.
Defined.

(** *** The trading bot's order decisions *)

(** X27.  With [minOrderSize <= maxOrderSize] the base order size lies
    between the two.  The volatility scaling alone never changes it: for
    a non-negative minimum size, a volatility that is missing or
    non-negative and a spread of at most 0.1% of a non-zero reservation
    price, the base order size is [minOrderSize]. *)
Theorem X27_base_order_size (config : BOT.ExecutionConfig) (quotes : BOT.Quotes)
    (volatility : option R) :
  BOT.minOrderSize config <= BOT.maxOrderSize config ->
  BOT.minOrderSize config <= BOT.calculateBaseOrderSize config quotes volatility
                          <= BOT.maxOrderSize config
  /\ (0 <= BOT.minOrderSize config ->
      (forall v, volatility = Some v -> 0 <= v) ->
      BOT.reservationPrice quotes <> 0 ->
      BOT.optimalSpread quotes / BOT.reservationPrice quotes <= 0.001 ->
      BOT.calculateBaseOrderSize config quotes volatility = BOT.minOrderSize config).
Proof.
  intros Hlimits. unfold BOT.calculateBaseOrderSize.
  set (b1 := match volatility with Some v => _ | None => _ end).
  set (b2 := if Req_dec_T (BOT.reservationPrice quotes) 0 then _ else _).
  split.
  - split.
    + apply Rmin_glb; [done | apply Rmax_l].
    + apply Rmin_l.
  - intros Hmin Hvol Hprice Hspread.
    assert (H1 : b1 <= BOT.minOrderSize config).
    { subst b1. destruct volatility as [v |]; [| lra].
      destruct (Req_dec_T v 0); [lra |].
      specialize (Hvol v eq_refl).
      assert (Rmax 0.5 (1 - v * 2) <= 1) by (apply Rmax_lub; lra).
      assert (0 <= Rmax 0.5 (1 - v * 2)) by (etrans; [| apply Rmax_l]; lra).
      nra. }
    assert (H2 : b2 = b1).
    { subst b2. destruct (Req_dec_T _ 0); [done |].
      by rewrite (proj2 (Rgtb_false _ _)). }
    rewrite H2, Rmax_left by done. by rewrite Rmin_right.
Qed.

Lemma X27_base_order_size_witness :
  BOT.calculateBaseOrderSize (BOT.mkExecutionConfig 0.01 1)
    (BOT.mkQuotes 3400 3399 3401 2) (Some 0.3) = 0.01.
Proof.
  destruct (X27_base_order_size (BOT.mkExecutionConfig 0.01 1)
              (BOT.mkQuotes 3400 3399 3401 2) (Some 0.3)) as [_ H].
  - cbn. lra.
  - apply H.
    + cbn. lra.
    + intros v [= <-]. lra.
    + cbn. lra.
    + cbn. lra.
Defined.

(** X28.  When the reservation price lies within 0.2% of the middle of
    bid and ask and the inventory has a positive value, the direction is
    decided by the inventory alone: buy exactly when the ETH share of the
    value is below 40%, sell exactly when it is above 60%, and no order
    in between. *)
Theorem X28_direction_by_inventory (quotes : BOT.Quotes) (inventory : BOT.Inventory) :
  let price := BOT.reservationPrice quotes in
  let mid := (BOT.bidPrice quotes + BOT.askPrice quotes) / 2 in
  let ethValue := BOT.ETH inventory * price in
  let totalValue := ethValue + BOT.USDT inventory in
  mid * 0.998 <= price <= mid * 1.002 ->
  0 < totalValue ->
  (BOT.determineOrderDirection quotes inventory = Some BOT.buy
   <-> ethValue < 0.4 * totalValue)
  /\ (BOT.determineOrderDirection quotes inventory = Some BOT.sell
      <-> 0.6 * totalValue < ethValue)
  /\ (BOT.determineOrderDirection quotes inventory = None
      <-> 0.4 * totalValue <= ethValue <= 0.6 * totalValue).
Proof.
  intros price mid ethValue totalValue [Hlow Hhigh] Htotal.
  unfold BOT.determineOrderDirection. fold price mid ethValue. fold totalValue.
  rewrite (proj2 (Rgtb_false price (mid * 1.002)) Hhigh).
  rewrite (proj2 (Rltb_false price (mid * 0.998))) by lra.
  unfold BOT.quotient_lt, BOT.quotient_gt.
  destruct (Req_dec_T totalValue 0) as [Hz | _]; [lra |].
  set (ratio := ethValue / totalValue).
  assert (Hratio : ratio * totalValue = ethValue) by (subst ratio; field; lra).
  replace (0.5 - 0.1) with 0.4 by lra. replace (0.5 + 0.1) with 0.6 by lra.
  destruct (Rltb ratio 0.4) eqn:Hbuy.
  - apply Rltb_true in Hbuy.
    repeat split; try done; intros; nra.
  - apply Rltb_false in Hbuy.
    destruct (Rgtb ratio 0.6) eqn:Hsell.
    + apply Rgtb_true in Hsell.
      repeat split; try done; intros; nra.
    + apply Rgtb_false in Hsell.
      repeat split; try done; intros; nra.
Qed.

Lemma X28_direction_by_inventory_witness :
  BOT.determineOrderDirection (BOT.mkQuotes 3400 3399 3401 2) (BOT.mkInventory 1 10000)
  = Some BOT.buy.
Proof.
  destruct (X28_direction_by_inventory (BOT.mkQuotes 3400 3399 3401 2)
              (BOT.mkInventory 1 10000)) as [H _].
  - cbn. lra.
  - cbn. lra.
  - apply H. cbn. lra.
Defined.

(** An order within the size limit is not rejected for its size, and an
    accepted order is answered with [true]. *)
Lemma validateOrder_not_for_size (this : RM.State) (today : string) (now : R)
    (order : RM.Order) (inv : RM.Inventory) (md : RM.MarketData) (size limit : R) :
  RM.totalSize order <= RM.maxOrderSize this ->
  snd (RM.validateOrder this today now order inv md)
  <> inl (RM.OrderSizeExceedsMaximum size limit).
Proof.
  intros Hle. cbn [RM.validateOrder snd].
  destruct (resetDailyPnLIfNeeded_frame this today) as (_ & _ & HO & _).
  cbn zeta in HO.
  unfold RM.validateOrder_checks, RM.validateMarketConditions, RM.validateSlippage.
  rewrite HO. rewrite (proj2 (Rgtb_false (RM.totalSize order) _) Hle).
  repeat match goal with
  | |- context [RM.throw_if ?c _] => destruct c; cbn [RM.throw_if RM.seq_ RM.ok]; [done |]
  end.
  done.
Qed.

Lemma validateOrder_accepts_true (this : RM.State) (today : string) (now : R)
    (order : RM.Order) (inv : RM.Inventory) (md : RM.MarketData) (answer : bool) :
  snd (RM.validateOrder this today now order inv md) = inr answer -> answer = true.
Proof.
  cbn [RM.validateOrder snd].
  unfold RM.validateOrder_checks, RM.validateMarketConditions, RM.validateSlippage.
  repeat match goal with
  | |- context [RM.throw_if ?c _] => destruct c; cbn [RM.throw_if RM.seq_ RM.ok]; [done |]
  end.
  by intros [= <-].
Qed.

(** X29.  An evaluation of a new order ends without a direction, with a
    rejection by [validateOrder], or with an order.  The order that is
    built and validated carries the given id, the chosen direction, the
    bid as target price for a buy and the ask for a sell, and as its size
    the risk manager's recommendation for the base order size.  With an
    order size limit of at least 0.01 this size lies between 0.01 and the
    limit, so the bot's order is never rejected for its size. *)
Theorem X29_recommended_size_is_accepted (config : BOT.ExecutionConfig)
    (riskManager : RM.State) (orderId today : string) (now : R)
    (quotes : BOT.Quotes) (inventory : BOT.Inventory) (md : RM.MarketData) :
  0.01 <= RM.maxOrderSize riskManager ->
  let recommended :=
    RM.recommendPositionSize riskManager
      (BOT.calculateBaseOrderSize config quotes (Some (RM.volatility md)))
      (RM.volatility md) in
  let built d :=
    RM.mkOrder orderId (BOT.risk_direction d) recommended
      (match d with BOT.buy => BOT.bidPrice quotes | BOT.sell => BOT.askPrice quotes end) in
  0.01 <= recommended <= RM.maxOrderSize riskManager
  /\ match snd (BOT.evaluateOrderCreation config riskManager orderId today now
                  quotes inventory md) with
     | BOT.NoDirection => BOT.determineOrderDirection quotes inventory = None
     | BOT.Rejected e =>
         (exists d, BOT.determineOrderDirection quotes inventory = Some d
                    /\ snd (RM.validateOrder riskManager today now (built d)
                              (BOT.risk_inventory inventory) md) = inl e)
         /\ forall size limit, e <> RM.OrderSizeExceedsMaximum size limit
     | BOT.Ordered order =>
         exists d, BOT.determineOrderDirection quotes inventory = Some d
                   /\ order = built d
                   /\ snd (RM.validateOrder riskManager today now order
                             (BOT.risk_inventory inventory) md) = inr true
     end.
Proof.
  intros Hlimit recommended built.
  assert (Hbounds : 0.01 <= recommended <= RM.maxOrderSize riskManager).
  { subst recommended. unfold RM.recommendPositionSize.
    split; [apply Rmax_r | apply Rmax_lub; [apply Rmin_r | done]]. }
  split; [exact Hbounds |].
  unfold BOT.evaluateOrderCreation.
  destruct (BOT.determineOrderDirection quotes inventory) as [d |]; [| done].
  fold recommended. change (RM.mkOrder orderId (BOT.risk_direction d) recommended _)
    with (built d).
  destruct (RM.validateOrder riskManager today now (built d)
              (BOT.risk_inventory inventory) md) as [riskManager' [e | answer]] eqn:Hv;
    cbn [snd].
  - split; [exists d; by rewrite Hv |].
    intros size limit ->.
    apply (validateOrder_not_for_size riskManager today now (built d)
             (BOT.risk_inventory inventory) md size limit); [apply Hbounds |].
    by rewrite Hv.
  - exists d. split; [done | split; [done |]].
    rewrite Hv. cbn [snd]. f_equal.
    apply (validateOrder_accepts_true riskManager today now (built d)
             (BOT.risk_inventory inventory) md). by rewrite Hv.
Qed.

Lemma X29_recommended_size_is_accepted_witness :
  0.01 <= RM.recommendPositionSize default_risk
            (BOT.calculateBaseOrderSize (BOT.mkExecutionConfig 0.01 1)
               (BOT.mkQuotes 3400 3399 3401 2) (Some (RM.volatility calm_market)))
            (RM.volatility calm_market)
       <= RM.maxOrderSize default_risk.
Proof.
  destruct (X29_recommended_size_is_accepted (BOT.mkExecutionConfig 0.01 1)
              default_risk "twap_3" monday 1000 (BOT.mkQuotes 3400 3399 3401 2)
              (BOT.mkInventory 1 10000) calm_market) as [H _].
  - cbn. lra.
  - exact H.
Defined.
